(** * Discovery, search and download pipeline of aem.js

    A shallow embedding of the crawl / search / download core of
    [src/aem.js] and the properties of it that the specification states.

    Modelling conventions.
    - Values of the language are the inductive [JS.Val]: the JSON data a
      response parses to, plus [Undefined].  Numbers are integers and
      strings are byte strings (case mapping is the ASCII one).  The
      property list of an [Obj] is in the engine's enumeration order and
      has distinct keys.  The objects of the program come from
      [JSON.parse] and from object literals: every property they own is
      data, never a method, whatever its name.  What an object inherits
      shows where the program converts it to a string ([JS.toString]
      raises when the object owns a [toString] key) and where it assigns
      to the key [__proto__] ([assign] replaces the prototype).
    - An operation that raises in the language returns [Thrown] in the
      embedding: reading a property of [undefined]/[null], calling a string
      method on something that is not a string, [path.basename] on a
      non-string, converting an object that has no conversion to a
      string.  [try]/[catch] is a match on the completion.
    - The global [config] object is split in two: the settings ([Config],
      read only) and the mutable crawl state ([Crawl], threaded through
      every call and kept when a call raises).
    - The network and the file system are oracles: the outcome of
      [makeRequestWithRetry] per URL, and per download the state of the
      target file and the outcome of each disk operation. *)

From Stdlib Require Import List String Ascii ZArith NArith Bool Lia Arith DecimalString.
Import ListNotations.
Open Scope string_scope.
Open Scope Z_scope.

(* ================================================================== *)
(** ** Values and primitives of the language *)
(* ================================================================== *)

Module JS.

#[local] Unset Elimination Schemes.
Inductive Val : Type :=
| Undefined
| Null
| Bool (b : bool)
| Num (n : Z)
| Str (s : string)
| Arr (items : list Val)
| Obj (props : list (string * Val)).
#[local] Set Elimination Schemes.

(** Result of evaluating a piece of code: a value, or a raised error
    (its message). *)
Inductive Completion (A : Type) : Type :=
| Normal (a : A)
| Thrown (e : string).
Arguments Normal {A} a.
Arguments Thrown {A} e.

Definition bind {A B : Type} (c : Completion A) (k : A -> Completion B) : Completion B :=
  match c with
  | Normal a => k a
  | Thrown e => Thrown e
  end.

(** ToBoolean. *)
Definition truthy (v : Val) : bool :=
  match v with
  | Undefined | Null => false
  | Bool b => b
  | Num n => negb (n =? 0)
  | Str s => negb (s =? "")%string
  | Arr _ | Obj _ => true
  end.

(** [typeof v === 'object'] ([null] included). *)
Definition typeofObject (v : Val) : bool :=
  match v with
  | Null | Arr _ | Obj _ => true
  | _ => false
  end.

(** [v === 'lit'] for a string literal. *)
Definition isString (v : Val) (lit : string) : bool :=
  match v with
  | Str s => (s =? lit)%string
  | _ => false
  end.

(** [a || b] on values. *)
Definition orElse (a b : Val) : Val := if truthy a then a else b.

Definition indexKey (i : nat) : string := NilEmpty.string_of_uint (Nat.to_uint i).

Fixpoint indexed {A : Type} (i : nat) (l : list A) : list (string * A) :=
  match l with
  | [] => []
  | x :: rest => (indexKey i, x) :: indexed (S i) rest
  end.

Fixpoint chars (s : string) : list Val :=
  match s with
  | EmptyString => []
  | String c rest => Str (String c EmptyString) :: chars rest
  end.

(** Own enumerable properties, in [for .. in] / [Object.keys] order.
    [None] for [undefined] and [null], which have none to read. *)
Definition ownEntries (v : Val) : option (list (string * Val)) :=
  match v with
  | Undefined | Null => None
  | Bool _ | Num _ => Some []
  | Str s => Some (indexed 0 (chars s))
  | Arr items => Some (indexed 0 items)
  | Obj props => Some props
  end.

Fixpoint lookup (k : string) (props : list (string * Val)) : Val :=
  match props with
  | [] => Undefined
  | (k', v) :: rest => if (k' =? k)%string then v else lookup k rest
  end.

(** [v[k]]: raises on [undefined] and [null]. The keys the program reads
    are own data keys; inherited ones ([length], [constructor]) are not
    among them. *)
Definition getProp (v : Val) (k : string) : Completion Val :=
  match ownEntries v with
  | None => Thrown "TypeError: Cannot read properties of undefined"
  | Some props => Normal (lookup k props)
  end.

(** [Object.keys(v)] *)
Definition objectKeys (v : Val) : Completion (list string) :=
  match ownEntries v with
  | None => Thrown "TypeError: Cannot convert undefined or null to object"
  | Some props => Normal (map fst props)
  end.

(** [s.startsWith(p)] *)
Definition startsWith (s p : string) : bool := String.prefix p s.

(** [s.includes(p)] *)
Fixpoint includes (s p : string) : bool :=
  String.prefix p s ||
  match s with
  | EmptyString => false
  | String _ rest => includes rest p
  end.

Definition lowerChar (c : ascii) : ascii :=
  let n := nat_of_ascii c in
  if (65 <=? n)%nat && (n <=? 90)%nat then ascii_of_nat (n + 32) else c.

(** [s.toLowerCase()] *)
Fixpoint toLowerCase (s : string) : string :=
  match s with
  | EmptyString => EmptyString
  | String c rest => String (lowerChar c) (toLowerCase rest)
  end.

(** [v.toLowerCase()] on an arbitrary value: only strings have the method. *)
Definition callToLowerCase (v : Val) : Completion string :=
  match v with
  | Str s => Normal (toLowerCase s)
  | _ => Thrown "TypeError: toLowerCase is not a function"
  end.

Fixpoint join (sep : string) (l : list string) : string :=
  match l with
  | [] => ""
  | [x] => x
  | x :: rest => x ++ sep ++ join sep rest
  end.

(** [Object.hasOwn(obj, k)] on the property list of an object. *)
Definition hasOwn (k : string) (props : list (string * Val)) : bool :=
  existsb (fun kv => (fst kv =? k)%string) props.

(** Numbers print in decimal notation. *)
Definition numberToString (n : Z) : string := NilZero.string_of_int (Z.to_int n).

(** ToString, as template literals, [String(v)] and [parseInt(v)] apply
    it.  An object is converted by its [toString] method, then by
    [valueOf].  An own property of either name is data and is passed
    over, and the inherited [valueOf] returns the object itself: an
    object that owns a [toString] key has no conversion and a TypeError
    is raised; any other object prints through the inherited [toString].
    An array joins the conversions of its elements, [null] and
    [undefined] printing as the empty string. *)
Fixpoint toString (v : Val) : Completion string :=
  match v with
  | Undefined => Normal "undefined"
  | Null => Normal "null"
  | Bool true => Normal "true"
  | Bool false => Normal "false"
  | Num n => Normal (numberToString n)
  | Str s => Normal s
  | Arr items =>
      bind ((fix each (items : list Val) : Completion (list string) :=
               match items with
               | [] => Normal []
               | x :: rest =>
                   bind (match x with
                         | Undefined | Null => Normal ""
                         | _ => toString x
                         end)
                     (fun s => bind (each rest) (fun more => Normal (s :: more)))
               end) items)
        (fun parts => Normal (join "," parts))
  | Obj props =>
      if hasOwn "toString" props
      then Thrown "TypeError: Cannot convert object to primitive value"
      else Normal "[object Object]"
  end.

(** Whether ToString completes. *)
Definition printable (v : Val) : bool :=
  match toString v with
  | Normal _ => true
  | Thrown _ => false
  end.

(** [s.split(sep)] for a one-character separator. *)
Fixpoint split (sep : ascii) (s : string) : list string :=
  match s with
  | EmptyString => [""]
  | String c rest =>
      if Ascii.eqb c sep then "" :: split sep rest
      else match split sep rest with
           | [] => [String c ""]
           | seg :: segs => String c seg :: segs
           end
  end.

Definition isSpace (c : ascii) : bool :=
  let n := nat_of_ascii c in
  ((9 <=? n)%nat && (n <=? 13)%nat) || (n =? 32)%nat.

Fixpoint skipSpaces (s : string) : string :=
  match s with
  | String c rest => if isSpace c then skipSpaces rest else s
  | EmptyString => s
  end.

Definition digitValue (radix : Z) (c : ascii) : option Z :=
  let n := Z.of_nat (nat_of_ascii c) in
  let d := if (48 <=? n) && (n <=? 57) then Some (n - 48)
           else if (97 <=? n) && (n <=? 122) then Some (n - 87)
           else if (65 <=? n) && (n <=? 90) then Some (n - 55)
           else None in
  match d with
  | Some x => if x <? radix then Some x else None
  | None => None
  end.

(** Longest digit prefix; [acc] is [None] until a digit was read. *)
Fixpoint parseDigits (radix : Z) (s : string) (acc : option Z) : option Z :=
  match s with
  | EmptyString => acc
  | String c rest =>
      match digitValue radix c with
      | Some d => parseDigits radix rest
                    (Some (match acc with Some a => a * radix + d | None => d end))
      | None => acc
      end
  end.

Definition parseUnsigned (s : string) : option Z :=
  match s with
  | String "0" (String "x" rest) | String "0" (String "X" rest) => parseDigits 16 rest None
  | _ => parseDigits 10 s None
  end.

(** [parseInt(v)]: the argument is converted to a string first; [None]
    is NaN. *)
Definition parseInt (v : Val) : Completion (option Z) :=
  bind (toString v) (fun s =>
    Normal (match skipSpaces s with
            | String "-" rest => option_map Z.opp (parseUnsigned rest)
            | String "+" rest => parseUnsigned rest
            | s' => parseUnsigned s'
            end)).

(** [parseInt(a) || rest]: NaN and 0 are falsy, and [rest] is evaluated
    only then. *)
Definition parseIntOr (v : Val) (rest : Completion Z) : Completion Z :=
  bind (parseInt v) (fun r =>
    match r with
    | Some n => if n =? 0 then rest else Normal n
    | None => rest
    end).

End JS.

Import JS.

Notation "x <- c ;; k" := (JS.bind c (fun x => k))
  (at level 61, c at next level, right associativity).

(* ================================================================== *)
(** ** Node's [path] module (POSIX flavour) *)
(* ================================================================== *)

Module Path.

Fixpoint dropTrailingEmpty (segs : list string) : list string :=
  match segs with
  | [] => []
  | s :: rest =>
      match dropTrailingEmpty rest with
      | [] => if (s =? "")%string then [] else [s]
      | kept => s :: kept
      end
  end.

(** Last component of a path string, trailing slashes ignored. *)
Definition basenameStr (p : string) : string :=
  last (dropTrailingEmpty (split "/"%char p)) "".

(** [path.basename(v)]: the argument must be a string. *)
Definition basename (v : Val) : Completion string :=
  match v with
  | Str p => Normal (basenameStr p)
  | _ => Thrown "TypeError [ERR_INVALID_ARG_TYPE]: The path argument must be of type string"
  end.

(** Suffix of [s] that starts at its last dot. *)
Fixpoint lastDotSuffix (s : string) : option string :=
  match s with
  | EmptyString => None
  | String c rest =>
      match lastDotSuffix rest with
      | Some ext => Some ext
      | None => if Ascii.eqb c "."%char then Some s else None
      end
  end.

(** [path.extname(p)]: from the last dot of the last component, unless
    that dot opens the component or the component is [..]. *)
Definition extname (p : string) : string :=
  match basenameStr p with
  | EmptyString => ""
  | String c rest =>
      match lastDotSuffix rest with
      | None => ""
      | Some ext => if (String c rest =? "..")%string then "" else ext
      end
  end.

(** [path.basename(p, path.extname(p))]: the extension is a proper suffix
    of the last component, which is returned without it. *)
Definition basenameWithoutExt (p : string) : string :=
  let b := basenameStr p in
  substring 0 (String.length b - String.length (extname p)) b.

End Path.

(* ================================================================== *)
(** ** Settings and records *)
(* ================================================================== *)

(** The read-only part of [config]. *)
Record Config : Type := {
  baseUrl : string;
  downloadMetadata : bool;
  maxDepth : Z;
  maxConcurrent : nat;
  sleepTime : Z;
  testMode : bool;
  testLimit : Z;
  fileTypes : list string;
  minFileSize : Z;
  maxFileSize : Z;
  skipPatterns : list string;
  smartDepthDetection : bool;
  adaptiveDelay : bool
}.

(** The values [config] is initialised with ([downloadRenditions] is
    [false] there and no option switches it on, so the rendition pass of
    [downloadAsset] never runs and is left out). *)
Definition defaultConfig (base : string) : Config := {|
  baseUrl := base;
  downloadMetadata := true;
  maxDepth := 50;
  maxConcurrent := 3;
  sleepTime := 200;
  testMode := false;
  testLimit := 10;
  fileTypes := [];
  minFileSize := 0;
  maxFileSize := 5000000000;
  skipPatterns := [".tmp"; ".temp"; "thumb_"; "thumbnail"; ".cache"; "cq5dam.thumbnail"];
  smartDepthDetection := true;
  adaptiveDelay := true
|}.

(** The record [extractAssetInfo] builds.  The fields that only feed the
    report (mimeType, width, height, created, modified, creator,
    copyright, tags, lastModifiedBy, _raw) are plain property reads of
    objects already read from and are left out.  [metadata] holds the
    own properties of the merged object, which are what the metadata
    file of a download shows of it. *)
Record AssetInfo : Type := {
  path : string;
  name : string;
  extension : string;
  size : Z;
  title : Val;
  description : Val;
  keywords : Val;
  renditions : list string;
  metadata : list (string * Val);
  matchReason : option string;
  matchedPattern : option string
}.

Record Stats : Type := {
  foldersScanned : Z;
  totalAssets : Z;
  downloadedAssets : Z;
  skippedAssets : Z;
  failedAssets : Z;
  totalSize : Z;
  errors : list (string * string)
}.

Definition emptyStats : Stats := {|
  foldersScanned := 0; totalAssets := 0; downloadedAssets := 0;
  skippedAssets := 0; failedAssets := 0; totalSize := 0; errors := []
|}.

(** What the crawl does to the outside world, in order.  The retries of
    a request and the pauses between them are part of its [EvRequest]. *)
Inductive Event : Type :=
| EvFetchTree (folderPath : Val)   (* scanFolder / searchInFolder starts probing a path *)
| EvRequest (url : string)         (* one makeRequestWithRetry *)
| EvSleep (ms : Z).                (* await sleep(ms) in a traversal loop *)

(** The mutable part of [config], plus the log of events. *)
Record Crawl : Type := {
  processedPaths : list Val;
  discoveredAssets : list (Val * AssetInfo);
  folderQueue : list Val;
  stats : Stats;
  trace : list Event
}.

Definition emptyCrawl : Crawl := {|
  processedPaths := []; discoveredAssets := []; folderQueue := [];
  stats := emptyStats; trace := []
|}.

(** ** Functional updates *)

Definition setStats (s : Stats) (c : Crawl) : Crawl :=
  {| processedPaths := processedPaths c; discoveredAssets := discoveredAssets c;
     folderQueue := folderQueue c; stats := s; trace := trace c |}.

Definition setQueue (q : list Val) (c : Crawl) : Crawl :=
  {| processedPaths := processedPaths c; discoveredAssets := discoveredAssets c;
     folderQueue := q; stats := stats c; trace := trace c |}.

Definition setProcessed (p : list Val) (c : Crawl) : Crawl :=
  {| processedPaths := p; discoveredAssets := discoveredAssets c;
     folderQueue := folderQueue c; stats := stats c; trace := trace c |}.

Definition setDiscovered (d : list (Val * AssetInfo)) (c : Crawl) : Crawl :=
  {| processedPaths := processedPaths c; discoveredAssets := d;
     folderQueue := folderQueue c; stats := stats c; trace := trace c |}.

Definition emit (e : Event) (c : Crawl) : Crawl :=
  {| processedPaths := processedPaths c; discoveredAssets := discoveredAssets c;
     folderQueue := folderQueue c; stats := stats c; trace := trace c ++ [e] |}.

Definition incrFoldersScanned (s : Stats) : Stats :=
  {| foldersScanned := foldersScanned s + 1; totalAssets := totalAssets s;
     downloadedAssets := downloadedAssets s; skippedAssets := skippedAssets s;
     failedAssets := failedAssets s; totalSize := totalSize s; errors := errors s |}.

Definition incrTotalAssets (s : Stats) : Stats :=
  {| foldersScanned := foldersScanned s; totalAssets := totalAssets s + 1;
     downloadedAssets := downloadedAssets s; skippedAssets := skippedAssets s;
     failedAssets := failedAssets s; totalSize := totalSize s; errors := errors s |}.

Definition incrSkipped (s : Stats) : Stats :=
  {| foldersScanned := foldersScanned s; totalAssets := totalAssets s;
     downloadedAssets := downloadedAssets s; skippedAssets := skippedAssets s + 1;
     failedAssets := failedAssets s; totalSize := totalSize s; errors := errors s |}.

(** [downloadedAssets++; totalSize += n] *)
Definition recordDownloaded (n : Z) (s : Stats) : Stats :=
  {| foldersScanned := foldersScanned s; totalAssets := totalAssets s;
     downloadedAssets := downloadedAssets s + 1; skippedAssets := skippedAssets s;
     failedAssets := failedAssets s; totalSize := totalSize s + n; errors := errors s |}.

(** [failedAssets++; errors.push({asset, error})] *)
Definition recordFailed (asset msg : string) (s : Stats) : Stats :=
  {| foldersScanned := foldersScanned s; totalAssets := totalAssets s;
     downloadedAssets := downloadedAssets s; skippedAssets := skippedAssets s;
     failedAssets := failedAssets s + 1; totalSize := totalSize s;
     errors := errors s ++ [(asset, msg)] |}.

(** ** [Set] and [Map] keyed by values *)

(** SameValueZero, the key comparison of [Set] and [Map].  Primitives are
    compared by value.  Objects and arrays are compared by reference: a
    path that is an object comes from a freshly parsed response and is
    enqueued once, so it is never the same reference as a key met before. *)
Definition sameValueZero (a b : Val) : bool :=
  match a, b with
  | Undefined, Undefined => true
  | Null, Null => true
  | Bool x, Bool y => Bool.eqb x y
  | Num x, Num y => x =? y
  | Str x, Str y => (x =? y)%string
  | _, _ => false
  end.

(** [set.has(p)] *)
Definition has (p : Val) (set : list Val) : bool := existsb (sameValueZero p) set.

(** [set.add(p)] *)
Definition add (p : Val) (set : list Val) : list Val :=
  if has p set then set else set ++ [p].

(** [map.set(k, v)]: an existing key keeps its place. *)
Fixpoint mapSet {A : Type} (k : Val) (v : A) (m : list (Val * A)) : list (Val * A) :=
  match m with
  | [] => [(k, v)]
  | (k', v') :: rest =>
      if sameValueZero k' k then (k', v) :: rest else (k', v') :: mapSet k v rest
  end.

(** An own property is made or overwritten; an existing key keeps its
    place. *)
Fixpoint setProp (k : string) (v : Val) (props : list (string * Val)) : list (string * Val) :=
  match props with
  | [] => [(k, v)]
  | (k', v') :: rest =>
      if (k' =? k)%string then (k', v) :: rest else (k', v') :: setProp k v rest
  end.

(** An object made by the literal [{}] while the program fills it: the
    properties it owns, and its prototype once that was replaced ([None]
    while it is [Object.prototype], [Some Null] when it has none). *)
Record Plain : Type := {
  own : list (string * Val);
  proto : option Val
}.

Definition emptyObject : Plain := {| own := []; proto := None |}.

(** Whether an assignment to [__proto__] reaches the accessor of
    [Object.prototype]: the object owns no property of that name, it
    still has a prototype, and that prototype owns none either (an
    object made by [JSON.parse] owns the key as data). *)
Definition protoSetterReached (o : Plain) : bool :=
  negb (hasOwn "__proto__" (own o)) &&
  match proto o with
  | None => true
  | Some (Obj props) => negb (hasOwn "__proto__" props)
  | Some (Arr _) => true
  | Some _ => false
  end.

(** [obj[k] = v].  Every key but [__proto__] makes or overwrites an own
    property.  The setter of [__proto__] replaces the prototype when [v]
    is an object or [null] and does nothing for another value; it makes
    no own property. *)
Definition assign (k : string) (v : Val) (o : Plain) : Plain :=
  if (k =? "__proto__")%string && protoSetterReached o then
    match v with
    | Null | Arr _ | Obj _ => {| own := own o; proto := Some v |}
    | _ => o
    end
  else {| own := setProp k v (own o); proto := proto o |}.

(** [obj[k]] for a key that [Object.prototype] and [Array.prototype] do
    not hold and that is not [length]: an own property, else one the
    replaced prototype owns (of an array, an element). *)
Definition readProp (k : string) (o : Plain) : Val :=
  if hasOwn k (own o) then lookup k (own o)
  else match proto o with
       | Some (Obj props) => lookup k props
       | Some (Arr items) => lookup k (indexed 0 items)
       | _ => Undefined
       end.

(* ================================================================== *)
(** ** Classifier *)
(* ================================================================== *)

(** [isAsset(item, primaryType)] *)
Definition isAsset (item primaryType : Val) : Completion bool :=
  if isString primaryType "dam:Asset" then Normal true
  else if isString primaryType "dam:AssetContent" then Normal true
  else
    c1 <- getProp item "jcr:content" ;;
    r <- (if truthy c1 then getProp c1 "renditions" else Normal c1) ;;
    if truthy r then Normal true
    else
      c2 <- getProp item "jcr:content" ;;
      m <- (if truthy c2 then getProp c2 "metadata" else Normal c2) ;;
      if truthy m then
        c3 <- getProp item "jcr:content" ;;
        metadata <- getProp c3 "metadata" ;;
        s <- getProp metadata "dam:size" ;;
        f <- (if truthy s then Normal s else getProp metadata "dc:format") ;;
        if truthy f then Normal true else Normal false
      else Normal false.

(** [isFolder(primaryType)] *)
Definition isFolder (primaryType : Val) : bool :=
  isString primaryType "sling:Folder" ||
  isString primaryType "sling:OrderedFolder" ||
  isString primaryType "nt:folder" ||
  isString primaryType "cq:Page" ||
  isString primaryType "sling:Folder/nt:folder".

(** [Object.keys(source).forEach(key => { if (keep) allMetadata[key] = source[key] })] *)
Definition mergeProps (source : Val) (keep : string -> Val -> bool)
    (allMetadata : Plain) : Completion Plain :=
  match ownEntries source with
  | None => Thrown "TypeError: Cannot convert undefined or null to object"
  | Some props =>
      Normal (fold_left
                (fun acc key =>
                   let v := lookup key props in
                   if keep key v then assign key v acc else acc)
                (map fst props) allMetadata)
  end.

(** [list.slice(0, n)] *)
Definition slice0 {A : Type} (n : Z) (l : list A) : list A :=
  if n <? 0 then firstn (List.length l - Z.to_nat (- n)) l else firstn (Z.to_nat n) l.

(** [s.slice(1)] *)
Definition slice1 (s : string) : string :=
  match s with
  | EmptyString => EmptyString
  | String _ rest => rest
  end.

(** The [try] block of [extractAssetInfo]. *)
Definition extractAssetInfoBody (assetNode assetPath : Val) : Completion AssetInfo :=
  content <- getProp assetNode "jcr:content" ;;
  let jcrContent := orElse content assetNode in
  m1 <- getProp jcrContent "metadata" ;;
  metadataNode <-
    (if truthy m1 then Normal m1
     else
       inner <- getProp jcrContent "jcr:content" ;;
       m2 <- (match inner with
              | Undefined | Null => Normal Undefined      (* ?. *)
              | _ => getProp inner "metadata"
              end) ;;
       if truthy m2 then Normal m2
       else
         m3 <- getProp assetNode "metadata" ;;
         Normal (orElse m3 (Obj []))) ;;
  all1 <- mergeProps assetNode
            (fun key v => negb (startsWith key "jcr:") && negb (key =? "jcr:content")%string
                          && negb (typeofObject v)) emptyObject ;;
  (* jcrContent && jcrContent !== assetNode: jcrContent is another object
     exactly when the node has a truthy jcr:content *)
  all2 <- (if truthy content then
             mergeProps jcrContent
               (fun key v => negb (startsWith key "jcr:") && negb (key =? "metadata")%string
                             && negb (key =? "renditions")%string && negb (typeofObject v)) all1
           else Normal all1) ;;
  allMetadata <- mergeProps metadataNode (fun _ _ => true) all2 ;;
  r1 <- getProp jcrContent "renditions" ;;
  renditionsNode <-
    (if truthy r1 then Normal r1
     else r2 <- getProp assetNode "renditions" ;; Normal (orElse r2 (Obj []))) ;;
  fileName <- Path.basename assetPath ;;
  let ext := slice1 (toLowerCase (Path.extname fileName)) in
  let extension' := if (ext =? "")%string then "unknown" else ext in
  (* path.basename accepted assetPath: it is a string *)
  assetPathStr <- toString assetPath ;;
  let downloadPath := if startsWith assetPathStr "/" then assetPathStr
                      else "/" ++ assetPathStr in
  contentSize <- getProp jcrContent "dam:size" ;;
  size' <- parseIntOr (readProp "dam:size" allMetadata)
             (parseIntOr contentSize
                (parseIntOr (readProp "dam:Filedata.sizeOnDisk" allMetadata) (Normal 0))) ;;
  renditionKeys <- objectKeys renditionsNode ;;
  Normal {|
    path := downloadPath;
    name := fileName;
    extension := extension';
    size := size';
    title := orElse (orElse (readProp "dc:title" allMetadata) (readProp "jcr:title" allMetadata))
               (Str fileName);
    description := orElse (readProp "dc:description" allMetadata)
                     (readProp "jcr:description" allMetadata);
    keywords := orElse (readProp "dc:subject" allMetadata) (readProp "pdf:Keywords" allMetadata);
    renditions := filter (fun r => negb (includes r "jcr:") && negb (includes r "cq5dam.thumbnail"))
                    renditionKeys;
    metadata := own allMetadata;
    matchReason := None;
    matchedPattern := None
  |}.

(** [extractAssetInfo(assetNode, assetPath)]: [None] is the [null] the
    [catch] block returns.  Before it returns, the block logs
    [`... ${assetPath}: ${error.message}`]: the path is converted to a
    string there, outside any [try]. *)
Definition extractAssetInfo (assetNode assetPath : Val) : Completion (option AssetInfo) :=
  match extractAssetInfoBody assetNode assetPath with
  | Normal info => Normal (Some info)
  | Thrown _ => _ <- toString assetPath ;; Normal None
  end.

(** [createAssetInfoFromPath(assetPath)] *)
Definition createAssetInfoFromPath (assetPath : string) : AssetInfo :=
  let fileName := Path.basenameStr assetPath in
  let ext := slice1 (toLowerCase (Path.extname fileName)) in
  {| path := assetPath; name := fileName;
     extension := if (ext =? "")%string then "unknown" else ext;
     size := 0; title := Undefined; description := Undefined; keywords := Undefined;
     renditions := []; metadata := []; matchReason := None; matchedPattern := None |}.

(** [isValidAsset(assetInfo)] *)
Definition isValidAsset (cfg : Config) (assetInfo : AssetInfo) : bool :=
  if (0 <? minFileSize cfg) && (size assetInfo <? minFileSize cfg) then false
  else if (0 <? maxFileSize cfg) && (maxFileSize cfg <? size assetInfo) then false
  else if negb (Nat.eqb (List.length (fileTypes cfg)) 0)
          && negb (existsb (String.eqb (extension assetInfo)) (fileTypes cfg)) then false
  else
    let lowerName := toLowerCase (name assetInfo) in
    if existsb (fun pattern => includes lowerName pattern) (skipPatterns cfg) then false
    else true.

(* ================================================================== *)
(** ** Tree fetching and traversal *)
(* ================================================================== *)

(** What [await makeRequestWithRetry(url)] gives after its retries: the
    promise is rejected, or resolved with the parsed body (the raw text,
    a [Str], when the body is not JSON). *)
Inductive Response : Type :=
| Rejected (e : string)
| Resolved (data : Val).

(** How a statement of a loop body ends. *)
Inductive Flow : Type :=
| Continue              (* on to the next key *)
| Return                (* [return] out of the enclosing function *)
| Raise (e : string).   (* an exception leaves the function *)

(** How a fuel-bounded [while] loop ends. *)
Inductive Run : Type :=
| Finished              (* the loop was left *)
| Raised (e : string)   (* an exception left it *)
| OutOfFuel.            (* still running when the fuel ran out *)

(** System keys, skipped by every walk over a listing. *)
Definition isSystemKey (key : string) : bool :=
  startsWith key "jcr:" || startsWith key ":" ||
  (key =? "rep:policy")%string || (key =? "cq:conf")%string.

(** [Object.keys(data).filter(k => !k.startsWith('jcr:') && !k.startsWith(':')).length] *)
Definition itemCount (data : Val) : Z :=
  match ownEntries data with
  | Some props =>
      Z.of_nat (List.length
                  (filter (fun k => negb (startsWith k "jcr:") && negb (startsWith k ":"))
                     (map fst props)))
  | None => 0
  end.

(** [data && typeof data === 'object'] *)
Definition isStructured (data : Val) : bool := truthy data && typeofObject data.

(** [`${config.baseUrl}${folderPath}${jsonDepth}`] *)
Definition probeUrl (cfg : Config) (folderPath : Val) (jsonDepth : string) : Completion string :=
  p <- toString folderPath ;;
  Normal (baseUrl cfg ++ p ++ jsonDepth).

(** The first two statements of the [try] block of a probing loop: the
    URL is built and requested.  What raises there, the conversion of
    the path or the rejection of the request, reaches the same [catch]. *)
Definition probe (cfg : Config) (makeRequestWithRetry : string -> Response)
    (folderPath : Val) (jsonDepth : string) : Response :=
  match probeUrl cfg folderPath jsonDepth with
  | Normal url => makeRequestWithRetry url
  | Thrown e => Rejected e
  end.

Section Traversal.

Variable cfg : Config.
Variable makeRequestWithRetry : string -> Response.

(** The probing loop of [scanFolder]: the state is
    [(bestData, bestDepth, maxItems)]; the second component lists the
    depth hints that were probed. *)
Fixpoint probeDepths (folderPath : Val) (jsonDepths : list string)
    (best : option Val * option string * Z) : (option Val * option string * Z) * list string :=
  match jsonDepths with
  | [] => (best, [])
  | jsonDepth :: rest =>
      let '(bestData, bestDepth, maxItems) := best in
      let next :=
        match probe cfg makeRequestWithRetry folderPath jsonDepth with
        | Resolved data =>
            if isStructured data then
              let n := itemCount data in
              if maxItems <? n then
                if 50 <? n then inl (Some data, Some jsonDepth, n)      (* break *)
                else inr (Some data, Some jsonDepth, n)
              else inr best
            else inr best
        | Rejected _ => inr best                                        (* catch: next depth *)
        end in
      match next with
      | inl final => (final, [jsonDepth])
      | inr best' =>
          let '(final, asked) := probeDepths folderPath rest best' in
          (final, jsonDepth :: asked)
      end
  end.

Definition scanDepths : list string :=
  if smartDepthDetection cfg
  then [".1.json"; ".json"; ".2.json"; ".3.json"; ".4.json"; ".5.json"]
  else [".1.json"; ".json"].

(** The probing loop of [searchInFolder] and [searchInFolderMultiple]:
    the first structured response is used. *)
Fixpoint probeFirst (folderPath : Val) (jsonDepths : list string) : option Val * list string :=
  match jsonDepths with
  | [] => (None, [])
  | jsonDepth :: rest =>
      match probe cfg makeRequestWithRetry folderPath jsonDepth with
      | Resolved data =>
          if isStructured data then (Some data, [jsonDepth])               (* break *)
          else let '(r, asked) := probeFirst folderPath rest in (r, jsonDepth :: asked)
      | Rejected _ =>
          let '(r, asked) := probeFirst folderPath rest in (r, jsonDepth :: asked)
      end
  end.

Definition searchDepths : list string := [".1.json"; ".json"; ".2.json"; ".3.json"].

(** The requests of the probes of [asked]: one for each URL that was
    built. *)
Definition emitRequests (folderPath : Val) (asked : list string) (c : Crawl) : Crawl :=
  fold_left (fun c jsonDepth =>
               match probeUrl cfg folderPath jsonDepth with
               | Normal url => emit (EvRequest url) c
               | Thrown _ => c
               end)
    asked c.

(** [config.testMode && config.stats.totalAssets >= config.testLimit] *)
Definition testLimitReached (c : Crawl) : bool :=
  testMode cfg && (testLimit cfg <=? totalAssets (stats c)).

(** [item['jcr:path'] || `${basePath}/${key}`] *)
Definition itemPathOf (item basePath : Val) (key : string) : Completion Val :=
  p <- getProp item "jcr:path" ;;
  if truthy p then Normal p
  else b <- toString basePath ;; Normal (Str (b ++ "/" ++ key)).

(** One turn of the [for (const key in data)] loop of [processDAMData];
    [recurse] is [processDAMData item]. *)
Definition processEntry (recurse : Val -> Z -> Crawl -> Completion unit * Crawl)
    (basePath : Val) (currentDepth : Z) (key : string) (item : Val) (c : Crawl) : Flow * Crawl :=
  if isSystemKey key then (Continue, c)
  else if negb (truthy item) || negb (typeofObject item) then (Continue, c)
  else
    match (itemPath <- itemPathOf item basePath key ;;
           primaryType <- getProp item "jcr:primaryType" ;;
           asset <- isAsset item primaryType ;;
           extracted <- (if asset then extractAssetInfo item itemPath else Normal None) ;;
           Normal (itemPath, primaryType, extracted)) with
    | Thrown e => (Raise e, c)
    | Normal (itemPath, primaryType, extracted) =>
        let '(returned, c1) :=
          match extracted with
          | Some assetInfo =>
              if isValidAsset cfg assetInfo then
                let c' := setStats (incrTotalAssets (stats c))
                            (setDiscovered (mapSet itemPath assetInfo (discoveredAssets c)) c) in
                (testLimitReached c', c')
              else (false, c)
          | None => (false, c)
          end in
        if returned then (Return, c1)
        else if isFolder primaryType then
          let c2 :=
            if negb (has itemPath (processedPaths c1)) && (currentDepth <? maxDepth cfg) then
              if negb (testMode cfg) || (totalAssets (stats c1) <? testLimit cfg)
              then setQueue (folderQueue c1 ++ [itemPath]) c1
              else c1
            else c1 in
          if (currentDepth <? 2)
             && (negb (testMode cfg) || (totalAssets (stats c2) <? testLimit cfg)) then
            match recurse itemPath (currentDepth + 1) c2 with
            | (Thrown e, c3) => (Raise e, c3)
            | (Normal _, c3) => (Continue, c3)
            end
          else (Continue, c2)
        else (Continue, c1)
    end.

(** [processDAMData(data, basePath, currentDepth)].  An array is walked
    by its indices, as [for .. in] does. *)
Fixpoint processDAMData (data : Val) (basePath : Val) (currentDepth : Z) (c : Crawl)
    {struct data} : Completion unit * Crawl :=
  match data with
  | Obj props =>
      (fix walk (props : list (string * Val)) (c : Crawl) : Completion unit * Crawl :=
         match props with
         | [] => (Normal tt, c)
         | (key, item) :: rest =>
             match processEntry (processDAMData item) basePath currentDepth key item c with
             | (Continue, c') => walk rest c'
             | (Return, c') => (Normal tt, c')
             | (Raise e, c') => (Thrown e, c')
             end
         end) props c
  | Arr items =>
      (fix walk (i : nat) (items : list Val) (c : Crawl) : Completion unit * Crawl :=
         match items with
         | [] => (Normal tt, c)
         | item :: rest =>
             match processEntry (processDAMData item) basePath currentDepth (indexKey i) item c with
             | (Continue, c') => walk (S i) rest c'
             | (Return, c') => (Normal tt, c')
             | (Raise e, c') => (Thrown e, c')
             end
         end) 0%nat items c
  | _ => (Normal tt, c)
  end.

(** [scanFolder(folderPath, depth)] *)
Definition scanFolder (folderPath : Val) (depth : Z) (c : Crawl) : Completion unit * Crawl :=
  if maxDepth cfg <? depth then (Normal tt, c)
  else
    let c := emit (EvFetchTree folderPath) (setStats (incrFoldersScanned (stats c)) c) in
    let '((bestData, _, _), asked) :=
      probeDepths folderPath scanDepths (None, None, 0) in
    let c := emitRequests folderPath asked c in
    match bestData with
    | None => (Normal tt, c)
    | Some data => processDAMData data folderPath depth c
    end.

(** [config.adaptiveDelay && config.stats.foldersScanned % 10 === 0] *)
Definition discoveryDelayDue (c : Crawl) : bool :=
  adaptiveDelay cfg && (Z.rem (foldersScanned (stats c)) 10 =? 0).

(** The [while] loop of [discoverAllAssets]. *)
Fixpoint discoverLoop (fuel : nat) (c : Crawl) : Run * Crawl :=
  match fuel with
  | O => (OutOfFuel, c)
  | S fuel' =>
      match folderQueue c with
      | [] => (Finished, c)
      | currentPath :: rest =>
          let c := setQueue rest c in                                   (* shift() *)
          if has currentPath (processedPaths c) then discoverLoop fuel' c
          else
            let c := setProcessed (add currentPath (processedPaths c)) c in
            match scanFolder currentPath 0 c with
            | (Thrown e, c') => (Raised e, c')
            | (Normal _, c') =>
                if testLimitReached c' then (Finished, c')               (* break *)
                else
                  let c'' := if discoveryDelayDue c' then emit (EvSleep (sleepTime cfg)) c'
                             else c' in
                  discoverLoop fuel' c''
            end
      end
  end.

(** [discoverAllAssets()]: the assets returned, when the loop ends. *)
Definition discoverAllAssets (fuel : nat) (c : Crawl) : Run * list AssetInfo * Crawl :=
  let c := setQueue (folderQueue c ++ [Str "/content/dam"]) c in
  let '(r, c') := discoverLoop fuel c in
  let allAssets := map snd (discoveredAssets c') in
  (r, if testMode cfg then slice0 (testLimit cfg) allAssets else allAssets, c').

End Traversal.

(* ================================================================== *)
(** ** Matcher *)
(* ================================================================== *)

(** [checkPatternMatch(assetInfo, pattern)]: the reason of the first
    check that contains the pattern, [None] for [null]. *)
Definition checkPatternMatch (assetInfo : AssetInfo) (pattern : string)
    : Completion (option string) :=
  titleCheck <- (if truthy (title assetInfo)
                 then v <- callToLowerCase (title assetInfo) ;; Normal [(v, "Title match")]
                 else Normal []) ;;
  descriptionCheck <- (if truthy (description assetInfo)
                       then v <- callToLowerCase (description assetInfo) ;;
                            Normal [(v, "Description match")]
                       else Normal []) ;;
  keywordsCheck <- (if truthy (keywords assetInfo)
                    then v <- toString (keywords assetInfo) ;;
                         Normal [(toLowerCase v, "Keywords match")]
                    else Normal []) ;;
  let checks :=
    ([ (toLowerCase (path assetInfo), "Full path match");
       (toLowerCase (name assetInfo), "Filename match");
       (toLowerCase (Path.basenameWithoutExt (path assetInfo)),
        "Filename without extension match") ]
     ++ titleCheck ++ descriptionCheck ++ keywordsCheck)%list in
  match find (fun check => includes (fst check) pattern) checks with
  | Some check => Normal (Some (snd check))
  | None =>
      let pathSegments := split "/"%char (toLowerCase (path assetInfo)) in
      if existsb (fun segment => includes segment pattern) pathSegments
      then Normal (Some "Path segment match")
      else Normal None
  end.

Definition annotate (reason : string) (pattern : option string) (a : AssetInfo) : AssetInfo :=
  {| path := path a; name := name a; extension := extension a; size := size a;
     title := title a; description := description a; keywords := keywords a;
     renditions := renditions a; metadata := metadata a;
     matchReason := Some reason;
     matchedPattern := match pattern with Some p => Some p | None => matchedPattern a end |}.

(** The matching block of [searchInDAMData]: one pattern. *)
Definition matchSingle (pattern : string) (assetInfo : AssetInfo)
    : Completion (list string * option AssetInfo) :=
  r <- checkPatternMatch assetInfo pattern ;;
  match r with
  | Some reason => Normal ([pattern], Some (annotate reason None assetInfo))
  | None => Normal ([pattern], None)
  end.

(** The matching block of [searchInDAMDataMultiple]:
    [for (const pattern of patterns) { ...; break }].  The first component
    lists the patterns that were tested. *)
Fixpoint matchPatterns (patterns : list string) (assetInfo : AssetInfo)
    : Completion (list string * option AssetInfo) :=
  match patterns with
  | [] => Normal ([], None)
  | pattern :: rest =>
      r <- checkPatternMatch assetInfo pattern ;;
      match r with
      | Some reason => Normal ([pattern], Some (annotate reason (Some pattern) assetInfo))
      | None =>
          more <- matchPatterns rest assetInfo ;;
          Normal (pattern :: fst more, snd more)
      end
  end.

Section Search.

Variable cfg : Config.
Variable makeRequestWithRetry : string -> Response.

(** The matching block: [matchSingle pattern] in [searchInDAMData],
    [matchPatterns patterns] in [searchInDAMDataMultiple]; the two
    functions are the same text otherwise. *)
Variable matcher : AssetInfo -> Completion (list string * option AssetInfo).

(** One turn of the [for (const key in data)] loop of [searchInDAMData] /
    [searchInDAMDataMultiple]; [recurse] is the function itself at [item]. *)
Definition searchEntry (recurse : Val -> Crawl -> Completion (list AssetInfo) * Crawl)
    (basePath : Val) (key : string) (item : Val) (matches : list AssetInfo) (c : Crawl)
    : Completion (list AssetInfo) * Crawl :=
  if isSystemKey key then (Normal matches, c)
  else if negb (truthy item) || negb (typeofObject item) then (Normal matches, c)
  else
    match (itemPath <- itemPathOf item basePath key ;;
           primaryType <- getProp item "jcr:primaryType" ;;
           asset <- isAsset item primaryType ;;
           found <- (if asset then
                       extracted <- extractAssetInfo item itemPath ;;
                       match extracted with
                       | Some assetInfo => m <- matcher assetInfo ;; Normal (snd m)
                       | None => Normal None
                       end
                     else Normal None) ;;
           Normal (itemPath, primaryType, found)) with
    | Thrown e => (Thrown e, c)
    | Normal (itemPath, primaryType, found) =>
        let matches1 := match found with
                        | Some assetInfo => (matches ++ [assetInfo])%list
                        | None => matches
                        end in
        if isFolder primaryType then
          let c1 := if negb (has itemPath (processedPaths c))
                    then setQueue (folderQueue c ++ [itemPath]) c else c in
          match recurse itemPath c1 with
          | (Thrown e, c2) => (Thrown e, c2)
          | (Normal nestedMatches, c2) => (Normal (matches1 ++ nestedMatches)%list, c2)
          end
        else (Normal matches1, c)
    end.

(** [searchInDAMData(data, basePath, pattern)] and
    [searchInDAMDataMultiple(data, basePath, patterns)]. *)
Fixpoint searchData (data : Val) (basePath : Val) (c : Crawl) {struct data}
    : Completion (list AssetInfo) * Crawl :=
  match data with
  | Obj props =>
      (fix walk (props : list (string * Val)) (matches : list AssetInfo) (c : Crawl)
         : Completion (list AssetInfo) * Crawl :=
         match props with
         | [] => (Normal matches, c)
         | (key, item) :: rest =>
             match searchEntry (searchData item) basePath key item matches c with
             | (Normal matches', c') => walk rest matches' c'
             | (Thrown e, c') => (Thrown e, c')
             end
         end) props [] c
  | Arr items =>
      (fix walk (i : nat) (items : list Val) (matches : list AssetInfo) (c : Crawl)
         : Completion (list AssetInfo) * Crawl :=
         match items with
         | [] => (Normal matches, c)
         | item :: rest =>
             match searchEntry (searchData item) basePath (indexKey i) item matches c with
             | (Normal matches', c') => walk (S i) rest matches' c'
             | (Thrown e, c') => (Thrown e, c')
             end
         end) 0%nat items [] c
  | _ => (Normal [], c)
  end.

(** [searchInFolder(folderPath, pattern)] and
    [searchInFolderMultiple(folderPath, patterns)] *)
Definition searchFolder (folderPath : Val) (c : Crawl) : Completion (list AssetInfo) * Crawl :=
  let c := emit (EvFetchTree folderPath) (setStats (incrFoldersScanned (stats c)) c) in
  let '(bestData, asked) := probeFirst cfg makeRequestWithRetry folderPath searchDepths in
  let c := emitRequests cfg folderPath asked c in
  match bestData with
  | None => (Normal [], c)
  | Some data => searchData data folderPath c
  end.

(** [matches.forEach(match => { if (!searchResults.has(match.path)) {...} })]:
    [foundAssets] and the keys of [searchResults] grow together. *)
Definition collectMatches (matches foundAssets : list AssetInfo) : list AssetInfo :=
  fold_left (fun found m =>
               if existsb (fun a => (path a =? path m)%string) found then found
               else (found ++ [m])%list)
    matches foundAssets.

(** [config.stats.foldersScanned % 5 === 0] *)
Definition searchDelayDue (c : Crawl) : bool :=
  Z.rem (foldersScanned (stats c)) 5 =? 0.

(** The [while] loop of [findAssets] and [findMultipleAssets]. *)
Fixpoint findLoop (fuel : nat) (foundAssets : list AssetInfo) (c : Crawl)
    : Run * list AssetInfo * Crawl :=
  match fuel with
  | O => (OutOfFuel, foundAssets, c)
  | S fuel' =>
      match folderQueue c with
      | [] => (Finished, foundAssets, c)
      | currentPath :: rest =>
          let c := setQueue rest c in
          if has currentPath (processedPaths c) then findLoop fuel' foundAssets c
          else
            let c := setProcessed (add currentPath (processedPaths c)) c in
            match searchFolder currentPath c with
            | (Thrown e, c') => (Raised e, foundAssets, c')
            | (Normal matches, c') =>
                let foundAssets' := collectMatches matches foundAssets in
                let c'' := if searchDelayDue c' then emit (EvSleep (sleepTime cfg)) c' else c' in
                findLoop fuel' foundAssets' c''
            end
      end
  end.

Definition findWith (fuel : nat) (c : Crawl) : Run * list AssetInfo * Crawl :=
  findLoop fuel [] (setQueue (folderQueue c ++ [Str "/content/dam"]) c).

End Search.

(** [findAssets(pattern)] *)
Definition findAssets (cfg : Config) (net : string -> Response) (pattern : string)
    (fuel : nat) (c : Crawl) : Run * list AssetInfo * Crawl :=
  findWith cfg net (matchSingle (toLowerCase pattern)) fuel c.

(** [findMultipleAssets(patterns)] *)
Definition findMultipleAssets (cfg : Config) (net : string -> Response) (patterns : list string)
    (fuel : nat) (c : Crawl) : Run * list AssetInfo * Crawl :=
  findWith cfg net (matchPatterns (map toLowerCase patterns)) fuel c.

(* ================================================================== *)
(** ** Download engine *)
(* ================================================================== *)

(** What one pass of the candidate loop of [downloadAsset] meets for a
    URL.  [fs.createWriteStream] opens the target with flag [w]: the file
    is created or truncated as soon as a response is piped into it. *)
Inductive Attempt : Type :=
| RequestFails (e : string)                (* makeRequestWithRetry rejects; nothing is opened *)
| StreamFails (written : N) (e : string)   (* the target is truncated, [written] bytes reach
                                              it, then the response or the writer errors *)
| StreamEnds (written : N).                (* the writer finishes with [written] bytes *)

(** The file system as one call of [downloadAsset] meets it. *)
Record Disk : Type := {
  mkdirError : option string;          (* ensureDirectory(outputDir) raises *)
  existing : option N;                 (* size of the target, when it exists on entry *)
  metadataWriteError : option string   (* fs.writeFileSync(metadataPath, ..) raises *)
}.

(** What a call of [downloadAsset] leaves behind. *)
Record Download : Type := {
  returned : bool;             (* the value the promise resolves to *)
  statsAfter : Stats;
  fileAfter : option N;        (* the target file: absent, or its size *)
  requested : list string;     (* URLs handed to makeRequestWithRetry, in order *)
  metadataSaved : bool
}.

(** The target file when an attempt has stopped writing. *)
Definition afterWrite (file : option N) (a : Attempt) : option N :=
  match a with
  | RequestFails _ => file
  | StreamFails n _ => Some n
  | StreamEnds n => Some n
  end.

(** [if (fs.existsSync(outputPath) && fs.statSync(outputPath).size === 0)
       fs.unlinkSync(outputPath)] *)
Definition unlinkIfEmpty (file : option N) : option N :=
  match file with
  | Some 0%N => None
  | _ => file
  end.

(** The resume test, for a target that exists with [existingSize] bytes:
    the two [if]s of the block "Check if already exists". *)
Definition resumeSkip (assetInfo : AssetInfo) (existingSize : N) : bool :=
  if (0 <? size assetInfo) && (Z.abs (Z.of_N existingSize - size assetInfo) <? 1000) then true
  else if 100 <? Z.of_N existingSize then true
  else false.

Section Retrieval.

Variable cfg : Config.
Variable fetch : string -> Attempt.

Definition urlPatterns (assetInfo : AssetInfo) : list string :=
  [ baseUrl cfg ++ path assetInfo;
    baseUrl cfg ++ path assetInfo ++ "/jcr:content/renditions/original";
    baseUrl cfg ++ path assetInfo ++ "/_jcr_content/renditions/original";
    baseUrl cfg ++ "/content/dam" ++ path assetInfo;
    baseUrl cfg ++ path assetInfo ++ "?dl=true" ].

(** [for (const url of urlPatterns) { try {...} catch (error) {...} }].
    Result: the size and URL of the download that succeeded if one did,
    the target file, [lastError], and the URLs requested. *)
Fixpoint tryUrls (urls : list string) (file : option N) (lastError : option string)
    : option (N * string) * option N * option string * list string :=
  match urls with
  | [] => (None, file, lastError, [])
  | url :: rest =>
      let attempt := fetch url in
      let written := afterWrite file attempt in
      match attempt with
      | StreamEnds n =>
          if (0 <? n)%N then (Some (n, url), written, lastError, [url])     (* break *)
          else
            let '(r, f, e, asked) := tryUrls rest written lastError in
            (r, f, e, url :: asked)
      | RequestFails error | StreamFails _ error =>                         (* catch *)
          let '(r, f, e, asked) := tryUrls rest (unlinkIfEmpty written) (Some error) in
          (r, f, e, url :: asked)
      end
  end.

(** [downloadAsset(assetInfo)].  The target is the file at [outputPath]
    ([config.outputDir] joined with the asset path less its
    [/content/dam] part); [disk] says what is there on entry.  The three
    [catch]-bound outcomes are the creation of the directory, the
    candidate loop and the metadata file. *)
Definition downloadAsset (disk : Disk) (assetInfo : AssetInfo) (s : Stats) : Download :=
  match mkdirError disk with
  | Some e =>
      {| returned := false; statsAfter := recordFailed (path assetInfo) e s;
         fileAfter := existing disk; requested := []; metadataSaved := false |}
  | None =>
      if match existing disk with
         | Some existingSize => resumeSkip assetInfo existingSize
         | None => false
         end
      then
        {| returned := true; statsAfter := incrSkipped s;
           fileAfter := existing disk; requested := []; metadataSaved := false |}
      else
        let '(done, file, lastError, asked) :=
          tryUrls (urlPatterns assetInfo) (existing disk) None in
        match done with
        | None =>
            let message := match lastError with
                           | Some e => e
                           | None => "All download attempts failed"
                           end in
            {| returned := false; statsAfter := recordFailed (path assetInfo) message s;
               fileAfter := file; requested := asked; metadataSaved := false |}
        | Some (downloadedSize, usedUrl) =>
            let s1 := recordDownloaded (Z.of_N downloadedSize) s in
            if downloadMetadata cfg then
              match metadataWriteError disk with
              | Some e =>
                  {| returned := false; statsAfter := recordFailed (path assetInfo) e s1;
                     fileAfter := file; requested := asked; metadataSaved := false |}
              | None =>
                  {| returned := true; statsAfter := s1;
                     fileAfter := file; requested := asked; metadataSaved := true |}
              end
            else
              {| returned := true; statsAfter := s1;
                 fileAfter := file; requested := asked; metadataSaved := false |}
        end
  end.

End Retrieval.

(** ** The download driver

    [downloadAllAssets] runs until it awaits; the callbacks of finished
    downloads and the timer run only while it is suspended.  The driver
    is a transition system over its program points.  [downloadAsset]
    catches what it raises, so every promise in [inProgress] is fulfilled
    in the end and its [then] callback, which removes it, runs; until
    then the promise is unsettled. *)

Inductive DriverPC : Type :=
| OuterTest                        (* while (queue.length > 0 || inProgress.length > 0) *)
| InnerTest                        (* while (inProgress.length < maxConcurrent && queue.length > 0) *)
| RaceTest                         (* if (inProgress.length > 0) *)
| AwaitingRace (settled : bool)    (* await Promise.race(inProgress); [settled]: one of them is *)
| SleepTest                        (* if (queue.length > 0 && inProgress.length === maxConcurrent) *)
| Sleeping                         (* await sleep(config.sleepTime) *)
| Exited.

Record Pool : Type := {
  queue : list AssetInfo;
  inProgress : list nat;           (* the promises, by launch number *)
  nextPromise : nat;
  pc : DriverPC
}.

Inductive Tick : Type :=
| RunDriver                        (* the driver runs to its next program point *)
| Settle (promise : nat)           (* a download ends: its [then] callback runs *)
| TimerFires.                      (* the timer of [sleep] fires *)

(** [inProgress.indexOf(promise)] / [splice(index, 1)] *)
Fixpoint removeFirst (x : nat) (l : list nat) : list nat :=
  match l with
  | [] => []
  | y :: rest => if Nat.eqb x y then rest else y :: removeFirst x rest
  end.

Definition setPc (pc' : DriverPC) (p : Pool) : Pool :=
  {| queue := queue p; inProgress := inProgress p; nextPromise := nextPromise p; pc := pc' |}.

Definition isEmpty {A : Type} (l : list A) : bool :=
  match l with [] => true | _ => false end.

Section Driver.

Variable cfg : Config.

(** The pool when [downloadAllAssets(assets)] starts. *)
Definition startPool (assets : list AssetInfo) : Pool :=
  if isEmpty assets then
    {| queue := []; inProgress := []; nextPromise := 0; pc := Exited |}
  else
    {| queue := if testMode cfg then slice0 (testLimit cfg) assets else assets;
       inProgress := []; nextPromise := 0; pc := OuterTest |}.

(** One tick; [None] when the tick cannot happen in this state. *)
Definition poolStep (t : Tick) (p : Pool) : option Pool :=
  match t, pc p with
  | RunDriver, OuterTest =>
      if negb (isEmpty (queue p)) || negb (isEmpty (inProgress p))
      then Some (setPc InnerTest p) else Some (setPc Exited p)
  | RunDriver, InnerTest =>
      match queue p with
      | asset :: rest =>
          if (List.length (inProgress p) <? maxConcurrent cfg)%nat then
            Some {| queue := rest;                                    (* queue.shift() *)
                    inProgress := inProgress p ++ [nextPromise p];    (* downloadAsset(asset) *)
                    nextPromise := S (nextPromise p);
                    pc := InnerTest |}
          else Some (setPc RaceTest p)
      | [] => Some (setPc RaceTest p)
      end
  | RunDriver, RaceTest =>
      if negb (isEmpty (inProgress p)) then Some (setPc (AwaitingRace false) p)
      else Some (setPc SleepTest p)
  | RunDriver, AwaitingRace true => Some (setPc SleepTest p)
  | RunDriver, SleepTest =>
      if negb (isEmpty (queue p)) && (List.length (inProgress p) =? maxConcurrent cfg)%nat
      then Some (setPc Sleeping p) else Some (setPc OuterTest p)
  | TimerFires, Sleeping => Some (setPc OuterTest p)
  | Settle promise, AwaitingRace _ =>
      if existsb (Nat.eqb promise) (inProgress p) then
        Some {| queue := queue p; inProgress := removeFirst promise (inProgress p);
                nextPromise := nextPromise p; pc := AwaitingRace true |}
      else None
  | Settle promise, Sleeping =>
      if existsb (Nat.eqb promise) (inProgress p) then
        Some {| queue := queue p; inProgress := removeFirst promise (inProgress p);
                nextPromise := nextPromise p; pc := Sleeping |}
      else None
  | _, _ => None
  end.

Fixpoint poolRun (ticks : list Tick) (p : Pool) : option Pool :=
  match ticks with
  | [] => Some p
  | t :: rest =>
      match poolStep t p with
      | Some p' => poolRun rest p'
      | None => None
      end
  end.

End Driver.

(* ================================================================== *)
(** ** Vocabulary of the properties *)
(* ================================================================== *)

(** [c'] differs from [c] by the queue, the discovered assets and the
    asset counter at most. *)
Definition quiet (c c' : Crawl) : Prop :=
  processedPaths c' = processedPaths c /\ trace c' = trace c /\
  foldersScanned (stats c') = foldersScanned (stats c).

(** A search walk that is [quiet] and returns records with property [Q] only. *)
Definition searchOk (Q : AssetInfo -> Prop) (r : Completion (list AssetInfo) * Crawl)
    (c : Crawl) : Prop :=
  quiet c (snd r) /\ forall ms, fst r = Normal ms -> Forall Q ms.

(** What the probing loop of [scanFolder] guarantees, from any state. *)
Definition probeSpec (cfg : Config) (net : string -> Response) (folderPath : Val)
    (jsonDepths : list string) (start final : option Val * option string * Z)
    (asked : list string) : Prop :=
  let '(bestData, bestDepth, maxItems) := start in
  let '(bestData', bestDepth', maxItems') := final in
  (exists rest, jsonDepths = (asked ++ rest)%list /\
     (rest <> [] -> 50 < maxItems' /\
                    exists before h, asked = (before ++ [h])%list /\ bestDepth' = Some h)) /\
  maxItems <= maxItems' /\
  (forall h d, In h asked -> probe cfg net folderPath h = Resolved d ->
               isStructured d = true -> itemCount d <= maxItems') /\
  (final = start \/
   exists h d, In h asked /\ probe cfg net folderPath h = Resolved d /\
               isStructured d = true /\
               bestData' = Some d /\ bestDepth' = Some h /\ maxItems' = itemCount d /\
               maxItems < maxItems').

(** The requests of the hints probed: one for each URL that was built. *)
Definition requestEvents (cfg : Config) (folderPath : Val) (asked : list string) : list Event :=
  flat_map (fun h => match probeUrl cfg folderPath h with
                     | Normal url => [EvRequest url]
                     | Thrown _ => []
                     end) asked.

(** The events of one fetch: the folder, then the requests. *)
Definition fetchEvents (cfg : Config) (folderPath : Val) (asked : list string) : list Event :=
  EvFetchTree folderPath :: requestEvents cfg folderPath asked.

(** Number of fetches of the folder [p] in a run of events. *)
Definition countFetch (p : Val) (t : list Event) : nat :=
  List.length (filter (fun e => match e with
                                | EvFetchTree q => sameValueZero q p
                                | _ => false
                                end) t).

Definition countSleeps (t : list Event) : nat :=
  List.length (filter (fun e => match e with EvSleep _ => true | _ => false end) t).

(** What a traversal loop guarantees about the fetches it adds to the
    trace: at most one per path, none for a path processed before, and
    every fetched path is in the processed set. *)
Definition fetchedOnce (c c' : Crawl) : Prop :=
  exists new,
    trace c' = (trace c ++ new)%list /\
    (forall p, has p (processedPaths c) = true -> has p (processedPaths c') = true) /\
    forall p,
      (countFetch p new <= 1)%nat /\
      (has p (processedPaths c) = true -> countFetch p new = 0%nat) /\
      ((1 <= countFetch p new)%nat -> has p (processedPaths c') = true).


(** An attempt that does not end the candidate loop. *)
Definition unsuccessful (a : Attempt) : Prop :=
  match a with
  | StreamEnds n => n = 0%N
  | _ => True
  end.

(** The error an attempt raises, if it raises. *)
Definition attemptError (a : Attempt) : option string :=
  match a with
  | RequestFails e | StreamFails _ e => Some e
  | StreamEnds _ => None
  end.

(** The last error met over [urls], [start] when none is. *)
Definition lastErrorOf (fetch : string -> Attempt) (urls : list string)
    (start : option string) : option string :=
  fold_left (fun acc u => match attemptError (fetch u) with
                          | Some e => Some e
                          | None => acc
                          end) urls start.

(** What holds of the pool at each program point of the driver. *)
Definition poolInv (cfg : Config) (p : Pool) : Prop :=
  (List.length (inProgress p) <= maxConcurrent cfg)%nat /\
  match pc p with
  | OuterTest | InnerTest => True
  | RaceTest | AwaitingRace false =>
      queue p = [] \/ List.length (inProgress p) = maxConcurrent cfg
  | AwaitingRace true => (List.length (inProgress p) < maxConcurrent cfg)%nat
  | SleepTest => (List.length (inProgress p) < maxConcurrent cfg)%nat \/ inProgress p = []
  | Sleeping => inProgress p = [] /\ maxConcurrent cfg = 0%nat
  | Exited => queue p = [] /\ inProgress p = []
  end.

(* ================================================================== *)
(** ** Concrete nodes, servers and disks *)
(* ================================================================== *)

(** A listing with one folder-typed node that carries renditions. *)
Definition folderWithRenditions : Val :=
  Obj [("pic.png",
        Obj [("jcr:primaryType", Str "sling:Folder");
             ("jcr:content", Obj [("renditions", Obj [("original", Obj [])])])])].

(** Two listings of one folder: one child at depth 1, three at the default depth. *)
Definition shallowListing : Val := Obj [("a.png", Obj [])].
Definition fullListing : Val := Obj [("a.png", Obj []); ("b.png", Obj []); ("c.png", Obj [])].

Definition twoListings (url : string) : Response :=
  if (url =? "http://aem/content/dam.1.json")%string then Resolved shallowListing
  else if (url =? "http://aem/content/dam.json")%string then Resolved fullListing
  else Rejected "HTTP 404".

(** A crawl about to fetch its [n+1]-th folder. *)
Definition crawlAfter (n : Z) : Crawl :=
  {| processedPaths := []; discoveredAssets := []; folderQueue := [Str "/content/dam"];
     stats := {| foldersScanned := n; totalAssets := 0; downloadedAssets := 0;
                 skippedAssets := 0; failedAssets := 0; totalSize := 0; errors := [] |};
     trace := [] |}.

Definition offline (url : string) : Response := Rejected "HTTP 404".

Definition withoutAdaptiveDelay (cfg : Config) : Config :=
  {| baseUrl := baseUrl cfg; downloadMetadata := downloadMetadata cfg;
     maxDepth := maxDepth cfg; maxConcurrent := maxConcurrent cfg;
     sleepTime := sleepTime cfg; testMode := testMode cfg; testLimit := testLimit cfg;
     fileTypes := fileTypes cfg; minFileSize := minFileSize cfg;
     maxFileSize := maxFileSize cfg; skipPatterns := skipPatterns cfg;
     smartDepthDetection := smartDepthDetection cfg; adaptiveDelay := false |}.


(** A record with a multi-valued title. *)
Definition arrayTitled : AssetInfo :=
  {| path := "/content/dam/a.png"; name := "a.png"; extension := "png"; size := 0;
     title := Arr [Str "A"]; description := Undefined; keywords := Undefined;
     renditions := []; metadata := []; matchReason := None; matchedPattern := None |}.

(** The record of the asset at [p] with [expectedSize] bytes announced. *)
Definition record (p : string) (expectedSize : Z) : AssetInfo :=
  {| path := p; name := Path.basenameStr p; extension := "png"; size := expectedSize;
     title := Str (Path.basenameStr p); description := Undefined; keywords := Undefined;
     renditions := []; metadata := []; matchReason := None; matchedPattern := None |}.

(** A disk where every operation succeeds and the target is as given. *)
Definition targetOf (existingSize : option N) : Disk :=
  {| mkdirError := None; existing := existingSize; metadataWriteError := None |}.

(** A disk where the download can be written and the metadata file cannot. *)
Definition metadataUnwritable : Disk :=
  {| mkdirError := None; existing := None;
     metadataWriteError := Some "ENAMETOOLONG: name too long" |}.

Definition unreachable (url : string) : Attempt := RequestFails "HTTP 404".

(** The first candidate breaks off after 500 bytes; the others are rejected. *)
Definition breaksOff (url : string) : Attempt :=
  if (url =? "http://aem/content/dam/a.png")%string then StreamFails 500 "ECONNRESET"
  else RequestFails "HTTP 404".

(** The first candidate breaks off after 500 bytes, the second right after
    its response arrived, the others are rejected. *)
Definition breaksOffTwice (url : string) : Attempt :=
  if (url =? "http://aem/content/dam/a.png")%string then StreamFails 500 "ECONNRESET"
  else if (url =? "http://aem/content/dam/a.png/jcr:content/renditions/original")%string
       then StreamFails 0 "ECONNRESET"
  else RequestFails "HTTP 404".

(** Five assets, and the pool of width 3 after three launches, the wait
    and the end of the second download. *)
Definition fiveAssets : list AssetInfo :=
  map (fun p => record p 0)
    ["/content/dam/1.png"; "/content/dam/2.png"; "/content/dam/3.png";
     "/content/dam/4.png"; "/content/dam/5.png"].

Definition afterOneCompletion : Pool :=
  {| queue := [record "/content/dam/4.png" 0; record "/content/dam/5.png" 0];
     inProgress := [0%nat; 2%nat]; nextPromise := 3; pc := AwaitingRace true |}.

(** The tree of the end-to-end scenario: the root holds the folders [a]
    (two assets) and [b] (no asset, the folder [c] with one asset). *)
Definition assetNode (bytes : Z) : Val :=
  Obj [("jcr:primaryType", Str "dam:Asset");
       ("jcr:content", Obj [("metadata", Obj [("dam:size", Num bytes)])])].

Definition folderNode : Val := Obj [("jcr:primaryType", Str "sling:Folder")].

Definition smallTree (url : string) : Response :=
  if (url =? "http://aem/content/dam.1.json")%string
  then Resolved (Obj [("jcr:primaryType", Str "sling:Folder"); ("a", folderNode); ("b", folderNode)])
  else if (url =? "http://aem/content/dam/a.1.json")%string
  then Resolved (Obj [("x.png", assetNode 1200); ("y.jpg", assetNode 3400)])
  else if (url =? "http://aem/content/dam/b.1.json")%string
  then Resolved (Obj [("c", folderNode)])
  else if (url =? "http://aem/content/dam/b/c.1.json")%string
  then Resolved (Obj [("z.pdf", assetNode 5600)])
  else Rejected "HTTP 404".

(** A path without a conversion to a string: the object [JSON.parse]
    makes of [{"toString": 1}]. *)
Definition unprintablePath : Val := Obj [("toString", Num 1)].

(** An asset node with that [jcr:path], and a listing that holds it
    before a folder. *)
Definition unprintableNode : Val :=
  Obj [("jcr:primaryType", Str "dam:Asset"); ("jcr:path", unprintablePath)].

Definition brokenListing : Val := Obj [("broken.png", unprintableNode); ("next", folderNode)].

Definition brokenServer (url : string) : Response :=
  if (url =? "http://aem/content/dam.1.json")%string then Resolved brokenListing
  else Rejected "HTTP 404".

(** A folder with that [jcr:path], listed with a child. *)
Definition brokenFolderListing : Val :=
  Obj [("f", Obj [("jcr:primaryType", Str "sling:Folder"); ("jcr:path", unprintablePath);
                  ("child", Obj [])])].

(** The first two candidates are rejected, the third delivers 10 bytes. *)
Definition thirdCandidateDelivers (url : string) : Attempt :=
  if (url =? "http://aem/content/dam/a.png")%string then RequestFails "ETIMEDOUT"
  else if (url =? "http://aem/content/dam/a.png/jcr:content/renditions/original")%string
       then RequestFails "HTTP 503"
  else StreamEnds 10.


(* ================================================================== *)
(** ** HTTP client *)
(* ================================================================== *)

(** What the server sends back for one request: the head (status and
    headers) and the text of the body the client received. *)
Record HttpResponse : Type := {
  statusCode : Z;
  location : string;      (* the Location header, [""] when there is none *)
  body : string
}.

(** The course of one exchange with the server, as far as the promise
    of the call depends on it. *)
Inductive Exchange : Type :=
| NetworkError (e : string)     (* the request emits 'error' while the promise is pending *)
| TimedOut                      (* the request emits 'timeout' while the promise is pending *)
| Answered (r : HttpResponse)   (* the head arrives, then the whole body: 'end' *)
| BrokenOff (r : HttpResponse). (* the head arrives and the connection closes before the
                                   body has ended: the response is aborted, it emits no
                                   'end', and the request emits nothing *)

(** The head of the response of an exchange, when one arrived. *)
Definition headOf (x : Exchange) : option HttpResponse :=
  match x with
  | Answered r | BrokenOff r => Some r
  | NetworkError _ | TimedOut => None
  end.

(** [res.statusCode >= 300 && res.statusCode < 400 && res.headers.location] *)
Definition isRedirect (res : HttpResponse) : bool :=
  (300 <=? statusCode res) && (statusCode res <? 400) && negb (location res =? "")%string.

(** What the promise of [makeRequest] settles to. *)
Inductive Settled : Type :=
| Reject (e : string)
| ResolveStream (r : HttpResponse)     (* options.responseType === 'stream' *)
| ResolveData (data : Val).

Section HttpClient.

(** The exchange with the server at a URL, and [JSON.parse] ([None]: it
    raises).  A URL that [new URL] does not accept is a [NetworkError] at
    that URL: the promise is rejected with the error raised. *)
Variable server : string -> Exchange.
Variable parseJson : string -> option Val.

(** The callback of the response, past the redirect test: the promise
    is settled by the status, handed the response as a stream, or
    settled when the body ends; [None]: it is left pending. *)
Definition settleWith (res : HttpResponse) (ended : bool) (stream json : bool)
    : option Settled :=
  if 400 <=? statusCode res then
    Some (Reject ("HTTP " ++ numberToString (statusCode res)))
  else if stream then Some (ResolveStream res)
  else if ended then
    if json then
      match parseJson (body res) with
      | Some result => Some (ResolveData result)
      | None => Some (ResolveData (Str (body res)))       (* catch: resolve(data) *)
      end
    else Some (ResolveData (Str (body res)))
  else None.                                              (* no 'end': nothing settles it *)

(** [makeRequest(url, options)]; [stream] is
    [options.responseType === 'stream'], [json] is [options.json !== false].
    A redirect is followed by a call of the function itself; [fuel] bounds
    the number of hops.  [None]: the promise is still pending, because
    the hops ran out or because nothing settles it. *)
Fixpoint makeRequest (fuel : nat) (url : string) (stream json : bool) : option Settled :=
  match server url with
  | NetworkError e => Some (Reject e)
  | TimedOut => Some (Reject "Request timeout")
  | Answered res =>
      if isRedirect res then
        match fuel with
        | O => None
        | S fuel' => makeRequest fuel' (location res) stream json
        end
      else settleWith res true stream json
  | BrokenOff res =>
      if isRedirect res then
        match fuel with
        | O => None
        | S fuel' => makeRequest fuel' (location res) stream json
        end
      else settleWith res false stream json
  end.

(** The URL the redirects lead to from [url], when they end within
    [fuel] hops: the URL whose answer is not a redirect. *)
Fixpoint finalUrl (fuel : nat) (url : string) : option string :=
  match headOf (server url) with
  | Some res =>
      if isRedirect res then
        match fuel with
        | O => None
        | S fuel' => finalUrl fuel' (location res)
        end
      else Some url
  | None => Some url
  end.

End HttpClient.

(** [config.retryAttempts] and [config.retryDelay]. *)
Record RetrySettings : Type := {
  retryAttempts : Z;
  retryDelay : Z
}.

Definition defaultRetry : RetrySettings := {| retryAttempts := 3; retryDelay := 1000 |}.

(** What [makeRequestWithRetry] does, in order. *)
Inductive Wire : Type :=
| Sent (url : string)     (* one makeRequest *)
| Paused (ms : Z).        (* await sleep(ms) *)

Section Retry.

Variable rs : RetrySettings.

(** The outcome of the [makeRequest] made as attempt number [attempt]. *)
Variable request : string -> Z -> Response.

(** [makeRequestWithRetry] with [remaining] retries left, which is
    [retryAttempts - attempt] when that is positive and 0 otherwise. *)
Fixpoint retryLoop (remaining : nat) (url : string) (attempt : Z) : Response * list Wire :=
  match request url attempt with
  | Resolved data => (Resolved data, [Sent url])
  | Rejected error =>
      match remaining with
      | O => (Rejected error, [Sent url])                             (* throw error *)
      | S remaining' =>                                               (* attempt < retryAttempts *)
          let '(result, wire) := retryLoop remaining' url (attempt + 1) in
          (result, Sent url :: Paused (retryDelay rs * attempt) :: wire)
      end
  end.

(** [makeRequestWithRetry(url, options, attempt)] *)
Definition makeRequestWithRetry (url : string) (attempt : Z) : Response * list Wire :=
  retryLoop (Z.to_nat (retryAttempts rs - attempt)) url attempt.

End Retry.

(* ================================================================== *)
(** ** Query file *)
(* ================================================================== *)

(** [s.trimEnd()] and [s.trim()], for the white space of ASCII. *)
Fixpoint trimEnd (s : string) : string :=
  match s with
  | EmptyString => EmptyString
  | String c rest =>
      match trimEnd rest with
      | EmptyString => if isSpace c then EmptyString else String c EmptyString
      | kept => String c kept
      end
  end.

Definition trim (s : string) : string := trimEnd (skipSpaces s).

(** [s.split(sep)] for a separator of one character or more; [skip]
    counts the characters of a separator just met that are still to be
    passed over. *)
Fixpoint splitFrom (sep : string) (skip : nat) (s : string) : list string :=
  match s with
  | EmptyString => [""]
  | String c rest =>
      match skip with
      | S k => splitFrom sep k rest
      | O =>
          if String.prefix sep s then "" :: splitFrom sep (String.length sep - 1) rest
          else match splitFrom sep 0 rest with
               | [] => [String c ""]
               | seg :: segs => String c seg :: segs
               end
      end
  end.

Definition splitOn (sep : string) (s : string) : list string := splitFrom sep 0 s.

(** [array.indexOf(x)] on strings, [-1] when [x] is not there. *)
Fixpoint indexOf (x : string) (array : list string) : Z :=
  match array with
  | [] => -1
  | y :: rest =>
      if (x =? y)%string then 0
      else let i := indexOf x rest in if i <? 0 then -1 else i + 1
  end.

(** [array.filter((x, index) => f index x)], from [index] on. *)
Fixpoint filterFrom {A : Type} (f : Z -> A -> bool) (index : Z) (array : list A) : list A :=
  match array with
  | [] => []
  | x :: rest =>
      if f index x then x :: filterFrom f (index + 1) rest
      else filterFrom f (index + 1) rest
  end.

(** [Array.isArray(v)] *)
Definition isArray (v : Val) : bool :=
  match v with Arr _ => true | _ => false end.

(** [Object.values(v).flat()] *)
Definition flatValues (v : Val) : Completion (list Val) :=
  match ownEntries v with
  | None => Thrown "TypeError: Cannot convert undefined or null to object"
  | Some props =>
      Normal (flat_map (fun kv => match snd kv with
                                  | Arr items => items
                                  | x => [x]
                                  end) props)
  end.

(** The path test of both readings of the file:
    [item.startsWith('/content/') || item.startsWith('/')]. *)
Definition looksLikePath (s : string) : bool :=
  startsWith s "/content/" || startsWith s "/".

(** The [try] block of [loadQueryFile]: the base path and the entries of
    a file that parses as JSON.  It raises when the value is [null]. *)
Definition readJson (parsed : Val) : Completion (string * list Val) :=
  basePath <- getProp parsed "basePath" ;;
  let baseDAMPath := match basePath with
                     | Str s => if truthy basePath then s else "/content/dam"
                     | _ => "/content/dam"
                     end in
  if isArray parsed then Normal (baseDAMPath, match parsed with Arr items => items | _ => [] end)
  else
    assets <- getProp parsed "assets" ;;
    if truthy assets && isArray assets
    then Normal (baseDAMPath, match assets with Arr items => items | _ => [] end)
    else
      paths <- getProp parsed "paths" ;;
      if truthy paths && isArray paths
      then Normal (baseDAMPath, match paths with Arr items => items | _ => [] end)
      else
        values <- flatValues parsed ;;
        Normal (baseDAMPath,
                filter (fun item => match item with
                                    | Str s => looksLikePath s
                                    | _ => false
                                    end) values).

(** The [catch] block: one path per line, [#] opens a comment line. *)
Definition readLines (content : string) : list Val :=
  map Str
    (filter (fun line => negb (line =? "")%string && negb (startsWith line "#")
                         && looksLikePath line)
       (map trim (split "010"%char content))).

(** The body of the [map] callback of "Clean and validate paths", on a
    string. *)
Definition cleanPath (baseDAMPath : string) (path : string) : string :=
  let cleanPath := trim path in
  let cleanPath := hd "" (split "#"%char (hd "" (split "?"%char cleanPath))) in
  let cleanPath :=
    if negb (startsWith cleanPath "/content/") then
      if startsWith cleanPath "/" then baseDAMPath ++ cleanPath
      else baseDAMPath ++ "/" ++ cleanPath
    else cleanPath in
  if includes cleanPath ".coreimg." then
    let parts := splitOn ".coreimg." cleanPath in
    if (1 <? List.length parts)%nat then
      let corePart := nth 1 parts "" in
      if includes corePart "/" then
        let pathParts := split "/"%char corePart in
        if (1 <? List.length pathParts)%nat then
          let filename := last pathParts "" in
          if negb (filename =? "")%string && includes filename "."
          then hd "" parts ++ "/" ++ filename
          else hd "" parts
        else cleanPath
      else cleanPath
    else cleanPath
  else cleanPath.

(** The callback on every entry: [path.trim()] raises a [TypeError] on
    an entry that is not a string. *)
Fixpoint cleanAll (baseDAMPath : string) (assetPaths : list Val) : Completion (list string) :=
  match assetPaths with
  | [] => Normal []
  | Str path :: rest =>
      cleaned <- cleanAll baseDAMPath rest ;;
      Normal (cleanPath baseDAMPath path :: cleaned)
  | _ :: _ => Thrown "TypeError: path.trim is not a function"
  end.

(** [.filter((path, index, array) => array.indexOf(path) === index)] *)
Definition removeDuplicates (array : list string) : list string :=
  filterFrom (fun index path => indexOf path array =? index) 0 array.

(** [loadQueryFile(filePath)] for a file that exists with [content];
    [parseJson] is [JSON.parse] ([None]: it raises).  [Thrown]: the
    outer [catch] ends the process with status 1. *)
Definition loadQueryFile (parseJson : string -> option Val) (content : string)
    : Completion (list string) :=
  let '(baseDAMPath, assetPaths) :=
    match parseJson content with
    | Some parsed =>
        match readJson parsed with
        | Normal r => r
        | Thrown _ => ("/content/dam", readLines content)
        end
    | None => ("/content/dam", readLines content)
    end in
  cleaned <- cleanAll baseDAMPath assetPaths ;;
  Normal (removeDuplicates
            (filter (fun path => negb (path =? "")%string && startsWith path "/content/")
               cleaned)).

(* ================================================================== *)
(** ** Search from a string, and the assets of a query file *)
(* ================================================================== *)

(** The [patterns] that [findFromString] reads in its argument. *)
Definition patternsOf (searchString : string) : list string :=
  if includes searchString "." && negb (includes searchString ",")
  then [trim searchString]
  else filter (fun p => negb (p =? "")%string) (map trim (split ","%char searchString)).

(** [findFromString(searchString)] *)
Definition findFromString (cfg : Config) (net : string -> Response) (searchString : string)
    (fuel : nat) (c : Crawl) : Run * list AssetInfo * Crawl :=
  match patternsOf searchString with
  | [] => (Finished, [], c)
  | [pattern] => findAssets cfg net pattern fuel c
  | patterns => findMultipleAssets cfg net patterns fuel c
  end.

(** [errors.push({asset, error})] *)
Definition pushError (asset msg : string) (s : Stats) : Stats :=
  {| foldersScanned := foldersScanned s; totalAssets := totalAssets s;
     downloadedAssets := downloadedAssets s; skippedAssets := skippedAssets s;
     failedAssets := failedAssets s; totalSize := totalSize s;
     errors := errors s ++ [(asset, msg)] |}.

Section Query.

Variable cfg : Config.
Variable makeRequestWithRetry : string -> Response.

(** [!assetPath.includes('/') || (assetPath.startsWith('/content/dam/') &&
     assetPath.split('/').length <= 4 && assetPath.includes('.'))] *)
Definition isSimpleFilename (assetPath : string) : bool :=
  negb (includes assetPath "/") ||
  (startsWith assetPath "/content/dam/"
   && (List.length (split "/"%char assetPath) <=? 4)%nat
   && includes assetPath ".").

(** The search both branches fall back on: the crawl state is reset and
    the DAM is searched for the file name.  Result: the first match, the
    record made from the path when there is none. *)
Definition searchByName (assetPath : string) (fuel : nat) (c : Crawl)
    : Run * list AssetInfo * Crawl :=
  let filename := Path.basenameStr assetPath in
  let c := setQueue [] (setProcessed [] c) in          (* clear(); folderQueue = [] *)
  findAssets cfg makeRequestWithRetry (toLowerCase filename) fuel c.

(** The [try] block of the loop of [processQueryAssets] up to the
    validity test: the record for one path ([None] is [null]).
    [Raised]: the block raised; [OutOfFuel]: the search was cut. *)
Definition resolveAsset (assetPath : string) (fuel : nat) (c : Crawl)
    : Run * option AssetInfo * Crawl :=
  if isSimpleFilename assetPath then
    let '(r, foundAssets, c') := searchByName assetPath fuel c in
    match r with
    | Finished =>
        (Finished,
         Some (match foundAssets with
               | first :: _ => first
               | [] => createAssetInfoFromPath assetPath
               end), c')
    | _ => (r, None, c')
    end
  else
    let metadataUrl := baseUrl cfg ++ assetPath ++ ".json" in
    let c := emit (EvRequest metadataUrl) c in
    match makeRequestWithRetry metadataUrl with
    | Resolved assetData =>
        if truthy assetData && typeofObject assetData then
          match extractAssetInfo assetData (Str assetPath) with
          | Normal info => (Finished, info, c)
          | Thrown e => (Raised e, None, c)
          end
        else (Finished, Some (createAssetInfoFromPath assetPath), c)
    | Rejected _ =>
        let '(r, foundAssets, c') := searchByName assetPath fuel c in
        match r with
        | Finished =>
            (Finished,
             Some (match foundAssets with
                   | first :: _ => first
                   | [] => createAssetInfoFromPath assetPath
                   end), c')
        | _ => (r, None, c')
        end
    end.

(** [processQueryAssets(assetPaths)]; [assets] is the list built so far,
    [fuel] bounds each search. *)
Fixpoint processQueryAssets (assetPaths : list string) (fuel : nat) (assets : list AssetInfo)
    (c : Crawl) : Run * list AssetInfo * Crawl :=
  match assetPaths with
  | [] => (Finished, assets, c)
  | assetPath :: rest =>
      let '(r, assetInfo, c1) := resolveAsset assetPath fuel c in
      match r with
      | OutOfFuel => (OutOfFuel, assets, c1)
      | Raised e =>                                                       (* catch *)
          processQueryAssets rest fuel assets
            (emit (EvSleep (sleepTime cfg)) (setStats (pushError assetPath e (stats c1)) c1))
      | Finished =>
          let accepted := match assetInfo with
                          | Some info => isValidAsset cfg info
                          | None => false
                          end in
          let assets' := match assetInfo with
                         | Some info => if accepted then (assets ++ [info])%list else assets
                         | None => assets
                         end in
          let c2 := if accepted then setStats (incrTotalAssets (stats c1)) c1
                    else setStats (incrSkipped (stats c1)) c1 in
          processQueryAssets rest fuel assets' (emit (EvSleep (sleepTime cfg)) c2)
      end
  end.

End Query.

(* ================================================================== *)
(** ** Vocabulary of the further properties *)
(* ================================================================== *)

(** The pauses of a run, in order. *)
Definition pausesOf (wire : list Wire) : list Z :=
  flat_map (fun w => match w with Paused ms => [ms] | Sent _ => [] end) wire.

(** The number of requests of a run. *)
Definition sentCount (wire : list Wire) : nat :=
  List.length (filter (fun w => match w with Sent _ => true | Paused _ => false end) wire).

(** The run of [tries] attempts from [attempt] on: a request, then a
    pause before each further request. *)
Fixpoint wireOf (url : string) (delay attempt : Z) (tries : nat) : list Wire :=
  match tries with
  | O => []
  | S O => [Sent url]
  | S more => Sent url :: Paused (delay * attempt) :: wireOf url delay (attempt + 1) more
  end.

Definition withMaxDepth (m : Z) (cfg : Config) : Config :=
  {| baseUrl := baseUrl cfg; downloadMetadata := downloadMetadata cfg;
     maxDepth := m; maxConcurrent := maxConcurrent cfg;
     sleepTime := sleepTime cfg; testMode := testMode cfg; testLimit := testLimit cfg;
     fileTypes := fileTypes cfg; minFileSize := minFileSize cfg;
     maxFileSize := maxFileSize cfg; skipPatterns := skipPatterns cfg;
     smartDepthDetection := smartDepthDetection cfg; adaptiveDelay := adaptiveDelay cfg |}.

Definition inTestMode (limit : Z) (cfg : Config) : Config :=
  {| baseUrl := baseUrl cfg; downloadMetadata := downloadMetadata cfg;
     maxDepth := maxDepth cfg; maxConcurrent := maxConcurrent cfg;
     sleepTime := sleepTime cfg; testMode := true; testLimit := limit;
     fileTypes := fileTypes cfg; minFileSize := minFileSize cfg;
     maxFileSize := maxFileSize cfg; skipPatterns := skipPatterns cfg;
     smartDepthDetection := smartDepthDetection cfg; adaptiveDelay := adaptiveDelay cfg |}.

(** The shipped settings restricted to some file types ([--types]). *)
Definition onlyTypes (types : list string) (cfg : Config) : Config :=
  {| baseUrl := baseUrl cfg; downloadMetadata := downloadMetadata cfg;
     maxDepth := maxDepth cfg; maxConcurrent := maxConcurrent cfg;
     sleepTime := sleepTime cfg; testMode := testMode cfg; testLimit := testLimit cfg;
     fileTypes := types; minFileSize := minFileSize cfg;
     maxFileSize := maxFileSize cfg; skipPatterns := skipPatterns cfg;
     smartDepthDetection := smartDepthDetection cfg; adaptiveDelay := adaptiveDelay cfg |}.

(** The levels of nested data below depth [d] that [processDAMData]
    still walks into: it recurses while [currentDepth < 2]. *)
Definition nestedLevels (d : Z) : Z := if 2 <=? d then 0 else 2 - d.

(** Folder fetches and calls of [makeRequestWithRetry] in a run of
    events. *)
Definition countTreeFetches (t : list Event) : nat :=
  List.length (filter (fun e => match e with EvFetchTree _ => true | _ => false end) t).

Definition countCalls (t : list Event) : nat :=
  List.length (filter (fun e => match e with EvRequest _ => true | _ => false end) t).

(** The crawl over the retrying client: what
    [await makeRequestWithRetry(url)] gives when the requests are
    answered by [request]. *)
Definition retrying (rs : RetrySettings) (request : string -> Z -> Response)
    (url : string) : Response :=
  fst (makeRequestWithRetry rs request url 1).

(** The requests that the calls in a run of events send. *)
Definition requestsSent (rs : RetrySettings) (request : string -> Z -> Response)
    (t : list Event) : nat :=
  list_sum (map (fun e => match e with
                          | EvRequest url =>
                              sentCount (snd (makeRequestWithRetry rs request url 1))
                          | _ => 0%nat
                          end) t).

(** The most requests one call sends: [retryAttempts], and one when the
    setting is below 1. *)
Definition triesPerCall (rs : RetrySettings) : nat := Z.to_nat (Z.max 1 (retryAttempts rs)).

(** What holds of an entry of [discoveredAssets]: the key is a string,
    the record was built from it and passed the filter. *)
Definition soundEntry (cfg : Config) (entry : Val * AssetInfo) : Prop :=
  isValidAsset cfg (snd entry) = true /\
  startsWith (path (snd entry)) "/" = true /\
  extension (snd entry) <> "" /\
  exists s, fst entry = Str s /\
            name (snd entry) = Path.basenameStr s /\
            (path (snd entry) = s \/ path (snd entry) = "/" ++ s).

(** [c'] continues [c] by whole folder fetches: [foldersScanned] moves
    with the fetches, and each fetch makes at most [perFolder] calls of
    [makeRequestWithRetry]. *)
Definition withinBudget (perFolder : nat) (c c' : Crawl) : Prop :=
  exists new,
    trace c' = (trace c ++ new)%list /\
    foldersScanned (stats c') = foldersScanned (stats c) + Z.of_nat (countTreeFetches new) /\
    (countCalls new <= perFolder * countTreeFetches new)%nat.

(** The [jcr:path] of a node converts to a string, when the node has a
    truthy one. *)
Definition pathPrints (item : Val) : bool :=
  match getProp item "jcr:path" with
  | Normal p => negb (truthy p) || printable p
  | Thrown _ => true
  end.

(** Every node of a listing that a walk visits has such a path, at any
    depth. *)
Fixpoint pathsPrint (data : Val) : bool :=
  match data with
  | Obj props =>
      forallb (fun kv => isSystemKey (fst kv) || (pathPrints (snd kv) && pathsPrint (snd kv)))
        props
  | Arr items => forallb (fun item => pathPrints item && pathsPrint item) items
  | _ => true
  end.

(** The merged object has its first prototype and owns no [__proto__]
    key. *)
Definition untouched (o : Plain) : Prop :=
  proto o = None /\ hasOwn "__proto__" (own o) = false.

(** A truthy value without a [toLowerCase] method. *)
Definition notLowerCasable (v : Val) : bool :=
  truthy v && negb (match v with Str _ => true | _ => false end).

(** A truthy value without a conversion to a string. *)
Definition notPrintable (v : Val) : bool := truthy v && negb (printable v).

(** A record the matching block of the single-pattern search lets
    through for [pattern]. *)
Definition matchOf (pattern : string) (a' : AssetInfo) : Prop :=
  exists a reason,
    checkPatternMatch a pattern = Normal (Some reason) /\
    a' = annotate reason None a.

(** Two computations end alike: both normally, or both with the same
    exception. *)
Definition endAlike {A B : Type} (a : Completion A) (b : Completion B) : Prop :=
  match a, b with
  | Normal _, Normal _ => True
  | Thrown e1, Thrown e2 => e1 = e2
  | _, _ => False
  end.

(** Two walks take the same course: they end alike and leave the same
    crawl state. *)
Definition sameCourse {A B : Type} (r1 : Completion A * Crawl) (r2 : Completion B * Crawl)
    : Prop :=
  snd r1 = snd r2 /\ endAlike (fst r1) (fst r2).

(** The counters of [processQueryAssets] are where they were. *)
Definition sameTally (c c' : Crawl) : Prop :=
  totalAssets (stats c') = totalAssets (stats c) /\
  skippedAssets (stats c') = skippedAssets (stats c) /\
  errors (stats c') = errors (stats c).

(** The bookkeeping of the driver over a run on [initial]: the launches
    so far took the first [nextPromise] assets, in order; the promises in
    flight are distinct launches; one is in flight while the driver
    awaits the race. *)
Definition poolAccount (initial : list AssetInfo) (p : Pool) : Prop :=
  (nextPromise p <= List.length initial)%nat /\
  queue p = skipn (nextPromise p) initial /\
  NoDup (inProgress p) /\
  Forall (fun i => (i < nextPromise p)%nat) (inProgress p) /\
  match pc p with
  | AwaitingRace false => inProgress p <> []
  | _ => True
  end.

Definition atSleep (p : Pool) : bool :=
  match pc p with Sleeping => true | _ => false end.

(** Where the driver is in its loop, counted down towards the next
    launch or completion. *)
Definition stage (pc : DriverPC) : nat :=
  match pc with
  | AwaitingRace true => 7
  | SleepTest => 6
  | OuterTest => 5
  | InnerTest => 4
  | RaceTest => 3
  | AwaitingRace false => 2
  | Sleeping => 1
  | Exited => 0
  end.

(** What is left to do: two steps per pending asset (launch, completion),
    one per download in flight, and the way to the next of them. *)
Definition driverMeasure (p : Pool) : nat :=
  8 * (2 * List.length (queue p) + List.length (inProgress p)) + stage (pc p).

(** Past the outer test there is work: an asset to launch or a download
    in flight. *)
Definition poolBusy (p : Pool) : Prop :=
  match pc p with
  | InnerTest => queue p <> [] \/ inProgress p <> []
  | RaceTest => inProgress p <> []
  | _ => True
  end.

(** The simple recursive reading of [removeDuplicates]: keep what was
    not [seen]. *)
Fixpoint firstOccurrences (seen : list string) (l : list string) : list string :=
  match l with
  | [] => []
  | x :: rest =>
      if existsb (String.eqb x) seen then firstOccurrences seen rest
      else x :: firstOccurrences (x :: seen) rest
  end.

(** A string without white space at its ends, [?], [#] and [.coreimg.]. *)
Definition plainPath (s : string) : Prop :=
  trim s = s /\ includes s "?" = false /\ includes s "#" = false /\
  includes s ".coreimg." = false.

(* ================================================================== *)
(** ** Further servers, nodes and files *)
(* ================================================================== *)

(** A server that answers every request with 404. *)
Definition alwaysMissing (url : string) (attempt : Z) : Response := Rejected "HTTP 404".

(** A server that fails twice and then answers. *)
Definition answersThird (url : string) (attempt : Z) : Response :=
  if attempt <? 3 then Rejected "ETIMEDOUT" else Resolved (Obj []).

(** A server that redirects every URL to itself. *)
Definition redirectsToItself (url : string) : Exchange :=
  Answered {| statusCode := 302; location := url; body := "" |}.

(** A server that lets every request run into the timeout. *)
Definition neverAnswers (url : string) : Exchange := TimedOut.

(** A server that answers every request with the page of its login
    form. *)
Definition loginPage (url : string) : Exchange :=
  Answered {| statusCode := 200; location := ""; body := "<html>" |}.

(** A server that answers 304 without a Location header and, as the
    status requires, without a body. *)
Definition notModified (url : string) : Exchange :=
  Answered {| statusCode := 304; location := ""; body := "" |}.

(** A server that closes the connection in the middle of every body. *)
Definition hangsUp (url : string) : Exchange :=
  BrokenOff {| statusCode := 200; location := ""; body := "{" |}.

(** A server that redirects [/old] to [/new], which does not exist. *)
Definition movedAway (url : string) : Exchange :=
  if (url =? "http://aem/old")%string
  then Answered {| statusCode := 301; location := "http://aem/new"; body := "" |}
  else Answered {| statusCode := 404; location := ""; body := "" |}.

(** A node without asset or folder signal, and an asset node whose
    [jcr:path] is a number: [path.basename] rejects it. *)
Definition plainNode : Val := Obj [("jcr:primaryType", Str "nt:unstructured")].

Definition malformedNode : Val :=
  Obj [("jcr:primaryType", Str "dam:Asset"); ("jcr:path", Num 5)].

(** A listing in which the test limit 1 is met at depth 2: the folder
    [f] holds the folder [g] (one asset) and an asset, and is followed by
    an asset. *)
Definition nestedListing : Val :=
  Obj [("f", Obj [("jcr:primaryType", Str "sling:Folder");
                  ("g", Obj [("jcr:primaryType", Str "sling:Folder");
                             ("g.png", assetNode 10)]);
                  ("f.png", assetNode 20)]);
       ("r.png", assetNode 30)].

Definition deepServer (url : string) : Response :=
  if (url =? "http://aem/content/dam.1.json")%string then Resolved nestedListing
  else Rejected "HTTP 404".

(** The root listing carries the content of the folder [a], which is
    listed again when [a] itself is fetched. *)
Definition eagerServer (url : string) : Response :=
  if (url =? "http://aem/content/dam.1.json")%string
  then Resolved (Obj [("a", Obj [("jcr:primaryType", Str "sling:Folder");
                                 ("x.png", assetNode 1200)])])
  else if (url =? "http://aem/content/dam/a.1.json")%string
  then Resolved (Obj [("x.png", assetNode 1200)])
  else Rejected "HTTP 404".

(** An asset whose [dc:title] has several values. *)
Definition multiTitled : Val :=
  Obj [("jcr:primaryType", Str "dam:Asset");
       ("jcr:content",
        Obj [("metadata", Obj [("dc:title", Arr [Str "Logo"; Str "Brand"])])])].

Definition titledServer (url : string) : Response :=
  if (url =? "http://aem/content/dam.1.json")%string
  then Resolved (Obj [("logo.png", multiTitled)])
  else Rejected "HTTP 404".

(** The configuration after [--folder <path>]: the queue holds the path. *)
Definition startingAt (folder : string) : Crawl :=
  {| processedPaths := []; discoveredAssets := []; folderQueue := [Str folder];
     stats := emptyStats; trace := [] |}.

(** An asset whose node and whose metadata both carry a title. *)
Definition retitled : Val :=
  Obj [("jcr:primaryType", Str "dam:Asset");
       ("dc:title", Str "from the node");
       ("jcr:content",
        Obj [("dc:title", Str "from the content");
             ("metadata", Obj [("dc:title", Str "from the metadata"); ("dam:size", Num 7)])])].

(** An asset whose metadata node carries a [__proto__] key, as
    [JSON.parse] makes of [{"__proto__": {"dc:title": "inherited"}, ...}]. *)
Definition protoNode : Val :=
  Obj [("jcr:primaryType", Str "dam:Asset");
       ("jcr:content",
        Obj [("metadata", Obj [("__proto__", Obj [("dc:title", Str "inherited")]);
                               ("dam:size", Num 7)])])].

(** A parser that knows one file, read as a JSON array of strings. *)
Definition parsesAs (content : string) (paths : list string) (text : string) : option Val :=
  if (text =? content)%string then Some (Arr (map Str paths)) else None.

(* ================================================================== *)
(** * Properties *)
(* ================================================================== *)

(** ** Induction on values *)

Section ValInduction.

Variable P : Val -> Prop.
Hypothesis PUndefined : P Undefined.
Hypothesis PNull : P Null.
Hypothesis PBool : forall b, P (Bool b).
Hypothesis PNum : forall n, P (Num n).
Hypothesis PStr : forall s, P (Str s).
Hypothesis PArr : forall items, Forall P items -> P (Arr items).
Hypothesis PObj : forall props, Forall (fun kv => P (snd kv)) props -> P (Obj props).

Lemma Val_nested_ind : forall v, P v.
Proof.
  fix IH 1.
  destruct v as [| | b | n | s | items | props].
  - exact PUndefined.
  - exact PNull.
  - apply PBool.
  - apply PNum.
  - apply PStr.
  - apply PArr. induction items as [|x xs IHxs]; constructor; [apply IH | exact IHxs].
  - apply PObj. induction props as [|[k x] xs IHxs]; constructor; [apply IH | exact IHxs].
Qed.

End ValInduction.

(** ** Reading properties never raises on a truthy value *)

Lemma truthy_has_entries : forall v, truthy v = true -> exists props, ownEntries v = Some props.
Proof.
  destruct v; simpl; intros H; try discriminate; eauto.
Qed.

Lemma getProp_truthy : forall v k, truthy v = true -> exists x, getProp v k = Normal x.
Proof.
  intros v k H. destruct (truthy_has_entries v H) as [props E].
  unfold getProp. rewrite E. eauto.
Qed.

(** [isAsset] never raises on a node the walk hands to it. *)
Lemma isAsset_total : forall item primaryType,
  truthy item = true -> exists b, isAsset item primaryType = Normal b.
Proof.
  intros item pt Hitem. unfold isAsset.
  destruct (isString pt "dam:Asset"); [eauto|].
  destruct (isString pt "dam:AssetContent"); [eauto|].
  destruct (getProp_truthy item "jcr:content" Hitem) as [content Hc].
  rewrite Hc. simpl.
  destruct (truthy content) eqn:Tc.
  - destruct (getProp_truthy content "renditions" Tc) as [r Hr]. rewrite Hr. simpl.
    destruct (truthy r); [eauto|].
    destruct (getProp_truthy content "metadata" Tc) as [m Hm]. rewrite Hm. simpl.
    destruct (truthy m) eqn:Tm; [|eauto].
    destruct (getProp_truthy m "dam:size" Tm) as [sz Hs]. rewrite Hs. simpl.
    destruct (truthy sz) eqn:Ts; simpl.
    + rewrite Ts. eauto.
    + destruct (getProp_truthy m "dc:format" Tm) as [f Hf]. rewrite Hf. simpl.
      destruct (truthy f); eauto.
  - simpl. rewrite ?Tc. simpl. rewrite ?Tc. eauto.
Qed.

(** ** Conversion to a string *)

Lemma printable_toString : forall v,
  printable v = true -> exists s, toString v = Normal s.
Proof.
  intros v. unfold printable. destruct (toString v) as [s|e]; [eauto | discriminate].
Qed.

(** [extractAssetInfo] raises only where its [catch] block does: on a
    path that is not a string and has no conversion to one. *)
Lemma extractAssetInfo_raises : forall assetNode assetPath e,
  extractAssetInfo assetNode assetPath = Thrown e ->
  printable assetPath = false /\ forall s, assetPath <> Str s.
Proof.
  intros assetNode assetPath e. unfold extractAssetInfo.
  destruct (extractAssetInfoBody assetNode assetPath); [discriminate|].
  unfold printable. destruct (toString assetPath) as [s|e'] eqn:E; simpl; [discriminate|].
  intros _. split; [reflexivity|]. intros s ->. discriminate.
Qed.

Lemma extractAssetInfo_total : forall assetNode assetPath,
  printable assetPath = true -> exists r, extractAssetInfo assetNode assetPath = Normal r.
Proof.
  intros assetNode assetPath Hp.
  destruct (extractAssetInfo assetNode assetPath) as [r|e] eqn:E; [eauto|].
  apply extractAssetInfo_raises in E. destruct E as [E _]. congruence.
Qed.

(** ** The walk over a listing: no fetch, no change of the processed set *)

Lemma quiet_refl : forall c, quiet c c.
Proof. repeat split; reflexivity. Qed.

Lemma quiet_trans : forall a b c, quiet a b -> quiet b c -> quiet a c.
Proof. intros a b c (H1 & H2 & H3) (H4 & H5 & H6). repeat split; congruence. Qed.

Lemma quiet_setQueue : forall q c, quiet c (setQueue q c).
Proof. repeat split; reflexivity. Qed.

Lemma quiet_recordAsset : forall d c,
  quiet c (setStats (incrTotalAssets (stats c)) (setDiscovered d c)).
Proof. repeat split; reflexivity. Qed.

Lemma quiet_setDiscovered : forall d c, quiet c (setDiscovered d c).
Proof. repeat split; reflexivity. Qed.

Create HintDb crawl.
#[local] Hint Resolve quiet_refl quiet_setQueue quiet_recordAsset quiet_setDiscovered : crawl.

Section WalkLemmas.

Variable cfg : Config.

Lemma processEntry_quiet : forall recurse basePath d key item c,
  (forall p d' c0, quiet c0 (snd (recurse p d' c0))) ->
  quiet c (snd (processEntry cfg recurse basePath d key item c)).
Proof.
  intros recurse basePath d key item c Hrec. unfold processEntry.
  destruct (isSystemKey key); [auto with crawl|].
  destruct (negb (truthy item) || negb (typeofObject item)); [auto with crawl|].
  destruct (itemPathOf item basePath key) as [itemPath|e]; simpl; [|auto with crawl].
  destruct (getProp item "jcr:primaryType") as [pt|e]; simpl; [|auto with crawl].
  destruct (isAsset item pt) as [asset|e]; simpl; [|auto with crawl].
  destruct (if asset then extractAssetInfo item itemPath else Normal None)
    as [extracted|e]; simpl; [|auto with crawl].
  set (recorded :=
         match extracted with
         | Some assetInfo =>
             if isValidAsset cfg assetInfo then
               (testLimitReached cfg
                  (setStats (incrTotalAssets (stats c))
                     (setDiscovered (mapSet itemPath assetInfo (discoveredAssets c)) c)),
                setStats (incrTotalAssets (stats c))
                  (setDiscovered (mapSet itemPath assetInfo (discoveredAssets c)) c))
             else (false, c)
         | None => (false, c)
         end).
  assert (Hq1 : quiet c (snd recorded)).
  { subst recorded. destruct extracted as [info|]; [|auto with crawl].
    destruct (isValidAsset cfg info); simpl; auto with crawl. }
  destruct recorded as [returned c1]. simpl in Hq1.
  destruct returned; [exact Hq1|].
  destruct (isFolder pt); [|exact Hq1].
  set (c2 := if negb (has itemPath (processedPaths c1)) && (d <? maxDepth cfg)
             then if negb (testMode cfg) || (totalAssets (stats c1) <? testLimit cfg)
                  then setQueue (folderQueue c1 ++ [itemPath]) c1 else c1
             else c1).
  assert (Hq2 : quiet c1 c2).
  { subst c2. destruct (negb (has itemPath (processedPaths c1)) && (d <? maxDepth cfg));
      [destruct (negb (testMode cfg) || (totalAssets (stats c1) <? testLimit cfg))|];
      auto with crawl. }
  destruct ((d <? 2) && (negb (testMode cfg) || (totalAssets (stats c2) <? testLimit cfg))).
  - pose proof (Hrec itemPath (d + 1) c2) as Hq3.
    destruct (recurse itemPath (d + 1) c2) as [[u|e] c3]; simpl in *;
      eauto using quiet_trans.
  - simpl. eauto using quiet_trans.
Qed.

Lemma processDAMData_quiet : forall data basePath d c,
  quiet c (snd (processDAMData cfg data basePath d c)).
Proof.
  induction data as [| | b | n | s | items IH | props IH] using Val_nested_ind;
    intros basePath d c; try apply quiet_refl.
  - (* arrays *)
    simpl. generalize 0%nat as i. revert c.
    induction IH as [|item rest Hitem _ IHrest]; intros c i.
    + apply quiet_refl.
    + pose proof (processEntry_quiet (processDAMData cfg item) basePath d (indexKey i) item c
                    (fun p d' c0 => Hitem p d' c0)) as Hq.
      destruct (processEntry cfg (processDAMData cfg item) basePath d (indexKey i) item c)
        as [[| |e] c'] eqn:E; simpl in *.
      * eauto using quiet_trans.
      * exact Hq.
      * exact Hq.
  - (* objects *)
    simpl. revert c.
    induction IH as [|[key item] rest Hitem _ IHrest]; intros c.
    + apply quiet_refl.
    + simpl in Hitem.
      pose proof (processEntry_quiet (processDAMData cfg item) basePath d key item c
                    (fun p d' c0 => Hitem p d' c0)) as Hq.
      destruct (processEntry cfg (processDAMData cfg item) basePath d key item c)
        as [[| |e] c'] eqn:E; simpl in *.
      * eauto using quiet_trans.
      * exact Hq.
      * exact Hq.
Qed.

End WalkLemmas.

(** ** Classifier *)

(** C9. The claim fails on a node whose path has no conversion to a
    string.  The asset node [broken.png] carries under [jcr:path] an
    object with a [toString] key: [path.basename] rejects the path, the
    [catch] block of [extractAssetInfo] converts it for its log line and
    raises in turn, and the TypeError leaves [processDAMData],
    [scanFolder] and the loop of [discoverAllAssets], which ends before
    the folder listed after the node is enqueued.  A folder with such a
    path raises the same way from the walk of its nested data. *)
Theorem extraction_error_aborts_the_crawl :
  let e := "TypeError: Cannot convert object to primitive value" in
  extractAssetInfo unprintableNode unprintablePath = Thrown e /\
  processDAMData (defaultConfig "http://aem") brokenListing (Str "/content/dam") 0 emptyCrawl
  = (Thrown e, emptyCrawl) /\
  fst (scanFolder (defaultConfig "http://aem") brokenServer (Str "/content/dam") 0 emptyCrawl)
  = Thrown e /\
  (let r := discoverAllAssets (defaultConfig "http://aem") brokenServer 10 emptyCrawl in
   fst (fst r) = Raised e /\ snd (fst r) = [] /\ folderQueue (snd r) = []) /\
  fst (processDAMData (defaultConfig "http://aem") brokenFolderListing (Str "/content/dam") 0
         emptyCrawl) = Thrown e.
Proof.
  cbv zeta. split; [reflexivity|]. split; [reflexivity|]. split; [reflexivity|].
  split; [|reflexivity]. split; [reflexivity|]. split; reflexivity.
Qed.

(** C4 (as amended). A node is recorded as an asset and enqueued as a folder
    by two independent tests.  A node typed [dam:Asset] or
    [dam:AssetContent] is never a folder; and whenever one pass both
    records a node and enqueues it, the node has a folder type and meets
    [isAsset] by what it carries under [jcr:content].  (The pass is taken
    without the exploration of the node's nested data, which records and
    enqueues other nodes.) *)
Theorem classification_exclusive_unless_both_signals : forall cfg,
  (forall primaryType,
     isString primaryType "dam:Asset" || isString primaryType "dam:AssetContent" = true ->
     isFolder primaryType = false) /\
  (forall basePath d key item c,
     let c' := snd (processEntry cfg (fun _ _ c0 => (Normal tt, c0)) basePath d key item c) in
     totalAssets (stats c') <> totalAssets (stats c) ->
     folderQueue c' <> folderQueue c ->
     exists primaryType,
       getProp item "jcr:primaryType" = Normal primaryType /\
       isFolder primaryType = true /\
       isAsset item primaryType = Normal true /\
       isString primaryType "dam:Asset" || isString primaryType "dam:AssetContent" = false).
Proof.
  intros cfg. split.
  - intros [| | b | n | s | items | props]; simpl; try discriminate.
    unfold isFolder; simpl. intros H.
    destruct (String.eqb_spec s "dam:Asset") as [E|E]; [subst s; reflexivity|].
    destruct (String.eqb_spec s "dam:AssetContent") as [E'|E']; [subst s; reflexivity | discriminate].
  - intros basePath d key item c. unfold processEntry.
    destruct (isSystemKey key); [simpl; congruence|].
    destruct (truthy item) eqn:Ti; simpl; [|congruence].
    destruct (typeofObject item); simpl; [|congruence].
    destruct (itemPathOf item basePath key) as [itemPath|e]; simpl; [|congruence].
    destruct (getProp_truthy item "jcr:primaryType" Ti) as [pt Hpt]. rewrite Hpt. simpl.
    destruct (isAsset_total item pt Ti) as [asset Ha]. rewrite Ha. simpl.
    destruct asset.
    + destruct (extractAssetInfo item itemPath) as [extracted|e]; simpl; [|congruence].
      destruct (isFolder pt) eqn:Hf.
      * intros _ _. exists pt. repeat split; auto.
        destruct (isString pt "dam:Asset" || isString pt "dam:AssetContent") eqn:Ht; [|reflexivity].
        exfalso. destruct pt; simpl in Ht; try discriminate.
        unfold isFolder in Hf. simpl in Hf.
        destruct (String.eqb_spec s "dam:Asset") as [E|E]; [subst s; discriminate|].
        destruct (String.eqb_spec s "dam:AssetContent") as [E'|E']; [subst s|]; discriminate.
      * destruct extracted as [info|]; [|simpl; congruence].
        destruct (isValidAsset cfg info); [|simpl; congruence].
        destruct (testLimitReached cfg _); simpl; congruence.
    + simpl. destruct (isFolder pt); [|simpl; congruence].
      match goal with |- context [if ?b then _ else _] => destruct b end; simpl;
        match goal with |- context [if ?b then _ else _] => destruct b end; simpl;
        try match goal with |- context [if ?b then _ else _] => destruct b end; simpl;
        congruence.
Qed.

Lemma classification_exclusive_witness :
  isFolder (Str "dam:Asset") = false /\
  exists primaryType,
    getProp (Obj [("jcr:primaryType", Str "sling:Folder");
                  ("jcr:content", Obj [("renditions", Obj [("original", Obj [])])])])
      "jcr:primaryType" = Normal primaryType /\
    isFolder primaryType = true /\
    isAsset (Obj [("jcr:primaryType", Str "sling:Folder");
                  ("jcr:content", Obj [("renditions", Obj [("original", Obj [])])])])
      primaryType = Normal true /\
    isString primaryType "dam:Asset" || isString primaryType "dam:AssetContent" = false.
Proof.
  destruct (classification_exclusive_unless_both_signals (defaultConfig "http://aem"))
    as [Htyped Hboth].
  split.
  - apply Htyped. reflexivity.
  - apply (Hboth (Str "/content/dam") 0 "pic.png" _ emptyCrawl); vm_compute; discriminate.
Defined.

(** The claim of C4 fails on it: the node is recorded as an asset and its
    path is enqueued for traversal in the same pass. *)
Lemma folder_with_renditions_is_asset_and_folder :
  let c := snd (processDAMData (defaultConfig "http://aem") folderWithRenditions
                  (Str "/content/dam") 0 emptyCrawl) in
  map fst (discoveredAssets c) = [Str "/content/dam/pic.png"] /\
  totalAssets (stats c) = 1 /\
  folderQueue c = [Str "/content/dam/pic.png"].
Proof. vm_compute. repeat split. Qed.

(** ** Tree fetcher: which response is kept *)

Section ProbeLemmas.

Variable cfg : Config.
Variable net : string -> Response.
Variable folderPath : Val.

#[local] Arguments probeSpec : simpl never.

Lemma probeSpec_skip : forall h rest start final asked,
  (forall d, probe cfg net folderPath h = Resolved d -> isStructured d = true ->
             itemCount d <= snd start) ->
  probeSpec cfg net folderPath rest start final asked ->
  probeSpec cfg net folderPath (h :: rest) start final (h :: asked).
Proof.
  intros h rest [[bd bdep] m] [[bd' bdep'] m'] asked Hh (Hpre & Hle & Hmax & Hbest).
  simpl in Hh. unfold probeSpec. split; [|split; [|split]].
  - destruct Hpre as (rest' & -> & Hstop). exists rest'. split; [reflexivity|].
    intros Hne. destruct (Hstop Hne) as (Hbig & before & h' & -> & Hd).
    split; [exact Hbig|]. exists (h :: before), h'. auto.
  - exact Hle.
  - intros h0 d [<-|Hin] Hr Hs; [specialize (Hh d Hr Hs); lia | eauto].
  - destruct Hbest as [Heq | (h0 & d & Hin & Hrest)]; [left; exact Heq|].
    right. exists h0, d. split; [right; exact Hin | exact Hrest].
Qed.

Lemma probeDepths_spec : forall jsonDepths start,
  probeSpec cfg net folderPath jsonDepths start (fst (probeDepths cfg net folderPath jsonDepths start))
    (snd (probeDepths cfg net folderPath jsonDepths start)).
Proof.
  induction jsonDepths as [|h rest IH]; intros [[bd bdep] m].
  - unfold probeSpec. simpl.
    repeat split; [exists []; split; [reflexivity | congruence] | lia | contradiction | auto].
  - simpl.
    destruct (probe cfg net folderPath h) as [e|d] eqn:Hnet.
    + specialize (IH (bd, bdep, m)).
      destruct (probeDepths cfg net folderPath rest (bd, bdep, m)) as [final asked].
      simpl in *. apply probeSpec_skip; [|exact IH]. intros d Hd. congruence.
    + destruct (isStructured d) eqn:Hs.
      * destruct (m <? itemCount d) eqn:Hlt.
        -- apply Z.ltb_lt in Hlt.
           destruct (50 <? itemCount d) eqn:Hbig.
           ++ apply Z.ltb_lt in Hbig. unfold probeSpec. simpl. split; [|split; [|split]].
              ** exists rest. split; [reflexivity|]. intros _. split; [exact Hbig|].
                 exists [], h. auto.
              ** lia.
              ** intros h0 d0 [<-|[]] Hr _. rewrite Hnet in Hr. injection Hr as <-. lia.
              ** right. exists h, d. repeat split; auto; try (now left).
           ++ specialize (IH (Some d, Some h, itemCount d)).
              destruct (probeDepths cfg net folderPath rest (Some d, Some h, itemCount d))
                as [[[bd' bdep'] m'] asked].
              unfold probeSpec in *. simpl in *.
              destruct IH as (Hpre & Hle & Hmax & Hbest). split; [|split; [|split]].
              ** destruct Hpre as (rest' & -> & Hstop). exists rest'. split; [reflexivity|].
                 intros Hne. destruct (Hstop Hne) as (Hb & before & h' & -> & Hd).
                 split; [exact Hb|]. exists (h :: before), h'. auto.
              ** lia.
              ** intros h0 d0 [<-|Hin] Hr Hs0; [|eauto].
                 rewrite Hnet in Hr. injection Hr as <-. lia.
              ** right. destruct Hbest as [Heq | (h0 & d0 & Hin & Hr & Hs0 & -> & -> & -> & Hlt')].
                 --- injection Heq as -> -> ->. exists h, d. repeat split; auto; try (now left).
                 --- exists h0, d0. repeat split; auto; try (now right); try lia.
        -- apply Z.ltb_ge in Hlt. specialize (IH (bd, bdep, m)).
           destruct (probeDepths cfg net folderPath rest (bd, bdep, m)) as [final asked].
           simpl in *. apply probeSpec_skip; [|exact IH].
           intros d0 Hd _. rewrite Hnet in Hd. injection Hd as <-. simpl. lia.
      * specialize (IH (bd, bdep, m)).
        destruct (probeDepths cfg net folderPath rest (bd, bdep, m)) as [final asked].
        simpl in *. apply probeSpec_skip; [|exact IH].
        intros d0 Hd Hs0. rewrite Hnet in Hd. injection Hd as <-. congruence.
Qed.

(** What the probing loop of [searchInFolder] returns. *)
Lemma probeFirst_spec : forall jsonDepths,
  exists rest, jsonDepths = (snd (probeFirst cfg net folderPath jsonDepths) ++ rest)%list /\
    match fst (probeFirst cfg net folderPath jsonDepths) with
    | Some d =>
        exists before h,
          snd (probeFirst cfg net folderPath jsonDepths) = (before ++ [h])%list /\
          probe cfg net folderPath h = Resolved d /\ isStructured d = true /\
          (forall h' d', In h' before -> probe cfg net folderPath h' = Resolved d' ->
                         isStructured d' = false)
    | None =>
        rest = [] /\
        (forall h' d', In h' jsonDepths -> probe cfg net folderPath h' = Resolved d' ->
                       isStructured d' = false)
    end.
Proof.
  induction jsonDepths as [|h rest IH]; simpl.
  - exists []. split; [reflexivity|]. split; [reflexivity | contradiction].
  - assert (Hskip :
      (forall d', probe cfg net folderPath h = Resolved d' -> isStructured d' = false) ->
      exists rest0,
        h :: rest = (snd (let '(r, asked) := probeFirst cfg net folderPath rest in
                          (r, h :: asked)) ++ rest0)%list /\
        match fst (let '(r, asked) := probeFirst cfg net folderPath rest in (r, h :: asked)) with
        | Some d =>
            exists before h0,
              snd (let '(r, asked) := probeFirst cfg net folderPath rest in (r, h :: asked))
              = (before ++ [h0])%list /\
              probe cfg net folderPath h0 = Resolved d /\ isStructured d = true /\
              (forall h' d', In h' before -> probe cfg net folderPath h' = Resolved d' ->
                             isStructured d' = false)
        | None =>
            rest0 = [] /\
            (forall h' d', h = h' \/ In h' rest -> probe cfg net folderPath h' = Resolved d' ->
                           isStructured d' = false)
        end).
    { intros Hh. destruct IH as (rest0 & Heq & Hres).
      destruct (probeFirst cfg net folderPath rest) as [[d|] asked]; simpl in *.
      - exists rest0. split; [congruence|].
        destruct Hres as (before & h0 & -> & Hr & Hs & Hb).
        exists (h :: before), h0. repeat split; auto.
        intros h' d' [<-|Hin]; eauto.
      - destruct Hres as [-> Hall]. exists []. split; [congruence|]. split; [reflexivity|].
        intros h' d' [<-|Hin]; eauto. }
    destruct (probe cfg net folderPath h) as [e|d] eqn:Hnet.
    + apply Hskip. intros d' Hd. congruence.
    + destruct (isStructured d) eqn:Hs.
      * simpl. exists rest. split; [reflexivity|]. exists [], h. repeat split; auto.
        intros h' d' [].
      * apply Hskip. intros d' Hd. injection Hd as <-. exact Hs.
Qed.

End ProbeLemmas.

(** C2 (as amended). In discovery mode the subtree fetch ([scanFolder])
    probes the depth hints in order, counts the non-system child keys of
    each structured response, keeps the response with the highest count
    seen, and leaves hints unprobed only once a count exceeds 50: the kept
    response is one that was probed, its count is [maxItems] and positive,
    and no probed response has a higher count.  In search mode
    ([searchInFolder]) no count is taken: the first structured response is
    kept and probing stops there.  A probe ([probe]) builds the URL and
    requests it; one whose URL cannot be built fails like one whose
    request is rejected. *)
Theorem subtree_fetch_selection : forall cfg net folderPath,
  (forall jsonDepths,
     let r := probeDepths cfg net folderPath jsonDepths (None, None, 0) in
     let bestData := fst (fst (fst r)) in
     let bestDepth := snd (fst (fst r)) in
     let maxItems := snd (fst r) in
     let asked := snd r in
     (exists rest, jsonDepths = (asked ++ rest)%list /\
        (rest <> [] -> 50 < maxItems /\
                       exists before h, asked = (before ++ [h])%list /\ bestDepth = Some h)) /\
     (forall h d, In h asked -> probe cfg net folderPath h = Resolved d ->
                  isStructured d = true -> itemCount d <= maxItems) /\
     match bestData with
     | Some d => exists h, In h asked /\ bestDepth = Some h /\
                           probe cfg net folderPath h = Resolved d /\
                           isStructured d = true /\ itemCount d = maxItems /\ 0 < maxItems
     | None => maxItems = 0
     end) /\
  (forall jsonDepths,
     let r := probeFirst cfg net folderPath jsonDepths in
     exists rest, jsonDepths = (snd r ++ rest)%list /\
       match fst r with
       | Some d =>
           exists before h,
             snd r = (before ++ [h])%list /\
             probe cfg net folderPath h = Resolved d /\ isStructured d = true /\
             (forall h' d', In h' before -> probe cfg net folderPath h' = Resolved d' ->
                            isStructured d' = false)
       | None =>
           rest = [] /\
           (forall h' d', In h' jsonDepths -> probe cfg net folderPath h' = Resolved d' ->
                          isStructured d' = false)
       end).
Proof.
  intros cfg net folderPath. split.
  - intros jsonDepths.
    pose proof (probeDepths_spec cfg net folderPath jsonDepths (None, None, 0)) as H.
    destruct (probeDepths cfg net folderPath jsonDepths (None, None, 0))
      as [[[bestData bestDepth] maxItems] asked].
    unfold probeSpec in H. simpl in *. destruct H as (Hpre & Hle & Hmax & Hbest).
    split; [exact Hpre|]. split; [exact Hmax|].
    destruct Hbest as [Heq | (h & d & Hin & Hr & Hs & -> & -> & -> & Hlt)].
    + injection Heq as -> -> ->. reflexivity.
    + exists h. repeat split; auto.
  - intros jsonDepths. apply probeFirst_spec.
Qed.

Lemma subtree_fetch_selection_witness :
  itemCount fullListing <= 3 /\
  (forall h' d', In h' [] -> probe (defaultConfig "http://aem") twoListings
                                   (Str "/content/dam") h' = Resolved d' ->
                 isStructured d' = false).
Proof.
  destruct (subtree_fetch_selection (defaultConfig "http://aem") twoListings (Str "/content/dam"))
    as [Hscan Hsearch].
  split.
  - destruct (Hscan (scanDepths (defaultConfig "http://aem"))) as (_ & Hmax & _).
    apply (Hmax ".json" fullListing); [vm_compute; tauto | reflexivity | reflexivity].
  - destruct (Hsearch [".1.json"]) as (rest & _ & Hfirst).
    intros h' d' [].
Defined.

(** The claim of C2 fails in search mode: the first structured response
    (one child) is kept although the next depth hint lists three, which
    is the response discovery keeps. *)
Lemma search_probe_keeps_first_response :
  probeFirst (defaultConfig "http://aem") twoListings (Str "/content/dam") searchDepths
    = (Some shallowListing, [".1.json"]) /\
  itemCount shallowListing = 1 /\
  twoListings "http://aem/content/dam.json" = Resolved fullListing /\
  itemCount fullListing = 3 /\
  fst (probeDepths (defaultConfig "http://aem") twoListings (Str "/content/dam")
         (scanDepths (defaultConfig "http://aem")) (None, None, 0))
    = (Some fullListing, Some ".json", 3).
Proof. vm_compute. repeat split. Qed.

(** ** What one folder fetch does to the crawl state *)

Lemma emitRequests_trace : forall cfg folderPath asked c,
  trace (emitRequests cfg folderPath asked c)
  = (trace c ++ requestEvents cfg folderPath asked)%list.
Proof.
  intros cfg folderPath asked. unfold emitRequests, requestEvents.
  induction asked as [|h rest IH]; intros c; simpl.
  - now rewrite app_nil_r.
  - rewrite IH. destruct (probeUrl cfg folderPath h) as [url|e]; simpl;
      [now rewrite <- app_assoc | reflexivity].
Qed.

Lemma emitRequests_same : forall cfg folderPath asked c,
  processedPaths (emitRequests cfg folderPath asked c) = processedPaths c /\
  stats (emitRequests cfg folderPath asked c) = stats c /\
  folderQueue (emitRequests cfg folderPath asked c) = folderQueue c.
Proof.
  intros cfg folderPath asked. unfold emitRequests.
  induction asked as [|h rest IH]; intros c; simpl; [auto|].
  destruct (probeUrl cfg folderPath h) as [url|e]; [|apply IH].
  destruct (IH (emit (EvRequest url) c)) as (H1 & H2 & H3).
  rewrite H1, H2, H3. auto.
Qed.

Lemma scanFolder_effect : forall cfg net folderPath d c,
  processedPaths (snd (scanFolder cfg net folderPath d c)) = processedPaths c /\
  if maxDepth cfg <? d
  then trace (snd (scanFolder cfg net folderPath d c)) = trace c /\
       foldersScanned (stats (snd (scanFolder cfg net folderPath d c))) = foldersScanned (stats c)
  else (exists asked, trace (snd (scanFolder cfg net folderPath d c))
                      = (trace c ++ fetchEvents cfg folderPath asked)%list) /\
       foldersScanned (stats (snd (scanFolder cfg net folderPath d c)))
       = foldersScanned (stats c) + 1.
Proof.
  intros cfg net folderPath d c. unfold scanFolder.
  destruct (maxDepth cfg <? d); [auto|].
  destruct (probeDepths cfg net folderPath (scanDepths cfg) (None, None, 0))
    as [[[bestData bestDepth] maxItems] asked].
  set (c1 := emitRequests cfg folderPath asked
               (emit (EvFetchTree folderPath) (setStats (incrFoldersScanned (stats c)) c))).
  assert (Ht : trace c1 = (trace c ++ fetchEvents cfg folderPath asked)%list).
  { subst c1. rewrite emitRequests_trace. simpl. now rewrite <- app_assoc. }
  destruct (emitRequests_same cfg folderPath asked
              (emit (EvFetchTree folderPath) (setStats (incrFoldersScanned (stats c)) c)))
    as (Hp & Hs & _).
  fold c1 in Hp, Hs. simpl in Hp, Hs.
  destruct bestData as [data|]; simpl.
  - destruct (processDAMData_quiet cfg data folderPath d c1) as (Hq1 & Hq2 & Hq3).
    rewrite Hq1, Hq2, Hq3, Hp, Hs, Ht. simpl. eauto.
  - rewrite Hp, Hs, Ht. simpl. eauto.
Qed.

Section SearchLemmas.

Variable cfg : Config.
Variable net : string -> Response.
Variable matcher : AssetInfo -> Completion (list string * option AssetInfo).

(** A property every record the matching block lets through has. *)
Variable Q : AssetInfo -> Prop.
Hypothesis matcher_Q : forall a tested a',
  matcher a = Normal (tested, Some a') -> Q a'.

Lemma searchEntry_ok : forall recurse basePath key item matches c,
  (forall p c0, searchOk Q (recurse p c0) c0) ->
  Forall Q matches ->
  searchOk Q (searchEntry matcher recurse basePath key item matches c) c.
Proof.
  intros recurse basePath key item matches c Hrec HQ. unfold searchEntry, searchOk.
  destruct (isSystemKey key);
    [split; [apply quiet_refl | simpl; intros ms E; injection E as <-; exact HQ]|].
  destruct (negb (truthy item) || negb (typeofObject item));
    [split; [apply quiet_refl | simpl; intros ms E; injection E as <-; exact HQ]|].
  destruct (itemPathOf item basePath key) as [itemPath|e]; simpl;
    [|split; [apply quiet_refl | discriminate]].
  destruct (getProp item "jcr:primaryType") as [pt|e]; simpl;
    [|split; [apply quiet_refl | discriminate]].
  destruct (isAsset item pt) as [asset|e]; simpl;
    [|split; [apply quiet_refl | discriminate]].
  assert (Hfound : forall found,
            (forall a', found = Some a' -> Q a') ->
            quiet c (snd (let matches1 := match found with
                                           | Some assetInfo => (matches ++ [assetInfo])%list
                                           | None => matches
                                           end in
                          if isFolder pt then
                            match recurse itemPath
                                    (if negb (has itemPath (processedPaths c))
                                     then setQueue (folderQueue c ++ [itemPath]) c else c) with
                            | (Thrown e, c2) => (Thrown e, c2)
                            | (Normal nestedMatches, c2) =>
                                (Normal (matches1 ++ nestedMatches)%list, c2)
                            end
                          else (Normal matches1, c))) /\
            forall ms,
              fst (let matches1 := match found with
                                   | Some assetInfo => (matches ++ [assetInfo])%list
                                   | None => matches
                                   end in
                   if isFolder pt then
                     match recurse itemPath
                             (if negb (has itemPath (processedPaths c))
                              then setQueue (folderQueue c ++ [itemPath]) c else c) with
                     | (Thrown e, c2) => (Thrown e, c2)
                     | (Normal nestedMatches, c2) =>
                         (Normal (matches1 ++ nestedMatches)%list, c2)
                     end
                   else (Normal matches1, c)) = Normal ms -> Forall Q ms).
  { intros found Hf.
    assert (HQ1 : Forall Q (match found with
                            | Some assetInfo => (matches ++ [assetInfo])%list
                            | None => matches
                            end)).
    { destruct found as [a'|]; [|exact HQ]. apply Forall_app. split; [exact HQ|].
      constructor; [now apply Hf | constructor]. }
    simpl. destruct (isFolder pt).
    - set (c1 := if negb (has itemPath (processedPaths c))
                 then setQueue (folderQueue c ++ [itemPath]) c else c).
      assert (Hq1 : quiet c c1).
      { subst c1. destruct (negb (has itemPath (processedPaths c))); auto with crawl. }
      destruct (Hrec itemPath c1) as [Hq2 HQ2].
      destruct (recurse itemPath c1) as [[nested|e] c2]; simpl in *.
      + split; [eauto using quiet_trans|]. intros ms E. injection E as <-.
        apply Forall_app. split; [exact HQ1 | now apply HQ2].
      + split; [eauto using quiet_trans | discriminate].
    - simpl. split; [apply quiet_refl|]. intros ms E. injection E as <-. exact HQ1. }
  destruct asset; simpl.
  - destruct (extractAssetInfo item itemPath) as [[info|]|e]; simpl.
    + destruct (matcher info) as [[tested found]|e] eqn:Em; simpl.
      * apply (Hfound found). intros a' ->. eapply matcher_Q; eauto.
      * split; [apply quiet_refl | discriminate].
    + apply (Hfound None). discriminate.
    + split; [apply quiet_refl | discriminate].
  - apply (Hfound None). discriminate.
Qed.

Lemma searchData_ok : forall data basePath c,
  searchOk Q (searchData matcher data basePath c) c.
Proof.
  induction data as [| | b | n | s | items IH | props IH] using Val_nested_ind;
    intros basePath c;
    try (split; [apply quiet_refl | simpl; intros ms E; injection E as <-; constructor]).
  - simpl. generalize 0%nat as i.
    assert (Hnil : Forall Q []) by constructor. revert Hnil. generalize (@nil AssetInfo) as acc.
    revert c.
    induction IH as [|item rest Hitem _ IHrest]; intros c acc Hacc i.
    + split; [apply quiet_refl | simpl; intros ms E; injection E as <-; exact Hacc].
    + destruct (searchEntry_ok (searchData matcher item) basePath (indexKey i) item acc c)
        as [Hq HQ']; [intros p c0; apply Hitem | exact Hacc |].
      destruct (searchEntry matcher (searchData matcher item) basePath (indexKey i) item acc c)
        as [[ms'|e] c'] eqn:E; simpl in *.
      * destruct (IHrest c' ms' (HQ' ms' eq_refl) (S i)) as [Hq2 HQ2].
        split; [eauto using quiet_trans | exact HQ2].
      * split; [exact Hq | discriminate].
  - simpl.
    assert (Hnil : Forall Q []) by constructor. revert Hnil. generalize (@nil AssetInfo) as acc.
    revert c.
    induction IH as [|[key item] rest Hitem _ IHrest]; intros c acc Hacc.
    + split; [apply quiet_refl | simpl; intros ms E; injection E as <-; exact Hacc].
    + simpl in Hitem.
      destruct (searchEntry_ok (searchData matcher item) basePath key item acc c)
        as [Hq HQ']; [intros p c0; apply Hitem | exact Hacc |].
      destruct (searchEntry matcher (searchData matcher item) basePath key item acc c)
        as [[ms'|e] c'] eqn:E; simpl in *.
      * destruct (IHrest c' ms' (HQ' ms' eq_refl)) as [Hq2 HQ2].
        split; [eauto using quiet_trans | exact HQ2].
      * split; [exact Hq | discriminate].
Qed.

Lemma searchFolder_effect : forall folderPath c,
  processedPaths (snd (searchFolder cfg net matcher folderPath c)) = processedPaths c /\
  (exists asked, trace (snd (searchFolder cfg net matcher folderPath c))
                 = (trace c ++ fetchEvents cfg folderPath asked)%list) /\
  foldersScanned (stats (snd (searchFolder cfg net matcher folderPath c)))
  = foldersScanned (stats c) + 1 /\
  forall ms, fst (searchFolder cfg net matcher folderPath c) = Normal ms -> Forall Q ms.
Proof.
  intros folderPath c. unfold searchFolder.
  destruct (probeFirst cfg net folderPath searchDepths) as [bestData asked].
  set (c1 := emitRequests cfg folderPath asked
               (emit (EvFetchTree folderPath) (setStats (incrFoldersScanned (stats c)) c))).
  assert (Ht : trace c1 = (trace c ++ fetchEvents cfg folderPath asked)%list).
  { subst c1. rewrite emitRequests_trace. simpl. now rewrite <- app_assoc. }
  destruct (emitRequests_same cfg folderPath asked
              (emit (EvFetchTree folderPath) (setStats (incrFoldersScanned (stats c)) c)))
    as (Hp & Hs & _).
  fold c1 in Hp, Hs. simpl in Hp, Hs.
  destruct bestData as [data|]; simpl.
  - destruct (searchData_ok data folderPath c1) as ((Hq1 & Hq2 & Hq3) & HQ).
    rewrite Hq1, Hq2, Hq3, Hp, Hs, Ht. simpl. eauto.
  - rewrite Hp, Hs, Ht. simpl. repeat split; eauto.
    intros ms E. injection E as <-. constructor.
Qed.

End SearchLemmas.

(** ** Processed set and fetch events *)

Lemma sameValueZero_eq : forall a b, sameValueZero a b = true -> a = b.
Proof.
  intros [| | x | x | x | x | x] [| | y | y | y | y | y]; simpl; intros H;
    try discriminate; try reflexivity.
  - f_equal. now apply Bool.eqb_prop.
  - f_equal. now apply Z.eqb_eq.
  - f_equal. now apply String.eqb_eq.
Qed.

(** For a string path, being the same key is being the same string. *)
Lemma sameValueZero_string : forall q s, sameValueZero q (Str s) = true <-> q = Str s.
Proof.
  intros q s. split.
  - apply sameValueZero_eq.
  - intros ->. simpl. apply String.eqb_refl.
Qed.

Lemma has_app : forall p s1 s2, has p (s1 ++ s2) = has p s1 || has p s2.
Proof. intros. unfold has. apply existsb_app. Qed.

Lemma has_add_keeps : forall p q set, has p set = true -> has p (add q set) = true.
Proof.
  intros p q set H. unfold add. destruct (has q set); [exact H|].
  rewrite has_app, H. reflexivity.
Qed.

Lemma has_add_same : forall p q set, sameValueZero q p = true -> has p (add q set) = true.
Proof.
  intros p q set H. pose proof (sameValueZero_eq _ _ H) as ->.
  unfold add. destruct (has p set) eqn:E; [exact E|].
  rewrite has_app. simpl. rewrite H. now rewrite orb_true_r.
Qed.

Lemma countFetch_app : forall p t1 t2,
  countFetch p (t1 ++ t2) = (countFetch p t1 + countFetch p t2)%nat.
Proof. intros. unfold countFetch. now rewrite filter_app, length_app. Qed.

Lemma countSleeps_app : forall t1 t2,
  countSleeps (t1 ++ t2) = (countSleeps t1 + countSleeps t2)%nat.
Proof. intros. unfold countSleeps. now rewrite filter_app, length_app. Qed.

Lemma countFetch_requests : forall cfg folderPath p asked,
  countFetch p (requestEvents cfg folderPath asked) = 0%nat.
Proof.
  intros. unfold requestEvents. induction asked as [|h rest IH]; simpl; [reflexivity|].
  rewrite countFetch_app, IH. destruct (probeUrl cfg folderPath h); reflexivity.
Qed.

Lemma countFetch_fetchEvents : forall cfg folderPath p asked,
  countFetch p (fetchEvents cfg folderPath asked)
  = if sameValueZero folderPath p then 1%nat else 0%nat.
Proof.
  intros. unfold fetchEvents.
  change (EvFetchTree folderPath :: ?l) with ([EvFetchTree folderPath] ++ l)%list.
  rewrite countFetch_app, countFetch_requests. unfold countFetch. simpl.
  destruct (sameValueZero folderPath p); reflexivity.
Qed.

Lemma countSleeps_fetchEvents : forall cfg folderPath asked,
  countSleeps (fetchEvents cfg folderPath asked) = 0%nat.
Proof.
  intros. unfold fetchEvents, requestEvents.
  change (EvFetchTree folderPath :: ?l) with ([EvFetchTree folderPath] ++ l)%list.
  rewrite countSleeps_app. simpl.
  induction asked as [|h rest IH]; simpl; [reflexivity|].
  rewrite countSleeps_app, IH. destruct (probeUrl cfg folderPath h); reflexivity.
Qed.

Lemma fetchedOnce_refl : forall c, fetchedOnce c c.
Proof.
  intros c. exists []. rewrite app_nil_r. unfold countFetch. repeat split; auto; simpl; lia.
Qed.

(** One iteration that fetched [currentPath] and possibly slept, followed
    by a run that is [fetchedOnce]. *)
Lemma fetchedOnce_step : forall cfg c currentPath asked pause c1 c2,
  has currentPath (processedPaths c) = false ->
  processedPaths c1 = add currentPath (processedPaths c) ->
  trace c1 = ((trace c ++ fetchEvents cfg currentPath asked) ++ pause)%list ->
  (forall p, countFetch p pause = 0%nat) ->
  fetchedOnce c1 c2 ->
  fetchedOnce c c2.
Proof.
  intros cfg c currentPath asked pause c1 c2 Hnew Hproc Htrace Hpause (new & Ht & Hmono & Hcount).
  exists ((fetchEvents cfg currentPath asked ++ pause) ++ new)%list. split; [|split].
  - rewrite Ht, Htrace. now rewrite !app_assoc.
  - intros p Hp. apply Hmono. rewrite Hproc. now apply has_add_keeps.
  - intros p. destruct (Hcount p) as (Hle & Hzero & Hin).
    rewrite !countFetch_app, countFetch_fetchEvents, Hpause.
    destruct (sameValueZero currentPath p) eqn:E.
    + assert (Hp1 : has p (processedPaths c1) = true) by (rewrite Hproc; now apply has_add_same).
      rewrite (Hzero Hp1). repeat split; try lia.
      * intros Hp. pose proof (sameValueZero_eq _ _ E) as <-. congruence.
      * intros _. now apply Hmono.
    + repeat split; try lia.
      * intros Hp. simpl. apply Hzero. rewrite Hproc. now apply has_add_keeps.
      * intros H1. apply Hin. lia.
Qed.

Lemma fetchedOnce_setQueue : forall q c c', fetchedOnce (setQueue q c) c' -> fetchedOnce c c'.
Proof. intros q c c' H. exact H. Qed.

Lemma discoverLoop_fetchedOnce : forall cfg net fuel c,
  fetchedOnce c (snd (discoverLoop cfg net fuel c)).
Proof.
  intros cfg net fuel. induction fuel as [|fuel IH]; intros c; simpl;
    [apply fetchedOnce_refl|].
  destruct (folderQueue c) as [|currentPath rest] eqn:Eq; [apply fetchedOnce_refl|].
  destruct (has currentPath (processedPaths c)) eqn:Eh.
  - apply (fetchedOnce_setQueue rest). apply IH.
  - match goal with |- context [scanFolder cfg net currentPath 0 ?c0] =>
      pose proof (scanFolder_effect cfg net currentPath 0 c0) as Heff;
      destruct (scanFolder cfg net currentPath 0 c0) as [r c']
    end.
    simpl in Heff. destruct Heff as [Hproc Hrest].
    destruct (maxDepth cfg <? 0) eqn:Ed.
    + (* the depth guard returns at once: no fetch at all *)
      destruct Hrest as [Htrace _].
      assert (Hstep : forall c2, processedPaths c2 = processedPaths c' ->
                (exists pause, trace c2 = (trace c' ++ pause)%list /\
                               forall p, countFetch p pause = 0%nat) ->
                forall c3, fetchedOnce c2 c3 -> fetchedOnce c c3).
      { intros c2 Hp2 (pause & Ht2 & Hpause) c3 (new & Ht & Hmono & Hcount).
        exists (pause ++ new)%list. split; [|split].
        - rewrite Ht, Ht2, Htrace. now rewrite app_assoc.
        - intros p Hp. apply Hmono. rewrite Hp2, Hproc. now apply has_add_keeps.
        - intros p. destruct (Hcount p) as (Hle & Hzero & Hin).
          rewrite countFetch_app, Hpause. simpl. repeat split; auto.
          intros Hp. apply Hzero. rewrite Hp2, Hproc. now apply has_add_keeps. }
      assert (Hend : fetchedOnce c c').
      { apply (Hstep c'); [reflexivity | exists []; split;
          [now rewrite app_nil_r | reflexivity] | apply fetchedOnce_refl]. }
      destruct r as [u|e]; [|exact Hend].
      destruct (testLimitReached cfg c'); [exact Hend|].
      destruct (discoveryDelayDue cfg c').
      * apply (Hstep (emit (EvSleep (sleepTime cfg)) c'));
          [reflexivity | exists [EvSleep (sleepTime cfg)]; split; reflexivity | apply IH].
      * apply (Hstep c'); [reflexivity | exists []; split;
          [now rewrite app_nil_r | reflexivity] | apply IH].
    + destruct Hrest as [[asked Htrace] _].
      assert (Hend : fetchedOnce c c').
      { apply (fetchedOnce_step cfg c currentPath asked [] c' c'); auto.
        - now rewrite app_nil_r.
        - apply fetchedOnce_refl. }
      destruct r as [u|e]; [|exact Hend].
      destruct (testLimitReached cfg c'); [exact Hend|].
      destruct (discoveryDelayDue cfg c').
      * apply (fetchedOnce_step cfg c currentPath asked [EvSleep (sleepTime cfg)]
                 (emit (EvSleep (sleepTime cfg)) c')); auto.
        simpl. now rewrite Htrace.
      * apply (fetchedOnce_step cfg c currentPath asked [] c'); auto.
        now rewrite app_nil_r.
Qed.

Lemma findLoop_fetchedOnce : forall cfg net matcher fuel found c,
  fetchedOnce c (snd (findLoop cfg net matcher fuel found c)).
Proof.
  intros cfg net matcher fuel. induction fuel as [|fuel IH]; intros found c; simpl;
    [apply fetchedOnce_refl|].
  destruct (folderQueue c) as [|currentPath rest] eqn:Eq; [apply fetchedOnce_refl|].
  destruct (has currentPath (processedPaths c)) eqn:Eh.
  - apply (fetchedOnce_setQueue rest). apply IH.
  - match goal with |- context [searchFolder cfg net matcher currentPath ?c0] =>
      pose proof (searchFolder_effect cfg net matcher (fun _ => True) (fun _ _ _ _ => I)
                    currentPath c0) as Heff;
      destruct (searchFolder cfg net matcher currentPath c0) as [r c']
    end.
    simpl in Heff. destruct Heff as (Hproc & [asked Htrace] & _ & _).
    destruct r as [matches|e].
    + destruct (searchDelayDue c').
      * apply (fetchedOnce_step cfg c currentPath asked [EvSleep (sleepTime cfg)]
                 (emit (EvSleep (sleepTime cfg)) c')); auto.
        simpl. now rewrite Htrace.
      * apply (fetchedOnce_step cfg c currentPath asked [] c'); auto.
        now rewrite app_nil_r.
    + simpl. apply (fetchedOnce_step cfg c currentPath asked [] c' c'); auto.
      * now rewrite app_nil_r.
      * apply fetchedOnce_refl.
Qed.

(** C5. At-most-once visitation.  Whatever the state a crawl starts in and
    however long it runs, the tree fetch is invoked at most once for any
    path (the events it adds to the trace hold at most one [EvFetchTree]
    per path), never for a path that was in the processed set before, and
    every path it was invoked for is in the processed set.  This holds for
    discovery ([discoverAllAssets]) and for search ([findAssets],
    [findMultipleAssets]).  Paths are told apart as the processed set
    tells them apart ([sameValueZero]): strings, which paths are unless a
    node carries a [jcr:path] of another type, by equality. *)
Theorem fetch_at_most_once : forall cfg net,
  (forall fuel c,
     exists new,
       trace (snd (discoverAllAssets cfg net fuel c)) = (trace c ++ new)%list /\
       forall p,
         (countFetch p new <= 1)%nat /\
         (has p (processedPaths c) = true -> countFetch p new = 0%nat) /\
         ((1 <= countFetch p new)%nat ->
          has p (processedPaths (snd (discoverAllAssets cfg net fuel c))) = true)) /\
  (forall matcher fuel c,
     exists new,
       trace (snd (findWith cfg net matcher fuel c)) = (trace c ++ new)%list /\
       forall p,
         (countFetch p new <= 1)%nat /\
         (has p (processedPaths c) = true -> countFetch p new = 0%nat) /\
         ((1 <= countFetch p new)%nat ->
          has p (processedPaths (snd (findWith cfg net matcher fuel c))) = true)).
Proof.
  intros cfg net. split.
  - intros fuel c. unfold discoverAllAssets.
    pose proof (discoverLoop_fetchedOnce cfg net fuel
                  (setQueue (folderQueue c ++ [Str "/content/dam"]) c)) as H.
    destruct (discoverLoop cfg net fuel (setQueue (folderQueue c ++ [Str "/content/dam"]) c))
      as [r c'].
    simpl in *. destruct H as (new & Ht & _ & Hcount). exists new. split; auto.
  - intros matcher fuel c. unfold findWith.
    pose proof (findLoop_fetchedOnce cfg net matcher fuel []
                  (setQueue (folderQueue c ++ [Str "/content/dam"]) c)) as H.
    destruct (findLoop cfg net matcher fuel [] (setQueue (folderQueue c ++ [Str "/content/dam"]) c))
      as [[r found] c'].
    simpl in *. destruct H as (new & Ht & _ & Hcount). exists new. split; auto.
Qed.

(** ** Politeness delay *)

Lemma discoverLoop_never_sleeps_when_off : forall cfg net fuel c,
  adaptiveDelay cfg = false ->
  countSleeps (trace (snd (discoverLoop cfg net fuel c))) = countSleeps (trace c).
Proof.
  intros cfg net fuel. induction fuel as [|fuel IH]; intros c Hoff; simpl; [reflexivity|].
  destruct (folderQueue c) as [|currentPath rest]; [reflexivity|].
  destruct (has currentPath (processedPaths c)); [now rewrite IH|].
  match goal with |- context [scanFolder cfg net currentPath 0 ?c0] =>
    pose proof (scanFolder_effect cfg net currentPath 0 c0) as Heff;
    destruct (scanFolder cfg net currentPath 0 c0) as [r c']
  end.
  simpl in Heff. destruct Heff as [_ Hrest].
  assert (Hs : countSleeps (trace c') = countSleeps (trace c)).
  { destruct (maxDepth cfg <? 0).
    - destruct Hrest as [-> _]. reflexivity.
    - destruct Hrest as [[asked ->] _].
      now rewrite countSleeps_app, countSleeps_fetchEvents, Nat.add_0_r. }
  destruct r as [u|e]; [|exact Hs].
  destruct (testLimitReached cfg c'); [exact Hs|].
  unfold discoveryDelayDue. rewrite Hoff. simpl. now rewrite IH.
Qed.

(** C3 (as amended). The two traversals do not share one cadence.  After a
    folder fetch the discovery loop suspends for [sleepTime] exactly when
    the [adaptiveDelay] setting is on and the count of folders scanned is a
    multiple of 10 (with the setting off it never suspends); the search
    loop suspends exactly when that count is a multiple of 5, whatever the
    setting.  (A fetch that ends the loop, by the test limit or by an
    exception, is followed by no suspension.) *)
Theorem politeness_delay_cadence : forall cfg net,
  (forall c currentPath rest,
     folderQueue c = currentPath :: rest ->
     has currentPath (processedPaths c) = false ->
     let scanned := scanFolder cfg net currentPath 0
                      (setProcessed (add currentPath (processedPaths c))
                         (setQueue rest c)) in
     (forall e, fst scanned <> Thrown e) ->
     testLimitReached cfg (snd scanned) = false ->
     trace (snd (discoverLoop cfg net 1 c))
     = (trace (snd scanned)
        ++ if adaptiveDelay cfg && (Z.rem (foldersScanned (stats (snd scanned))) 10 =? 0)
           then [EvSleep (sleepTime cfg)] else [])%list) /\
  (forall matcher found c currentPath rest,
     folderQueue c = currentPath :: rest ->
     has currentPath (processedPaths c) = false ->
     let searched := searchFolder cfg net matcher currentPath
                       (setProcessed (add currentPath (processedPaths c))
                          (setQueue rest c)) in
     (forall e, fst searched <> Thrown e) ->
     trace (snd (findLoop cfg net matcher 1 found c))
     = (trace (snd searched)
        ++ if Z.rem (foldersScanned (stats (snd searched))) 5 =? 0
           then [EvSleep (sleepTime cfg)] else [])%list) /\
  (forall fuel c,
     adaptiveDelay cfg = false ->
     countSleeps (trace (snd (discoverLoop cfg net fuel c))) = countSleeps (trace c)).
Proof.
  intros cfg net. split; [|split].
  - intros c currentPath rest Hq Hh. simpl. rewrite Hq, Hh.
    destruct (scanFolder cfg net currentPath 0 _) as [[u|e] c']; simpl.
    + intros _ ->. unfold discoveryDelayDue.
      destruct (adaptiveDelay cfg && (Z.rem (foldersScanned (stats c')) 10 =? 0)); simpl;
        [reflexivity | now rewrite app_nil_r].
    + intros H. exfalso. now apply (H e).
  - intros matcher found c currentPath rest Hq Hh. simpl. rewrite Hq, Hh.
    destruct (searchFolder cfg net matcher currentPath _) as [[ms|e] c']; simpl.
    + intros _. unfold searchDelayDue.
      destruct (Z.rem (foldersScanned (stats c')) 5 =? 0); simpl;
        [reflexivity | now rewrite app_nil_r].
    + intros H. exfalso. now apply (H e).
  - intros. now apply discoverLoop_never_sleeps_when_off.
Qed.

Lemma politeness_delay_cadence_witness :
  countSleeps (trace (snd (discoverLoop (defaultConfig "http://aem") offline 1 (crawlAfter 9))))
  = 1%nat /\
  countSleeps (trace (snd (findLoop (defaultConfig "http://aem") offline (matchSingle "logo") 1 []
                             (crawlAfter 4)))) = 1%nat /\
  countSleeps (trace (snd (discoverLoop (withoutAdaptiveDelay (defaultConfig "http://aem"))
                             offline 1 (crawlAfter 9)))) = 0%nat.
Proof.
  destruct (politeness_delay_cadence (defaultConfig "http://aem") offline) as (Hd & Hs & _).
  destruct (politeness_delay_cadence (withoutAdaptiveDelay (defaultConfig "http://aem")) offline)
    as (_ & _ & Hoff).
  split; [|split].
  - rewrite (Hd (crawlAfter 9) (Str "/content/dam") []);
      [reflexivity | reflexivity | reflexivity | discriminate | reflexivity].
  - rewrite (Hs (matchSingle "logo") [] (crawlAfter 4) (Str "/content/dam") []);
      [reflexivity | reflexivity | reflexivity | discriminate].
  - rewrite (Hoff 1%nat (crawlAfter 9)); reflexivity.
Defined.

(** The claim of C3 fails: after the fifth folder the search loop suspends
    and the discovery loop does not; and with [adaptiveDelay] off the
    discovery loop does not suspend after the tenth folder either, while
    the search loop does. *)
Lemma delay_cadence_differs :
  countSleeps (trace (snd (discoverLoop (defaultConfig "http://aem") offline 1 (crawlAfter 4))))
  = 0%nat /\
  countSleeps (trace (snd (findLoop (defaultConfig "http://aem") offline (matchSingle "logo") 1 []
                             (crawlAfter 4)))) = 1%nat /\
  countSleeps (trace (snd (discoverLoop (withoutAdaptiveDelay (defaultConfig "http://aem"))
                             offline 1 (crawlAfter 9)))) = 0%nat /\
  countSleeps (trace (snd (findLoop (withoutAdaptiveDelay (defaultConfig "http://aem")) offline
                             (matchSingle "logo") 1 [] (crawlAfter 9)))) = 1%nat.
Proof. vm_compute. repeat split. Qed.

(** A fetch that raises ends the loop: the tenth folder is counted as
    scanned and no suspension follows. *)
Example raising_fetch_is_followed_by_no_pause :
  let r := discoverLoop (defaultConfig "http://aem") brokenServer 1 (crawlAfter 9) in
  fst r = Raised "TypeError: Cannot convert object to primitive value" /\
  foldersScanned (stats (snd r)) = 10 /\
  countSleeps (trace (snd r)) = 0%nat.
Proof. vm_compute. repeat split. Qed.

(** ** Matcher *)



Lemma existsb_path_In : forall m found,
  existsb (fun a => (path a =? path m)%string) found = false ->
  ~ In (path m) (map path found).
Proof.
  intros m found. induction found as [|a rest IH]; simpl; [tauto|].
  intros H. apply orb_false_iff in H. destruct H as [Ha Hrest].
  intros [Heq | Hin]; [|now apply IH].
  apply String.eqb_neq in Ha. congruence.
Qed.

Lemma collectMatches_keeps : forall (Q : AssetInfo -> Prop) matches found,
  Forall Q matches ->
  NoDup (map path found) /\ Forall Q found ->
  NoDup (map path (collectMatches matches found)) /\ Forall Q (collectMatches matches found).
Proof.
  intros Q matches. unfold collectMatches.
  induction matches as [|m rest IH]; intros found HQ [Hnd Hf]; simpl; [auto|].
  inversion HQ as [|? ? Hm Hrest]; subst.
  apply IH; [exact Hrest|].
  destruct (existsb (fun a => (path a =? path m)%string) found) eqn:E; [auto|].
  split.
  - rewrite map_app. simpl. apply NoDup_app; [exact Hnd | repeat constructor; auto |].
    intros x Hin [<-|[]]. revert Hin. now apply existsb_path_In.
  - apply Forall_app. auto.
Qed.

Lemma findLoop_keeps : forall cfg net matcher (Q : AssetInfo -> Prop),
  (forall a tested a', matcher a = Normal (tested, Some a') -> Q a') ->
  forall fuel found c,
    NoDup (map path found) /\ Forall Q found ->
    NoDup (map path (snd (fst (findLoop cfg net matcher fuel found c)))) /\
    Forall Q (snd (fst (findLoop cfg net matcher fuel found c))).
Proof.
  intros cfg net matcher Q HQ fuel. induction fuel as [|fuel IH]; intros found c H; simpl;
    [exact H|].
  destruct (folderQueue c) as [|currentPath rest]; [exact H|].
  destruct (has currentPath (processedPaths c)); [now apply IH|].
  match goal with |- context [searchFolder cfg net matcher currentPath ?c0] =>
    pose proof (searchFolder_effect cfg net matcher Q HQ currentPath c0) as Heff;
    destruct (searchFolder cfg net matcher currentPath c0) as [r c']
  end.
  simpl in Heff. destruct Heff as (_ & _ & _ & Hms).
  destruct r as [matches|e]; [|exact H].
  apply IH. apply collectMatches_keeps; [now apply Hms | exact H].
Qed.



(** The matching step itself raises when the title or the description of
    a record is not a string (a multi-valued [dc:title]): the exception is
    not caught by the search. *)
Example checkPatternMatch_raises_on_array_title :
  checkPatternMatch arrayTitled "a"
  = Thrown "TypeError: toLowerCase is not a function".
Proof. reflexivity. Qed.

(** ** Download engine *)

(** The resume test, read as a proposition. *)
Lemma resumeSkip_spec : forall assetInfo existingSize,
  resumeSkip assetInfo existingSize = true <->
  (0 < size assetInfo /\ Z.abs (Z.of_N existingSize - size assetInfo) < 1000) \/
  100 < Z.of_N existingSize.
Proof.
  intros a e. unfold resumeSkip.
  destruct (0 <? size a) eqn:E1; destruct (Z.abs (Z.of_N e - size a) <? 1000) eqn:E2;
    destruct (100 <? Z.of_N e) eqn:E3; simpl;
    rewrite ?Z.ltb_lt, ?Z.ltb_ge in *; split; intros H; try reflexivity; try discriminate;
    try (left; split; assumption); try (right; assumption);
    destruct H as [[H1 H2]|H3]; lia.
Qed.

Section RetrievalLemmas.

Variable cfg : Config.
Variable fetch : string -> Attempt.

(** The loop requests the candidates in order, starting with the first. *)
Lemma tryUrls_asks_first : forall url rest file lastError,
  exists asked, snd (tryUrls fetch (url :: rest) file lastError) = url :: asked.
Proof.
  intros url rest file lastError. simpl.
  destruct (fetch url) as [e | n e | n].
  - destruct (tryUrls fetch rest _ _) as [[[r f] e'] asked]. simpl. eauto.
  - destruct (tryUrls fetch rest _ _) as [[[r f] e'] asked]. simpl. eauto.
  - destruct (0 <? n)%N; [simpl; eauto|].
    destruct (tryUrls fetch rest _ _) as [[[r f] e'] asked]. simpl. eauto.
Qed.

Lemma tryUrls_skips_unsuccessful : forall before rest file lastError,
  Forall (fun u => unsuccessful (fetch u)) before ->
  exists file' lastError',
    tryUrls fetch (before ++ rest) file lastError
    = (let '(r, f, e, asked) := tryUrls fetch rest file' lastError' in
       (r, f, e, (before ++ asked)%list)).
Proof.
  induction before as [|u before IH]; intros rest file lastError H.
  - exists file, lastError. simpl.
    destruct (tryUrls fetch rest file lastError) as [[[r f] e] asked]. reflexivity.
  - inversion H as [|? ? Hu Hrest]; subst. simpl.
    destruct (fetch u) as [e | n e | n]; simpl in Hu; [| |subst n; simpl];
      match goal with |- context [tryUrls fetch (before ++ rest) ?f ?e] =>
        destruct (IH rest f e Hrest) as (file' & err' & ->)
      end;
      exists file', err'; destruct (tryUrls fetch rest file' err') as [[[r f] e0] asked];
      reflexivity.
Qed.

(** When every remaining request is rejected, a non-empty file stays as it is. *)
Lemma tryUrls_requests_rejected : forall urls n lastError,
  (0 < n)%N ->
  Forall (fun u => exists e, fetch u = RequestFails e) urls ->
  exists lastError',
    tryUrls fetch urls (Some n) lastError = (None, Some n, lastError', urls).
Proof.
  induction urls as [|u urls IH]; intros n lastError Hn H.
  - exists lastError. reflexivity.
  - inversion H as [|? ? [e Hu] Hrest]; subst. simpl. rewrite Hu. simpl.
    assert (Hkeep : unlinkIfEmpty (Some n) = Some n) by (destruct n; [lia | reflexivity]).
    unfold unlinkIfEmpty in Hkeep. rewrite Hkeep.
    destruct (IH n (Some e) Hn Hrest) as [err' ->]. eauto.
Qed.

Lemma tryUrls_exhausted : forall urls file lastError f e asked,
  tryUrls fetch urls file lastError = (None, f, e, asked) ->
  asked = urls /\ e = lastErrorOf fetch urls lastError.
Proof.
  induction urls as [|u urls IH]; intros file lastError f e asked H; simpl in H.
  - injection H as <- <- <-. auto.
  - unfold lastErrorOf. simpl.
    destruct (fetch u) as [err | n err | n]; simpl in *.
    + destruct (tryUrls fetch urls _ _) as [[[r f'] e'] asked'] eqn:E.
      injection H as -> <- <- <-. destruct (IH _ _ _ _ _ E) as [-> ->]. auto.
    + destruct (tryUrls fetch urls _ _) as [[[r f'] e'] asked'] eqn:E.
      injection H as -> <- <- <-. destruct (IH _ _ _ _ _ E) as [-> ->]. auto.
    + destruct (0 <? n)%N; [discriminate|].
      destruct (tryUrls fetch urls _ _) as [[[r f'] e'] asked'] eqn:E.
      injection H as -> <- <- <-. destruct (IH _ _ _ _ _ E) as [-> ->]. auto.
Qed.

(** As long as the metadata file can be written, a call moves exactly one
    of the three counters, by one; a call that exhausts its candidates
    records the last error met (the fixed message when none was). *)
Lemma downloadAsset_one_outcome : forall disk a s,
  downloadMetadata cfg = false \/ metadataWriteError disk = None ->
  let d := downloadAsset cfg fetch disk a s in
  let delta := (downloadedAssets (statsAfter d) - downloadedAssets s,
                skippedAssets (statsAfter d) - skippedAssets s,
                failedAssets (statsAfter d) - failedAssets s) in
  delta = (1, 0, 0) \/ delta = (0, 1, 0) \/
  (delta = (0, 0, 1) /\
   exists message, errors (statsAfter d) = (errors s ++ [(path a, message)])%list /\
     (mkdirError disk = None ->
      message = match lastErrorOf fetch (urlPatterns cfg a) None with
                | Some e => e
                | None => "All download attempts failed"
                end)).
Proof.
  intros disk a s Hmeta. unfold downloadAsset.
  destruct (mkdirError disk) as [e|].
  - simpl. right. right. split; [f_equal; [f_equal|]; lia|].
    exists e. split; [reflexivity | discriminate].
  - destruct (match existing disk with
              | Some existingSize => resumeSkip a existingSize
              | None => false
              end).
    + simpl. right. left. f_equal; [f_equal|]; lia.
    + destruct (tryUrls fetch (urlPatterns cfg a) (existing disk) None)
        as [[[done file] lastError] asked] eqn:E.
      destruct done as [[n url]|].
      * assert (Hok : forall d,
                  d = {| returned := true; statsAfter := recordDownloaded (Z.of_N n) s;
                         fileAfter := file; requested := asked; metadataSaved := true |} \/
                  d = {| returned := true; statsAfter := recordDownloaded (Z.of_N n) s;
                         fileAfter := file; requested := asked; metadataSaved := false |} ->
                  (downloadedAssets (statsAfter d) - downloadedAssets s,
                   skippedAssets (statsAfter d) - skippedAssets s,
                   failedAssets (statsAfter d) - failedAssets s) = (1, 0, 0)).
        { intros d [-> | ->]; simpl; (f_equal; [f_equal|]; lia). }
        destruct (downloadMetadata cfg).
        -- destruct Hmeta as [Hm|Hm]; [discriminate|]. rewrite Hm. left. apply Hok. now left.
        -- left. apply Hok. now right.
      * simpl. right. right. split; [f_equal; [f_equal|]; lia|].
        destruct (tryUrls_exhausted _ _ _ _ _ _ E) as [_ ->].
        eexists. split; [reflexivity | reflexivity].
Qed.

End RetrievalLemmas.

Lemma downloadAsset_requests_first : forall cfg fetch disk a s,
  mkdirError disk = None ->
  match existing disk with
  | Some existingSize => resumeSkip a existingSize
  | None => false
  end = false ->
  exists rest, requested (downloadAsset cfg fetch disk a s) = (baseUrl cfg ++ path a) :: rest.
Proof.
  intros cfg fetch disk a s Hmk Hskip. unfold downloadAsset. rewrite Hmk, Hskip.
  destruct (tryUrls_asks_first fetch (baseUrl cfg ++ path a)
              (tl (urlPatterns cfg a)) (existing disk) None) as [rest Hrest].
  change ((baseUrl cfg ++ path a) :: tl (urlPatterns cfg a)) with (urlPatterns cfg a) in Hrest.
  destruct (tryUrls fetch (urlPatterns cfg a) (existing disk) None)
    as [[[done file] lastError] asked].
  simpl in Hrest. subst asked. exists rest.
  destruct done as [[n url]|]; [|reflexivity].
  destruct (downloadMetadata cfg); [destruct (metadataWriteError disk)|]; reflexivity.
Qed.

(** C1 (as amended). Provided the output directory can be created,
    [downloadAsset] records a skipped-existing outcome and issues no
    network fetch exactly when the target file already exists and either
    (a) the expected size is known (greater than 0) and the existing size
    is less than 1000 bytes away from it, or (b) the existing file is
    larger than 100 bytes, whether the expected size is known or not; in
    every other case the canonical URL is requested. *)
Theorem resume_skip_rule : forall cfg fetch disk a s,
  mkdirError disk = None ->
  let d := downloadAsset cfg fetch disk a s in
  let skips :=
    exists existingSize,
      existing disk = Some existingSize /\
      ((0 < size a /\ Z.abs (Z.of_N existingSize - size a) < 1000) \/
       100 < Z.of_N existingSize) in
  ((statsAfter d = incrSkipped s /\ returned d = true /\ requested d = []) <-> skips) /\
  (~ skips -> exists rest, requested d = (baseUrl cfg ++ path a) :: rest).
Proof.
  intros cfg fetch disk a s Hmk d skips.
  assert (Hdec : (match existing disk with
                  | Some existingSize => resumeSkip a existingSize
                  | None => false
                  end = true) <-> skips).
  { subst skips. destruct (existing disk) as [e|].
    - rewrite resumeSkip_spec. split.
      + intros H. exists e. auto.
      + intros (e' & He & H). injection He as <-. exact H.
    - split; [discriminate | intros (e' & He & _); discriminate]. }
  destruct (match existing disk with
            | Some existingSize => resumeSkip a existingSize
            | None => false
            end) eqn:E.
  - assert (Hs : skips) by (now apply Hdec). split; [|tauto].
    split; [intros _; exact Hs|]. intros _. subst d. unfold downloadAsset.
    rewrite Hmk, E. auto.
  - assert (Hn : ~ skips) by (intros Hs; apply Hdec in Hs; discriminate).
    destruct (downloadAsset_requests_first cfg fetch disk a s Hmk E) as [rest Hrest].
    split; [|intros _; eauto].
    split; [|tauto]. intros (_ & _ & Hreq). subst d. rewrite Hrest in Hreq. discriminate.
Qed.

(** The resume-skip scenario of the specification: 245678 bytes on disk,
    245678 expected. *)
Lemma resume_skip_rule_witness :
  let d := downloadAsset (defaultConfig "http://aem") unreachable (targetOf (Some 245678%N))
             (record "/content/dam/a.png" 245678) emptyStats in
  statsAfter d = incrSkipped emptyStats /\ returned d = true /\ requested d = [].
Proof.
  apply (proj1 (resume_skip_rule (defaultConfig "http://aem") unreachable
                  (targetOf (Some 245678%N)) (record "/content/dam/a.png" 245678) emptyStats
                  eq_refl)).
  exists 245678%N. split; [reflexivity|]. left. simpl. lia.
Defined.

(** The claim of C1 fails: with 5000 bytes expected and 200 bytes on disk
    neither (a) holds nor is the expected size unknown, yet the asset is
    skipped and nothing is fetched. *)
Lemma resume_skip_ignores_known_size :
  let a := record "/content/dam/a.png" 5000 in
  let d := downloadAsset (defaultConfig "http://aem") unreachable (targetOf (Some 200%N)) a
             emptyStats in
  statsAfter d = incrSkipped emptyStats /\ returned d = true /\ requested d = [] /\
  ~ ((0 < size a /\ Z.abs (200 - size a) < 1000) \/ (size a <= 0 /\ 100 < 200)).
Proof.
  simpl. repeat split. intros [[_ H] | [H _]]; simpl in H; lia.
Qed.

(** C7: the input on which the code departs from the claim.  The first
    candidate delivers 10 bytes, then writing the metadata file raises:
    the call has counted the asset as downloaded and counts it as failed
    too, and resolves to [false]. *)
Theorem download_then_metadata_error_counts_twice :
  let d := downloadAsset (defaultConfig "http://aem") (fun _ => StreamEnds 10)
             metadataUnwritable
             (record "/content/dam/a.png" 0) emptyStats in
  returned d = false /\
  downloadedAssets (statsAfter d) = 1 /\
  failedAssets (statsAfter d) = 1 /\
  skippedAssets (statsAfter d) = 0 /\
  errors (statsAfter d) = [("/content/dam/a.png", "ENAMETOOLONG: name too long")] /\
  fileAfter d = Some 10%N.
Proof. vm_compute. repeat split. Qed.

(** C10 (as amended). When an attempt errors, the output file is deleted
    exactly when it exists with size zero; otherwise it is left as the
    attempt wrote it.  A non-empty partial file is thus not deleted by the
    handler, and when every later candidate is rejected before a response
    arrives the asset is recorded as failed and the partial file stays.
    (A later attempt that does receive a response truncates the file when
    it opens it.) *)
Theorem partial_file_after_failed_attempt : forall cfg fetch,
  (forall url file lastError,
     attemptError (fetch url) <> None ->
     let written := afterWrite file (fetch url) in
     let left := snd (fst (fst (tryUrls fetch [url] file lastError))) in
     (written = Some 0%N -> left = None) /\
     (written <> Some 0%N -> left = written)) /\
  (forall disk a s before url after n e,
     mkdirError disk = None ->
     match existing disk with
     | Some existingSize => resumeSkip a existingSize
     | None => false
     end = false ->
     urlPatterns cfg a = (before ++ url :: after)%list ->
     Forall (fun u => unsuccessful (fetch u)) before ->
     fetch url = StreamFails n e ->
     (0 < n)%N ->
     Forall (fun u => exists e', fetch u = RequestFails e') after ->
     let d := downloadAsset cfg fetch disk a s in
     returned d = false /\
     failedAssets (statsAfter d) = failedAssets s + 1 /\
     downloadedAssets (statsAfter d) = downloadedAssets s /\
     requested d = urlPatterns cfg a /\
     fileAfter d = Some n).
Proof.
  intros cfg fetch. split.
  - intros url file lastError Herr. simpl.
    destruct (fetch url) as [e | n e | n]; simpl in *; [| |congruence].
    + destruct file as [[|p]|]; simpl; split; congruence.
    + destruct n; simpl; split; congruence.
  - intros disk a s before url after n e Hmk Hskip Hurls Hbefore Hurl Hn Hafter.
    unfold downloadAsset. rewrite Hmk, Hskip, Hurls.
    destruct (tryUrls_skips_unsuccessful fetch before (url :: after) (existing disk) None Hbefore)
      as (file' & err' & ->).
    simpl. rewrite Hurl. simpl.
    assert (Hkeep : unlinkIfEmpty (Some n) = Some n) by (destruct n; [lia | reflexivity]).
    unfold unlinkIfEmpty in Hkeep. rewrite Hkeep.
    destruct (tryUrls_requests_rejected fetch after n (Some e) Hn Hafter) as [err'' ->].
    simpl. repeat split; reflexivity.
Qed.

Lemma partial_file_after_failed_attempt_witness :
  (afterWrite None (breaksOff "http://aem/content/dam/a.png") <> Some 0%N ->
   snd (fst (fst (tryUrls breaksOff ["http://aem/content/dam/a.png"] None None)))
   = afterWrite None (breaksOff "http://aem/content/dam/a.png")) /\
  fileAfter (downloadAsset (defaultConfig "http://aem") breaksOff (targetOf None)
               (record "/content/dam/a.png" 0) emptyStats) = Some 500%N.
Proof.
  destruct (partial_file_after_failed_attempt (defaultConfig "http://aem") breaksOff)
    as [Hhandler Hpartial].
  split.
  - apply (Hhandler "http://aem/content/dam/a.png" None None). discriminate.
  - apply (Hpartial (targetOf None) (record "/content/dam/a.png" 0) emptyStats
             [] "http://aem/content/dam/a.png"
             (tl (urlPatterns (defaultConfig "http://aem") (record "/content/dam/a.png" 0)))
             500%N "ECONNRESET");
      try reflexivity.
    + constructor.
    + repeat constructor; eexists; reflexivity.
Defined.

(** The claim of C10 fails: the first attempt leaves a partial file of 500
    bytes and every later candidate fails as well, yet no file remains:
    the second attempt truncated it and its handler deleted the empty
    file. *)
Lemma partial_file_lost_to_later_attempt :
  let a := record "/content/dam/a.png" 0 in
  let d := downloadAsset (defaultConfig "http://aem") breaksOffTwice (targetOf None) a
             emptyStats in
  breaksOffTwice "http://aem/content/dam/a.png" = StreamFails 500 "ECONNRESET" /\
  Forall (fun u => attemptError (breaksOffTwice u) <> None)
    (urlPatterns (defaultConfig "http://aem") a) /\
  returned d = false /\ failedAssets (statsAfter d) = 1 /\
  fileAfter d = None.
Proof.
  vm_compute. repeat split. repeat constructor; discriminate.
Qed.

(** ** The download driver *)

Lemma removeFirst_length : forall x l,
  existsb (Nat.eqb x) l = true -> S (List.length (removeFirst x l)) = List.length l.
Proof.
  intros x l. induction l as [|y rest IH]; simpl; [discriminate|].
  destruct (Nat.eqb x y); simpl; [reflexivity|]. intros H. now rewrite IH.
Qed.

Section DriverLemmas.

Variable cfg : Config.

Lemma startPool_inv : forall assets, poolInv cfg (startPool cfg assets).
Proof.
  intros assets. unfold startPool, poolInv.
  destruct (isEmpty assets); simpl; split; auto; lia.
Qed.

Lemma poolStep_inv : forall t p p',
  poolInv cfg p -> poolStep cfg t p = Some p' -> poolInv cfg p'.
Proof.
  intros t p p' [Hle Hpc] Hstep. unfold poolStep in Hstep.
  destruct t as [|promise|]; destruct (pc p) as [| | |[|]| | |] eqn:Epc; try discriminate.
  - (* OuterTest *)
    destruct (queue p) as [|a q] eqn:Eq; destruct (inProgress p) as [|x l] eqn:El;
      simpl in Hstep; injection Hstep as <-; unfold poolInv; simpl;
      rewrite ?Eq, ?El; simpl in *; split; auto.
  - (* InnerTest *)
    destruct (queue p) as [|a q] eqn:Eq.
    + injection Hstep as <-. unfold poolInv; simpl. rewrite Eq. auto.
    + destruct (List.length (inProgress p) <? maxConcurrent cfg)%nat eqn:Elt.
      * apply Nat.ltb_lt in Elt. injection Hstep as <-. unfold poolInv; simpl.
        rewrite length_app. simpl. split; [lia | exact I].
      * apply Nat.ltb_ge in Elt. injection Hstep as <-. unfold poolInv; simpl.
        split; [exact Hle | right; lia].
  - (* RaceTest *)
    destruct (inProgress p) as [|x l] eqn:El; simpl in Hstep; injection Hstep as <-;
      unfold poolInv; simpl; rewrite ?El; simpl in *; split; auto.
  - (* AwaitingRace true resumes *)
    injection Hstep as <-. unfold poolInv; simpl. split; [exact Hle | left; exact Hpc].
  - (* SleepTest *)
    destruct (negb (isEmpty (queue p)) && (List.length (inProgress p) =? maxConcurrent cfg)%nat)
      eqn:Ec; injection Hstep as <-; unfold poolInv; simpl; split; auto.
    apply andb_true_iff in Ec. destruct Ec as [_ Ec]. apply Nat.eqb_eq in Ec.
    destruct Hpc as [Hlt | Hnil]; [lia|]. rewrite Hnil in *. simpl in Ec. auto.
  - (* a download settles during the race *)
    destruct (existsb (Nat.eqb promise) (inProgress p)) eqn:Ein; [|discriminate].
    injection Hstep as <-. pose proof (removeFirst_length _ _ Ein) as Hlen.
    unfold poolInv; simpl. split; lia.
  - destruct (existsb (Nat.eqb promise) (inProgress p)) eqn:Ein; [|discriminate].
    injection Hstep as <-. pose proof (removeFirst_length _ _ Ein) as Hlen.
    unfold poolInv; simpl. split; lia.
  - (* a download settles during the sleep: there is none in flight *)
    destruct Hpc as [Hnil _]. rewrite Hnil in Hstep. discriminate.
  - (* the timer fires *)
    injection Hstep as <-. unfold poolInv; simpl. auto.
Qed.

Lemma poolRun_inv : forall ticks p p',
  poolInv cfg p -> poolRun cfg ticks p = Some p' -> poolInv cfg p'.
Proof.
  induction ticks as [|t ticks IH]; intros p p' Hinv Hrun; simpl in Hrun.
  - now injection Hrun as <-.
  - destruct (poolStep cfg t p) as [p1|] eqn:E; [|discriminate].
    eapply IH; [eapply poolStep_inv; eauto | exact Hrun].
Qed.

(** With work pending and a free slot the driver is on its way to the
    launch: it reaches it in at most four moves of its own, without
    waiting for anything. *)
Lemma driver_launches : forall p asset rest,
  poolInv cfg p ->
  queue p = asset :: rest ->
  (List.length (inProgress p) < maxConcurrent cfg)%nat ->
  exists k p',
    (k <= 3)%nat /\
    poolRun cfg (repeat RunDriver (S k)) p = Some p' /\
    queue p' = rest /\
    inProgress p' = (inProgress p ++ [nextPromise p])%list.
Proof.
  intros p asset rest [Hle Hpc] Hq Hlt.
  assert (Hlaunch : forall p0, pc p0 = InnerTest -> queue p0 = queue p ->
            inProgress p0 = inProgress p -> nextPromise p0 = nextPromise p ->
            exists p', poolStep cfg RunDriver p0 = Some p' /\ queue p' = rest /\
                       inProgress p' = (inProgress p ++ [nextPromise p])%list).
  { intros p0 H0 H1 H2 H3. unfold poolStep. rewrite H0, H1, H2, H3, Hq.
    apply Nat.ltb_lt in Hlt. rewrite Hlt. eexists. split; [reflexivity|]. simpl. auto. }
  assert (Houter : forall p0, pc p0 = OuterTest -> queue p0 = queue p ->
            poolStep cfg RunDriver p0 = Some (setPc InnerTest p0)).
  { intros p0 H0 H1. unfold poolStep. rewrite H0, H1, Hq. reflexivity. }
  assert (Hsleep : forall p0, pc p0 = SleepTest -> inProgress p0 = inProgress p ->
            poolStep cfg RunDriver p0 = Some (setPc OuterTest p0)).
  { intros p0 H0 H2. unfold poolStep. rewrite H0, H2.
    assert (E : (List.length (inProgress p) =? maxConcurrent cfg)%nat = false)
      by (apply Nat.eqb_neq; lia).
    rewrite E, andb_false_r. reflexivity. }
  destruct (pc p) as [| | |[|]| | |] eqn:Epc.
  - (* OuterTest *)
    destruct (Hlaunch (setPc InnerTest p)) as (p' & Hs & H1 & H2); try reflexivity.
    exists 1%nat, p'. split; [lia|]. cbn [poolRun repeat]. rewrite (Houter p Epc eq_refl), Hs. auto.
  - (* InnerTest *)
    destruct (Hlaunch p) as (p' & Hs & H1 & H2); try reflexivity; [exact Epc|].
    exists 0%nat, p'. split; [lia|]. cbn [poolRun repeat]. rewrite Hs. auto.
  - (* RaceTest: not with a free slot *)
    destruct Hpc as [Hnil | Hfull]; [congruence | lia].
  - (* AwaitingRace true *)
    destruct (Hlaunch (setPc InnerTest (setPc OuterTest (setPc SleepTest p))))
      as (p' & Hs & H1 & H2); try reflexivity.
    exists 3%nat, p'. split; [lia|]. cbn [poolRun repeat].
    assert (Hresume : poolStep cfg RunDriver p = Some (setPc SleepTest p))
      by (unfold poolStep; rewrite Epc; reflexivity).
    rewrite Hresume.
    rewrite (Hsleep (setPc SleepTest p) eq_refl eq_refl).
    rewrite (Houter (setPc OuterTest (setPc SleepTest p)) eq_refl eq_refl).
    rewrite Hs. auto.
  - (* AwaitingRace false: not with a free slot *)
    destruct Hpc as [Hnil | Hfull]; [congruence | lia].
  - (* SleepTest *)
    destruct (Hlaunch (setPc InnerTest (setPc OuterTest p))) as (p' & Hs & H1 & H2);
      try reflexivity.
    exists 2%nat, p'. split; [lia|]. cbn [poolRun repeat].
    rewrite (Hsleep p Epc eq_refl).
    rewrite (Houter (setPc OuterTest p) eq_refl eq_refl).
    rewrite Hs. auto.
  - (* Sleeping: only with width 0 *)
    destruct Hpc as [_ Hzero]. lia.
  - (* Exited: nothing pending *)
    destruct Hpc as [Hnil _]. congruence.
Qed.

End DriverLemmas.

(** C6. Bounded concurrency.  For every list of assets, every pool width
    and every interleaving of the driver with the completions of
    downloads, the in-flight set never holds more tasks than the
    configured width; and whenever the pending queue is not empty and the
    in-flight set is below the width, the driver is not waiting: its next
    moves (four at most, none of them a wait) launch the download of the
    first pending asset. *)
Theorem bounded_concurrency : forall cfg assets ticks p,
  poolRun cfg ticks (startPool cfg assets) = Some p ->
  (List.length (inProgress p) <= maxConcurrent cfg)%nat /\
  (forall asset rest,
     queue p = asset :: rest ->
     (List.length (inProgress p) < maxConcurrent cfg)%nat ->
     pc p <> AwaitingRace false /\ pc p <> Sleeping /\
     exists k p',
       (k <= 3)%nat /\
       poolRun cfg (repeat RunDriver (S k)) p = Some p' /\
       queue p' = rest /\
       inProgress p' = (inProgress p ++ [nextPromise p])%list).
Proof.
  intros cfg assets ticks p Hrun.
  assert (Hinv : poolInv cfg p)
    by (eapply poolRun_inv; [apply startPool_inv | exact Hrun]).
  split; [exact (proj1 Hinv)|].
  intros asset rest Hq Hlt. split; [|split].
  - intros Epc. destruct Hinv as [_ Hpc]. rewrite Epc in Hpc.
    destruct Hpc as [Hnil | Hfull]; [congruence | lia].
  - intros Epc. destruct Hinv as [_ Hpc]. rewrite Epc in Hpc. destruct Hpc as [_ Hzero]. lia.
  - eapply driver_launches; eauto.
Qed.

Lemma bounded_concurrency_witness :
  (List.length (inProgress afterOneCompletion) <= 3)%nat /\
  exists k p',
    (k <= 3)%nat /\
    poolRun (defaultConfig "http://aem") (repeat RunDriver (S k)) afterOneCompletion = Some p' /\
    queue p' = [record "/content/dam/5.png" 0] /\
    inProgress p' = [0%nat; 2%nat; 3%nat].
Proof.
  destruct (bounded_concurrency (defaultConfig "http://aem") fiveAssets
              [RunDriver; RunDriver; RunDriver; RunDriver; RunDriver; RunDriver; Settle 1]
              afterOneCompletion eq_refl) as [Hbound Hlaunch].
  split; [exact Hbound|].
  destruct (Hlaunch (record "/content/dam/4.png" 0) [record "/content/dam/5.png" 0] eq_refl)
    as (_ & _ & H); [simpl; lia | exact H].
Defined.

(** ** Scenarios of the specification, run on the model *)

(** Three assets are found and four folders are scanned (root, a, b, c). *)
Example discovery_of_small_tree :
  let r := discoverAllAssets (defaultConfig "http://aem") smallTree 10 emptyCrawl in
  fst (fst r) = Finished /\
  map path (snd (fst r))
  = ["/content/dam/a/x.png"; "/content/dam/a/y.jpg"; "/content/dam/b/c/z.pdf"] /\
  map size (snd (fst r)) = [1200; 3400; 5600] /\
  totalAssets (stats (snd r)) = 3 /\
  foldersScanned (stats (snd r)) = 4.
Proof. vm_compute. repeat split. Qed.

(** Candidate fallback: the download succeeds with the 10 bytes of the
    third candidate and nothing is left of the first two. *)
Example fallback_to_third_candidate :
  let d := downloadAsset (defaultConfig "http://aem") thirdCandidateDelivers (targetOf None)
             (record "/content/dam/a.png" 0) emptyStats in
  returned d = true /\ fileAfter d = Some 10%N /\
  downloadedAssets (statsAfter d) = 1 /\ totalSize (statsAfter d) = 10 /\
  List.length (requested d) = 3%nat.
Proof. vm_compute. repeat split. Qed.

(* ================================================================== *)
(** * Further properties of the code *)
(* ================================================================== *)

(** ** HTTP client *)

Section RetryLemmas.

Variable rs : RetrySettings.
Variable request : string -> Z -> Response.

(** The function as the source writes it: one more call after a pause
    while [attempt < retryAttempts]. *)
Lemma makeRequestWithRetry_unfold : forall url attempt,
  makeRequestWithRetry rs request url attempt
  = match request url attempt with
    | Resolved data => (Resolved data, [Sent url])
    | Rejected error =>
        if attempt <? retryAttempts rs then
          let '(result, wire) := makeRequestWithRetry rs request url (attempt + 1) in
          (result, Sent url :: Paused (retryDelay rs * attempt) :: wire)
        else (Rejected error, [Sent url])
    end.
Proof.
  intros url attempt. unfold makeRequestWithRetry.
  destruct (attempt <? retryAttempts rs) eqn:E.
  - apply Z.ltb_lt in E.
    replace (Z.to_nat (retryAttempts rs - attempt))
      with (S (Z.to_nat (retryAttempts rs - (attempt + 1)))) by lia.
    reflexivity.
  - apply Z.ltb_ge in E.
    replace (Z.to_nat (retryAttempts rs - attempt)) with 0%nat by lia.
    simpl. destruct (request url attempt); reflexivity.
Qed.

Lemma retryLoop_shape : forall remaining url attempt,
  exists tries,
    (1 <= tries <= S remaining)%nat /\
    snd (retryLoop rs request remaining url attempt)
    = wireOf url (retryDelay rs) attempt tries /\
    fst (retryLoop rs request remaining url attempt)
    = request url (attempt + Z.of_nat tries - 1) /\
    (forall k, (k < tries - 1)%nat ->
               exists e, request url (attempt + Z.of_nat k) = Rejected e) /\
    ((exists e, fst (retryLoop rs request remaining url attempt) = Rejected e) ->
     tries = S remaining).
Proof.
  induction remaining as [|remaining IH]; intros url attempt; simpl.
  - exists 1%nat. replace (attempt + Z.of_nat 1 - 1) with attempt by lia.
    destruct (request url attempt) as [e|data]; simpl;
      (split; [lia|]); (split; [reflexivity|]); (split; [reflexivity|]);
      (split; [intros k Hk; lia | auto]).
  - destruct (request url attempt) as [e|data] eqn:Hreq.
    + destruct (IH url (attempt + 1)) as (tries & Hrange & Hwire & Hres & Hfail & Hlast).
      destruct (retryLoop rs request remaining url (attempt + 1)) as [result wire].
      simpl in *. exists (S tries).
      split; [lia|]. split.
      * rewrite Hwire. destruct tries as [|t]; [lia | reflexivity].
      * split.
        -- rewrite Hres. f_equal. lia.
        -- split.
           ++ intros k Hk. destruct k as [|k].
              ** exists e. rewrite <- Hreq. f_equal. lia.
              ** destruct (Hfail k) as [e' He']; [lia|]. exists e'. rewrite <- He'. f_equal. lia.
           ++ intros H. f_equal. now apply Hlast.
    + simpl. exists 1%nat. replace (attempt + Z.of_nat 1 - 1) with attempt by lia.
      split; [lia|]. split; [reflexivity|]. split; [now rewrite Hreq|].
      split; [intros k Hk; lia|]. intros [e He]. discriminate.
Qed.

Lemma pausesOf_wireOf : forall url delay tries attempt,
  pausesOf (wireOf url delay attempt tries)
  = map (fun k => delay * (attempt + Z.of_nat k)) (seq 0 (tries - 1)).
Proof.
  intros url delay tries. induction tries as [|tries IH]; intros attempt; [reflexivity|].
  destruct tries as [|more]; [reflexivity|].
  change (wireOf url delay attempt (S (S more)))
    with (Sent url :: Paused (delay * attempt) :: wireOf url delay (attempt + 1) (S more)).
  change (pausesOf (Sent url :: Paused (delay * attempt)
                      :: wireOf url delay (attempt + 1) (S more)))
    with (delay * attempt :: pausesOf (wireOf url delay (attempt + 1) (S more))).
  rewrite IH.
  replace (S (S more) - 1)%nat with (S (S more - 1)) by lia.
  simpl seq. simpl map. f_equal; [f_equal; lia|].
  rewrite <- seq_shift, map_map. apply map_ext. intros k. f_equal. lia.
Qed.

Lemma sentCount_wireOf : forall url delay tries attempt,
  sentCount (wireOf url delay attempt tries) = tries.
Proof.
  intros url delay tries. induction tries as [|tries IH]; intros attempt; [reflexivity|].
  destruct tries as [|more]; [reflexivity|].
  change (wireOf url delay attempt (S (S more)))
    with (Sent url :: Paused (delay * attempt) :: wireOf url delay (attempt + 1) (S more)).
  change (sentCount (Sent url :: Paused (delay * attempt)
                       :: wireOf url delay (attempt + 1) (S more)))
    with (S (sentCount (wireOf url delay (attempt + 1) (S more)))).
  now rewrite IH.
Qed.

End RetryLemmas.

(** X1. [makeRequestWithRetry] stops at the first attempt that resolves
    and returns its value; when no attempt resolves it gives up after
    [retryAttempts] requests (one request when the setting is below 1)
    with the error of the last one.  Before request [k+1] it pauses for
    [retryDelay * k], and it does not pause after the last request. *)
Theorem retry_stops_at_first_answer : forall rs request url,
  exists tries,
    (1 <= tries)%nat /\
    Z.of_nat tries <= Z.max 1 (retryAttempts rs) /\
    snd (makeRequestWithRetry rs request url 1) = wireOf url (retryDelay rs) 1 tries /\
    fst (makeRequestWithRetry rs request url 1) = request url (Z.of_nat tries) /\
    (forall k, (1 <= k < tries)%nat -> exists e, request url (Z.of_nat k) = Rejected e) /\
    ((exists e, fst (makeRequestWithRetry rs request url 1) = Rejected e) ->
     Z.of_nat tries = Z.max 1 (retryAttempts rs)).
Proof.
  intros rs request url. unfold makeRequestWithRetry.
  destruct (retryLoop_shape rs request (Z.to_nat (retryAttempts rs - 1)) url 1)
    as (tries & Hrange & Hwire & Hres & Hfail & Hlast).
  exists tries. split; [lia|]. split; [lia|]. split; [exact Hwire|]. split.
  - rewrite Hres. f_equal. lia.
  - split.
    + intros k Hk. destruct (Hfail (k - 1)%nat) as [e He]; [lia|].
      exists e. rewrite <- He. f_equal. lia.
    + intros H. specialize (Hlast H). lia.
Qed.

(** X2. A URL whose every request is rejected costs exactly [retryAttempts]
    requests (one when the setting is below 1); the pauses between them
    grow linearly, [retryDelay * 1], [retryDelay * 2], ...,
    [retryDelay * (retryAttempts - 1)], and the error of the last request
    is the one reported. *)
Theorem retry_cost_of_failing_url : forall rs request url,
  (forall attempt, exists e, request url attempt = Rejected e) ->
  let run := makeRequestWithRetry rs request url 1 in
  fst run = request url (Z.max 1 (retryAttempts rs)) /\
  Z.of_nat (sentCount (snd run)) = Z.max 1 (retryAttempts rs) /\
  pausesOf (snd run)
  = map (fun k => retryDelay rs * (1 + Z.of_nat k)) (seq 0 (Z.to_nat (retryAttempts rs - 1))).
Proof.
  intros rs request url Hfails run. subst run. unfold makeRequestWithRetry.
  destruct (retryLoop_shape rs request (Z.to_nat (retryAttempts rs - 1)) url 1)
    as (tries & Hrange & Hwire & Hres & _ & Hlast).
  assert (Htries : tries = S (Z.to_nat (retryAttempts rs - 1))).
  { apply Hlast. rewrite Hres. apply Hfails. }
  rewrite Hwire, Hres, sentCount_wireOf, pausesOf_wireOf. subst tries.
  split; [f_equal; lia|]. split; [lia|].
  f_equal. f_equal. lia.
Qed.

Lemma retry_cost_of_failing_url_witness :
  fst (makeRequestWithRetry defaultRetry alwaysMissing "http://aem/x.json" 1)
  = alwaysMissing "http://aem/x.json" (Z.max 1 (retryAttempts defaultRetry)) /\
  Z.of_nat (sentCount (snd (makeRequestWithRetry defaultRetry alwaysMissing "http://aem/x.json" 1)))
  = Z.max 1 (retryAttempts defaultRetry) /\
  pausesOf (snd (makeRequestWithRetry defaultRetry alwaysMissing "http://aem/x.json" 1))
  = map (fun k => retryDelay defaultRetry * (1 + Z.of_nat k))
      (seq 0 (Z.to_nat (retryAttempts defaultRetry - 1))).
Proof.
  apply (retry_cost_of_failing_url defaultRetry alwaysMissing "http://aem/x.json").
  intros attempt. exists "HTTP 404". reflexivity.
Defined.

(** The pauses of the shipped settings: one and two seconds. *)
Example retry_pauses_of_default_settings :
  pausesOf (snd (makeRequestWithRetry defaultRetry alwaysMissing "http://aem/x.json" 1))
  = [1000; 2000] /\
  makeRequestWithRetry defaultRetry answersThird "http://aem/x.json" 1
  = (Resolved (Obj []),
     [Sent "http://aem/x.json"; Paused 1000; Sent "http://aem/x.json"; Paused 2000;
      Sent "http://aem/x.json"]).
Proof. vm_compute. split; reflexivity. Qed.

Section HttpLemmas.

Variable server : string -> Exchange.
Variable parseJson : string -> option Val.

(** A request that settles went through redirects that end. *)
Lemma makeRequest_settled_final : forall fuel url stream json s,
  makeRequest server parseJson fuel url stream json = Some s ->
  exists final, finalUrl server fuel url = Some final.
Proof.
  induction fuel as [|fuel IH]; intros url stream json s H; simpl in *;
    destruct (server url) as [err | | res | res]; simpl; eauto;
    destruct (isRedirect res); eauto; discriminate.
Qed.

(** The promise is settled as the exchange at the end of the redirects
    settles it. *)
Lemma makeRequest_at_final : forall fuel url final stream json,
  finalUrl server fuel url = Some final ->
  makeRequest server parseJson fuel url stream json
  = match server final with
    | NetworkError e => Some (Reject e)
    | TimedOut => Some (Reject "Request timeout")
    | Answered res => settleWith parseJson res true stream json
    | BrokenOff res => settleWith parseJson res false stream json
    end
  /\ match headOf (server final) with
     | Some res => isRedirect res = false
     | None => True
     end.
Proof.
  induction fuel as [|fuel IH]; intros url final stream json H; simpl in *;
    destruct (server url) as [err | | res | res] eqn:Hs; simpl in H;
    try (injection H as <-; rewrite Hs; simpl; auto; fail);
    destruct (isRedirect res) eqn:Hr;
    try discriminate;
    try (injection H as <-; rewrite Hs; simpl; auto; fail);
    apply IH; exact H.
Qed.

(** X3. [makeRequest] rejects for three reasons only, each met where
    the redirects end: the request emits an error, it times out, or the
    head of the response has a status of 400 or more.  An answer below
    400 whose body arrives whole never rejects: the promise resolves with
    the parsed body, and with the text when the body is no JSON or JSON
    was not asked for; an answer in the 300s without a Location header is
    such an answer.  When the connection closes before the body has
    ended, nothing settles the promise. *)
Theorem makeRequest_rejects_only_on_transport_or_status : forall fuel url,
  (forall stream json e,
     makeRequest server parseJson fuel url stream json = Some (Reject e) ->
     exists final,
       finalUrl server fuel url = Some final /\
       (server final = NetworkError e \/
        (server final = TimedOut /\ e = "Request timeout") \/
        (exists res, headOf (server final) = Some res /\ 400 <= statusCode res /\
                     e = "HTTP " ++ numberToString (statusCode res)))) /\
  (forall final res json,
     finalUrl server fuel url = Some final ->
     server final = Answered res ->
     statusCode res < 400 ->
     makeRequest server parseJson fuel url false json
     = Some (ResolveData (match (if json then parseJson (body res) else None) with
                          | Some result => result
                          | None => Str (body res)
                          end))) /\
  (forall final res json,
     finalUrl server fuel url = Some final ->
     server final = BrokenOff res ->
     statusCode res < 400 ->
     makeRequest server parseJson fuel url false json = None).
Proof.
  intros fuel url. split; [|split].
  - intros stream json e H.
    destruct (makeRequest_settled_final fuel url stream json _ H) as [final Hf].
    exists final. split; [exact Hf|].
    destruct (makeRequest_at_final fuel url final stream json Hf) as [Heq _].
    rewrite H in Heq.
    destruct (server final) as [err | | res | res]; simpl.
    + injection Heq as ->. left. reflexivity.
    + injection Heq as ->. right. left. auto.
    + right. right. exists res. unfold settleWith in Heq.
      destruct (400 <=? statusCode res) eqn:E4.
      * injection Heq as ->. apply Z.leb_le in E4. auto.
      * destruct stream; [discriminate|].
        destruct json; [destruct (parseJson (body res))|]; discriminate.
    + right. right. exists res. unfold settleWith in Heq.
      destruct (400 <=? statusCode res) eqn:E4.
      * injection Heq as ->. apply Z.leb_le in E4. auto.
      * destruct stream; discriminate.
  - intros final res json Hf Hs Hlt.
    destruct (makeRequest_at_final fuel url final false json Hf) as [-> _].
    rewrite Hs. unfold settleWith.
    replace (400 <=? statusCode res) with false by (symmetry; apply Z.leb_gt; lia).
    destruct json; [destruct (parseJson (body res))|]; reflexivity.
  - intros final res json Hf Hs Hlt.
    destruct (makeRequest_at_final fuel url final false json Hf) as [-> _].
    rewrite Hs. unfold settleWith.
    replace (400 <=? statusCode res) with false by (symmetry; apply Z.leb_gt; lia).
    reflexivity.
Qed.

End HttpLemmas.

Lemma makeRequest_rejects_only_on_transport_or_status_witness :
  (exists final,
     finalUrl movedAway 5 "http://aem/old" = Some final /\
     (movedAway final = NetworkError "HTTP 404" \/
      (movedAway final = TimedOut /\ "HTTP 404" = "Request timeout") \/
      (exists res, headOf (movedAway final) = Some res /\ 400 <= statusCode res /\
                   "HTTP 404" = "HTTP " ++ numberToString (statusCode res)))) /\
  makeRequest loginPage (fun _ => None) 5 "http://aem/content/dam.1.json" false true
  = Some (ResolveData (Str "<html>")) /\
  makeRequest hangsUp (fun _ => None) 5 "http://aem/content/dam.1.json" false true = None.
Proof.
  split; [|split].
  - exact (proj1 (makeRequest_rejects_only_on_transport_or_status movedAway (fun _ => None)
                    5 "http://aem/old") false true "HTTP 404" eq_refl).
  - apply (proj1 (proj2 (makeRequest_rejects_only_on_transport_or_status loginPage
                           (fun _ => None) 5 "http://aem/content/dam.1.json"))
             "http://aem/content/dam.1.json"
             {| statusCode := 200; location := ""; body := "<html>" |} true);
      [reflexivity | reflexivity | simpl; lia].
  - apply (proj2 (proj2 (makeRequest_rejects_only_on_transport_or_status hangsUp
                           (fun _ => None) 5 "http://aem/content/dam.1.json"))
             "http://aem/content/dam.1.json"
             {| statusCode := 200; location := ""; body := "{" |} true);
      [reflexivity | reflexivity | simpl; lia].
Defined.

(** X4. Redirects are followed without a cap: when the answer at a URL
    is a redirect to that same URL, no number of hops settles the
    promise. *)
Theorem makeRequest_follows_redirects_without_limit :
  forall server parseJson url res stream json,
  server url = Answered res ->
  300 <= statusCode res < 400 ->
  location res = url ->
  url <> "" ->
  forall fuel, makeRequest server parseJson fuel url stream json = None.
Proof.
  intros server parseJson url res stream json Hs Hstatus Hloc Hurl fuel.
  assert (Hredirect : isRedirect res = true).
  { unfold isRedirect. rewrite Hloc. apply String.eqb_neq in Hurl. rewrite Hurl.
    replace (300 <=? statusCode res) with true by (symmetry; apply Z.leb_le; lia).
    replace (statusCode res <? 400) with true by (symmetry; apply Z.ltb_lt; lia).
    reflexivity. }
  induction fuel as [|fuel IH]; simpl; rewrite Hs, Hredirect.
  - reflexivity.
  - rewrite Hloc. exact IH.
Qed.

Lemma makeRequest_follows_redirects_without_limit_witness :
  makeRequest redirectsToItself (fun _ => None) 1000 "http://aem/loop" false true = None.
Proof.
  apply (makeRequest_follows_redirects_without_limit redirectsToItself (fun _ => None)
           "http://aem/loop" {| statusCode := 302; location := "http://aem/loop"; body := "" |}).
  - reflexivity.
  - simpl. lia.
  - reflexivity.
  - discriminate.
Defined.

(** An answer in the 300s without a Location header is no redirect: its
    empty body is no JSON and is handed on as text.  A request that went
    through a redirect is rejected with the status of the answer the
    redirect led to. *)
Example makeRequest_not_modified :
  makeRequest notModified (fun _ => None) 0 "http://aem/x.json" false true
  = Some (ResolveData (Str "")) /\
  makeRequest movedAway (fun _ => None) 5 "http://aem/old" false true
  = Some (Reject "HTTP 404").
Proof. split; reflexivity. Qed.

(** ** Traversal: what [maxDepth] and the test limit do *)

Section DepthLemmas.

Variable cfg : Config.
Variable m : Z.

Lemma processEntry_withMaxDepth : forall recurse recurse' basePath d key item c,
  d < maxDepth cfg -> d < m ->
  (d < 2 -> forall p c0, recurse p (d + 1) c0 = recurse' p (d + 1) c0) ->
  processEntry (withMaxDepth m cfg) recurse basePath d key item c
  = processEntry cfg recurse' basePath d key item c.
Proof.
  intros recurse recurse' basePath d key item c Hd Hm Hrec. unfold processEntry.
  change (isValidAsset (withMaxDepth m cfg)) with (isValidAsset cfg).
  change (testLimitReached (withMaxDepth m cfg)) with (testLimitReached cfg).
  change (testMode (withMaxDepth m cfg)) with (testMode cfg).
  change (testLimit (withMaxDepth m cfg)) with (testLimit cfg).
  change (maxDepth (withMaxDepth m cfg)) with m.
  replace (d <? m) with true by (symmetry; apply Z.ltb_lt; exact Hm).
  replace (d <? maxDepth cfg) with true by (symmetry; apply Z.ltb_lt; exact Hd).
  destruct (isSystemKey key); [reflexivity|].
  destruct (negb (truthy item) || negb (typeofObject item)); [reflexivity|].
  match goal with |- context [match ?x with Normal _ => _ | Thrown _ => _ end] =>
    destruct x as [[[itemPath primaryType] asset]|e] end; [|reflexivity].
  match goal with |- context [let '(_, _) := ?x in _] => destruct x as [returned c1] end.
  destruct returned; [reflexivity|].
  destruct (isFolder primaryType); [|reflexivity].
  destruct (d <? 2) eqn:E2; [|reflexivity].
  apply Z.ltb_lt in E2. simpl. rewrite (Hrec E2). reflexivity.
Qed.

Lemma processDAMData_withMaxDepth : forall data basePath d c,
  3 <= maxDepth cfg -> 3 <= m -> d <= 2 ->
  processDAMData (withMaxDepth m cfg) data basePath d c = processDAMData cfg data basePath d c.
Proof.
  intros data. induction data as [| | | | |items IH|props IH] using Val_nested_ind;
    intros basePath d c Hc Hm Hd; try reflexivity.
  - simpl. generalize 0%nat as i. revert c.
    induction IH as [|item rest Hitem _ IHrest]; intros c i; [reflexivity|].
    rewrite (processEntry_withMaxDepth (processDAMData (withMaxDepth m cfg) item)
               (processDAMData cfg item)); [|lia|lia|].
    + destruct (processEntry cfg (processDAMData cfg item) basePath d (indexKey i) item c)
        as [[| |e] c']; [apply IHrest|reflexivity|reflexivity].
    + intros H2 p c0. apply Hitem; lia.
  - simpl. revert c.
    induction IH as [|[key item] rest Hitem _ IHrest]; intros c; [reflexivity|].
    simpl in Hitem.
    rewrite (processEntry_withMaxDepth (processDAMData (withMaxDepth m cfg) item)
               (processDAMData cfg item)); [|lia|lia|].
    + destruct (processEntry cfg (processDAMData cfg item) basePath d key item c)
        as [[| |e] c']; [apply IHrest|reflexivity|reflexivity].
    + intros H2 p c0. apply Hitem; lia.
Qed.

Lemma scanFolder_withMaxDepth : forall net folderPath c,
  3 <= maxDepth cfg -> 3 <= m ->
  scanFolder (withMaxDepth m cfg) net folderPath 0 c = scanFolder cfg net folderPath 0 c.
Proof.
  intros net folderPath c Hc Hm. unfold scanFolder.
  change (maxDepth (withMaxDepth m cfg)) with m.
  replace (m <? 0) with false by (symmetry; apply Z.ltb_ge; lia).
  replace (maxDepth cfg <? 0) with false by (symmetry; apply Z.ltb_ge; lia).
  change (probeDepths (withMaxDepth m cfg)) with (probeDepths cfg).
  change (scanDepths (withMaxDepth m cfg)) with (scanDepths cfg).
  change (emitRequests (withMaxDepth m cfg)) with (emitRequests cfg).
  destruct (probeDepths cfg net folderPath (scanDepths cfg) (None, None, 0))
    as [[[bestData bestDepth] maxItems] asked].
  destruct bestData as [data|]; [|reflexivity].
  apply processDAMData_withMaxDepth; lia.
Qed.

Lemma discoverLoop_withMaxDepth : forall net fuel c,
  3 <= maxDepth cfg -> 3 <= m ->
  discoverLoop (withMaxDepth m cfg) net fuel c = discoverLoop cfg net fuel c.
Proof.
  intros net fuel. induction fuel as [|fuel IH]; intros c Hc Hm; [reflexivity|].
  simpl. destruct (folderQueue c) as [|currentPath rest]; [reflexivity|].
  destruct (has currentPath (processedPaths c)); [apply IH; assumption|].
  rewrite scanFolder_withMaxDepth by assumption.
  match goal with |- context [scanFolder cfg net currentPath 0 ?c0] =>
    destruct (scanFolder cfg net currentPath 0 c0) as [[u|e] c'] end; [|reflexivity].
  change (testLimitReached (withMaxDepth m cfg)) with (testLimitReached cfg).
  destruct (testLimitReached cfg c'); [reflexivity|].
  change (discoveryDelayDue (withMaxDepth m cfg)) with (discoveryDelayDue cfg).
  change (sleepTime (withMaxDepth m cfg)) with (sleepTime cfg).
  apply IH; assumption.
Qed.

End DepthLemmas.

(** X5. The [maxDepth] setting does not bound how deep the crawl goes:
    every folder is fetched at depth 0 and nested data is walked to depth
    2 at most, so with any value of 3 or more (50 is the one shipped) the
    discovery does exactly the same. *)
Theorem discovery_is_not_bounded_by_maxDepth : forall cfg m net fuel c,
  3 <= maxDepth cfg -> 3 <= m ->
  discoverAllAssets (withMaxDepth m cfg) net fuel c = discoverAllAssets cfg net fuel c.
Proof.
  intros cfg m net fuel c Hc Hm. unfold discoverAllAssets.
  rewrite discoverLoop_withMaxDepth by assumption. reflexivity.
Qed.

Lemma discovery_is_not_bounded_by_maxDepth_witness :
  discoverAllAssets (withMaxDepth 3 (defaultConfig "http://aem")) smallTree 10 emptyCrawl
  = discoverAllAssets (defaultConfig "http://aem") smallTree 10 emptyCrawl.
Proof.
  apply (discovery_is_not_bounded_by_maxDepth (defaultConfig "http://aem") 3 smallTree 10
           emptyCrawl); simpl; lia.
Defined.

(** ** Invariants of the discovery walk *)

Section WalkInvariant.

Variable cfg : Config.
Variable R : Crawl -> Crawl -> Prop.

Hypothesis R_refl : forall c, R c c.
Hypothesis R_trans : forall a b c, R a b -> R b c -> R a c.
Hypothesis R_push : forall p c, R c (setQueue (folderQueue c ++ [p]) c).
Hypothesis R_record : forall item itemPath info c,
  extractAssetInfo item itemPath = Normal (Some info) ->
  isValidAsset cfg info = true ->
  R c (setStats (incrTotalAssets (stats c))
         (setDiscovered (mapSet itemPath info (discoveredAssets c)) c)).

Lemma processEntry_keeps : forall recurse basePath d key item c,
  (forall p d' c0, R c0 (snd (recurse p d' c0))) ->
  R c (snd (processEntry cfg recurse basePath d key item c)).
Proof.
  intros recurse basePath d key item c Hrec. unfold processEntry.
  destruct (isSystemKey key); [apply R_refl|].
  destruct (negb (truthy item) || negb (typeofObject item)); [apply R_refl|].
  destruct (itemPathOf item basePath key) as [itemPath|e]; simpl; [|apply R_refl].
  destruct (getProp item "jcr:primaryType") as [primaryType|e]; simpl; [|apply R_refl].
  destruct (isAsset item primaryType) as [asset|e]; simpl; [|apply R_refl].
  destruct (if asset then extractAssetInfo item itemPath else Normal None)
    as [extracted|e] eqn:Ex; simpl; [|apply R_refl].
  set (recorded :=
         match extracted with
         | Some assetInfo =>
             if isValidAsset cfg assetInfo then
               (testLimitReached cfg
                  (setStats (incrTotalAssets (stats c))
                     (setDiscovered (mapSet itemPath assetInfo (discoveredAssets c)) c)),
                setStats (incrTotalAssets (stats c))
                  (setDiscovered (mapSet itemPath assetInfo (discoveredAssets c)) c))
             else (false, c)
         | None => (false, c)
         end).
  assert (H1 : R c (snd recorded)).
  { subst recorded. destruct extracted as [info|]; [|apply R_refl].
    destruct (isValidAsset cfg info) eqn:Ev; [|apply R_refl].
    simpl. eapply R_record; [|exact Ev].
    destruct asset; [exact Ex | discriminate]. }
  destruct recorded as [returned c1]. simpl in H1.
  destruct returned; [exact H1|].
  destruct (isFolder primaryType); [|exact H1].
  set (c2 := if negb (has itemPath (processedPaths c1)) && (d <? maxDepth cfg)
             then if negb (testMode cfg) || (totalAssets (stats c1) <? testLimit cfg)
                  then setQueue (folderQueue c1 ++ [itemPath]) c1 else c1
             else c1).
  assert (H2 : R c c2).
  { subst c2. destruct (negb (has itemPath (processedPaths c1)) && (d <? maxDepth cfg));
      [destruct (negb (testMode cfg) || (totalAssets (stats c1) <? testLimit cfg))|];
      eauto. }
  destruct ((d <? 2) && (negb (testMode cfg) || (totalAssets (stats c2) <? testLimit cfg))).
  - specialize (Hrec itemPath (d + 1) c2).
    destruct (recurse itemPath (d + 1) c2) as [[u|e] c3]; simpl in *; eauto.
  - exact H2.
Qed.

Lemma processDAMData_keeps : forall data basePath d c,
  R c (snd (processDAMData cfg data basePath d c)).
Proof.
  intros data. induction data as [| | | | |items IH|props IH] using Val_nested_ind;
    intros basePath d c; try apply R_refl.
  - simpl. generalize 0%nat as i. revert c.
    induction IH as [|item rest Hitem _ IHrest]; intros c i; [apply R_refl|].
    pose proof (processEntry_keeps (processDAMData cfg item) basePath d (indexKey i) item c) as H.
    destruct (processEntry cfg (processDAMData cfg item) basePath d (indexKey i) item c)
      as [[| |e] c']; simpl in H; try (apply H; intros; apply Hitem).
    eapply R_trans; [apply H; intros; apply Hitem | apply IHrest].
  - simpl. revert c.
    induction IH as [|[key item] rest Hitem _ IHrest]; intros c; [apply R_refl|].
    simpl in Hitem.
    pose proof (processEntry_keeps (processDAMData cfg item) basePath d key item c) as H.
    destruct (processEntry cfg (processDAMData cfg item) basePath d key item c)
      as [[| |e] c']; simpl in H; try (apply H; intros; apply Hitem).
    eapply R_trans; [apply H; intros; apply Hitem | apply IHrest].
Qed.

Hypothesis R_emit : forall e c, R c (emit e c).
Hypothesis R_scanned : forall c, R c (setStats (incrFoldersScanned (stats c)) c).
Hypothesis R_processed : forall p c, R c (setProcessed p c).
Hypothesis R_shift : forall q c, R c (setQueue q c).

Lemma emitRequests_keeps : forall folderPath asked c,
  R c (emitRequests cfg folderPath asked c).
Proof.
  intros folderPath asked. unfold emitRequests.
  induction asked as [|h rest IH]; intros c; simpl; [apply R_refl|].
  destruct (probeUrl cfg folderPath h) as [url|e]; [|apply IH].
  eapply R_trans; [apply R_emit | apply IH].
Qed.

Lemma scanFolder_keeps : forall net folderPath d c,
  R c (snd (scanFolder cfg net folderPath d c)).
Proof.
  intros net folderPath d c. unfold scanFolder.
  destruct (maxDepth cfg <? d); [apply R_refl|].
  destruct (probeDepths cfg net folderPath (scanDepths cfg) (None, None, 0))
    as [[[bestData bestDepth] maxItems] asked].
  assert (H : R c (emitRequests cfg folderPath asked
                     (emit (EvFetchTree folderPath)
                        (setStats (incrFoldersScanned (stats c)) c)))).
  { eapply R_trans; [apply R_scanned|].
    eapply R_trans; [apply R_emit | apply emitRequests_keeps]. }
  destruct bestData as [data|]; [|exact H].
  eapply R_trans; [exact H | apply processDAMData_keeps].
Qed.

Lemma discoverLoop_keeps : forall net fuel c,
  R c (snd (discoverLoop cfg net fuel c)).
Proof.
  intros net fuel. induction fuel as [|fuel IH]; intros c; simpl; [apply R_refl|].
  destruct (folderQueue c) as [|currentPath rest]; [apply R_refl|].
  destruct (has currentPath (processedPaths c)).
  - eapply R_trans; [apply (R_shift rest) | apply IH].
  - match goal with |- context [scanFolder cfg net currentPath 0 ?c0] =>
      assert (H : R c c0) by (eapply R_trans; [apply (R_shift rest) | apply R_processed]);
      pose proof (scanFolder_keeps net currentPath 0 c0) as Hs;
      destruct (scanFolder cfg net currentPath 0 c0) as [[u|e] c']
    end; simpl in Hs; [|eauto].
    destruct (testLimitReached cfg c'); [simpl; eauto|].
    destruct (discoveryDelayDue cfg c').
    + eapply R_trans; [|apply IH]. eauto.
    + eapply R_trans; [|apply IH]. eauto.
Qed.

Lemma discoverAllAssets_keeps : forall net fuel c,
  R c (snd (discoverAllAssets cfg net fuel c)).
Proof.
  intros net fuel c. unfold discoverAllAssets.
  pose proof (discoverLoop_keeps net fuel (setQueue (folderQueue c ++ [Str "/content/dam"]) c)) as H.
  destruct (discoverLoop cfg net fuel (setQueue (folderQueue c ++ [Str "/content/dam"]) c))
    as [r c'].
  simpl in *. eapply R_trans; [apply R_push | exact H].
Qed.

End WalkInvariant.

Lemma mapSet_length : forall (A : Type) k (v : A) m,
  (List.length (mapSet k v m) <= S (List.length m))%nat.
Proof.
  intros A k v m. induction m as [|[k' v'] rest IH]; simpl; [lia|].
  destruct (sameValueZero k' k); simpl; lia.
Qed.

(** X6. [totalAssets] counts recordings, not assets: over a discovery it
    never decreases and grows by at least as much as the map of
    discovered assets does, so the number reported is never below the
    number of assets found and can be above it. *)
Theorem totalAssets_counts_recordings : forall cfg net fuel c,
  let c' := snd (discoverAllAssets cfg net fuel c) in
  totalAssets (stats c) <= totalAssets (stats c') /\
  Z.of_nat (List.length (discoveredAssets c')) - Z.of_nat (List.length (discoveredAssets c))
  <= totalAssets (stats c') - totalAssets (stats c).
Proof.
  intros cfg net fuel c.
  apply (discoverAllAssets_keeps cfg
           (fun c c' =>
              totalAssets (stats c) <= totalAssets (stats c') /\
              Z.of_nat (List.length (discoveredAssets c'))
              - Z.of_nat (List.length (discoveredAssets c))
              <= totalAssets (stats c') - totalAssets (stats c))).
  - intros; lia.
  - intros a b c0 [H1 H2] [H3 H4]. lia.
  - intros; simpl; lia.
  - intros item itemPath info c0 _ _. simpl.
    pose proof (mapSet_length AssetInfo itemPath info (discoveredAssets c0)). lia.
  - intros; simpl; lia.
  - intros; simpl; lia.
  - intros; simpl; lia.
  - intros; simpl; lia.
Qed.

(** An asset that the listing of the root already shows inside its
    folder is counted again when the folder is fetched: one asset, a
    count of two. *)
Example asset_counted_twice :
  let c' := snd (discoverAllAssets (defaultConfig "http://aem") eagerServer 10 emptyCrawl) in
  map fst (discoveredAssets c') = [Str "/content/dam/a/x.png"] /\
  totalAssets (stats c') = 2.
Proof. vm_compute. split; reflexivity. Qed.

(** ** Discovered records *)

Lemma bind_Normal : forall (A B : Type) (c : Completion A) (k : A -> Completion B) b,
  JS.bind c k = Normal b -> exists a, c = Normal a /\ k a = Normal b.
Proof.
  intros A B [a|e] k b H; simpl in H; [eauto | discriminate].
Qed.

Lemma startsWith_slash : forall s,
  startsWith (if startsWith s "/" then s else "/" ++ s) "/" = true.
Proof.
  intros s. destruct (startsWith s "/") eqn:E; [exact E|].
  unfold startsWith. simpl. destruct s; reflexivity.
Qed.

(** A record comes from a string path only; its name, download path and
    extension are derived from that path. *)
Lemma extractAssetInfo_shape : forall assetNode assetPath info,
  extractAssetInfo assetNode assetPath = Normal (Some info) ->
  exists s,
    assetPath = Str s /\
    name info = Path.basenameStr s /\
    path info = (if startsWith s "/" then s else "/" ++ s) /\
    extension info
    = (let ext := slice1 (toLowerCase (Path.extname (Path.basenameStr s))) in
       if (ext =? "")%string then "unknown" else ext) /\
    matchReason info = None /\ matchedPattern info = None.
Proof.
  intros assetNode assetPath info H. unfold extractAssetInfo in H.
  destruct (extractAssetInfoBody assetNode assetPath) as [info'|e] eqn:Hb;
    [|destruct (toString assetPath); discriminate].
  injection H as <-. unfold extractAssetInfoBody in Hb.
  repeat (apply bind_Normal in Hb;
          let x := fresh "x" in
          let E := fresh "E" in
          destruct Hb as (x & E & Hb); cbv beta zeta in Hb).
  injection Hb as <-.
  match goal with E : Path.basename assetPath = Normal ?f |- _ =>
    destruct assetPath as [| | | |s| |]; simpl in E; try discriminate;
    injection E as <- end.
  match goal with E : toString (Str s) = Normal _ |- _ => injection E as <- end.
  exists s. simpl. repeat split; reflexivity.
Qed.

Lemma mapSet_sound : forall cfg k info m,
  soundEntry cfg (k, info) ->
  Forall (soundEntry cfg) m /\ NoDup (map fst m) ->
  Forall (soundEntry cfg) (mapSet k info m) /\ NoDup (map fst (mapSet k info m)).
Proof.
  intros cfg k info m Hk. induction m as [|[k' v'] rest IH]; intros [Hall Hnd]; simpl.
  - split; [constructor; [exact Hk | constructor] | constructor; [intros [] | constructor]].
  - inversion Hall as [|? ? Hhead Hrest]; subst. inversion Hnd as [|? ? Hnot Hnd']; subst.
    destruct (sameValueZero k' k) eqn:E.
    + apply sameValueZero_eq in E. subst k'. split.
      * constructor; assumption.
      * simpl. constructor; assumption.
    + destruct (IH (conj Hrest Hnd')) as [IHall IHnd]. split.
      * constructor; assumption.
      * simpl. constructor; [|exact IHnd].
        intros Hin. apply Hnot. clear - Hin E Hhead.
        destruct Hhead as (_ & _ & _ & s & Hs & _). simpl in Hs. subst k'.
        induction rest as [|[k2 v2] rest IH]; simpl in *.
        -- destruct Hin as [Hk|[]]. subst k. simpl in E.
           now rewrite String.eqb_refl in E.
        -- destruct (sameValueZero k2 k) eqn:E2; simpl in Hin; [exact Hin|].
           destruct Hin as [Hk|Hin]; [left; exact Hk | right; apply IH; exact Hin].
Qed.

Lemma Forall_slice0 : forall (A : Type) (P : A -> Prop) n l,
  Forall P l -> Forall P (slice0 n l).
Proof.
  intros A P n l H. unfold slice0.
  destruct (n <? 0).
  - rewrite <- (firstn_skipn (List.length l - Z.to_nat (- n)) l) in H.
    apply Forall_app in H. tauto.
  - rewrite <- (firstn_skipn (Z.to_nat n) l) in H. apply Forall_app in H. tauto.
Qed.

(** X7. The map of discovered assets holds one record per string path,
    and every record in it was built from its key and passed the filter
    of [isValidAsset]: the name is the last component of the path, the
    download path is the path made absolute, the extension is not empty.
    The assets that [discoverAllAssets] returns all pass the filter. *)
Theorem discovered_records_are_sound : forall cfg net fuel c,
  Forall (soundEntry cfg) (discoveredAssets c) ->
  NoDup (map fst (discoveredAssets c)) ->
  let result := discoverAllAssets cfg net fuel c in
  Forall (soundEntry cfg) (discoveredAssets (snd result)) /\
  NoDup (map fst (discoveredAssets (snd result))) /\
  Forall (fun a => isValidAsset cfg a = true) (snd (fst result)).
Proof.
  intros cfg net fuel c Hall Hnd result.
  assert (H : Forall (soundEntry cfg) (discoveredAssets (snd result)) /\
              NoDup (map fst (discoveredAssets (snd result)))).
  { subst result.
    apply (discoverAllAssets_keeps cfg
             (fun c c' =>
                Forall (soundEntry cfg) (discoveredAssets c) /\ NoDup (map fst (discoveredAssets c)) ->
                Forall (soundEntry cfg) (discoveredAssets c') /\
                NoDup (map fst (discoveredAssets c'))));
      try (intros; simpl; tauto).
    intros item itemPath info c0 Hex Hvalid H0. simpl.
      apply mapSet_sound; [|exact H0].
      destruct (extractAssetInfo_shape item itemPath info Hex)
        as (s & -> & Hname & Hpath & Hext & _).
      unfold soundEntry. simpl. split; [exact Hvalid|]. split; [|split].
      + rewrite Hpath. apply startsWith_slash.
      + rewrite Hext. cbv zeta.
        destruct (slice1 (toLowerCase (Path.extname (Path.basenameStr s))) =? "")%string eqn:E;
          [discriminate|].
        intros Heq. rewrite Heq in E. discriminate.
      + exists s. split; [reflexivity|]. split; [exact Hname|].
        rewrite Hpath. destruct (startsWith s "/"); auto. }
  destruct H as [Hs Hn]. split; [exact Hs|]. split; [exact Hn|].
  subst result. unfold discoverAllAssets in *.
  destruct (discoverLoop cfg net fuel (setQueue (folderQueue c ++ [Str "/content/dam"]) c))
    as [r c'].
  simpl in *.
  assert (Hv : Forall (fun a => isValidAsset cfg a = true) (map snd (discoveredAssets c'))).
  { apply Forall_map. eapply Forall_impl; [|exact Hs]. intros e He. apply He. }
  destruct (testMode cfg); [apply Forall_slice0|]; exact Hv.
Qed.

Lemma discovered_records_are_sound_witness :
  Forall (soundEntry (defaultConfig "http://aem"))
    (discoveredAssets (snd (discoverAllAssets (defaultConfig "http://aem") smallTree 10 emptyCrawl))) /\
  NoDup (map fst
    (discoveredAssets (snd (discoverAllAssets (defaultConfig "http://aem") smallTree 10 emptyCrawl)))) /\
  Forall (fun a => isValidAsset (defaultConfig "http://aem") a = true)
    (snd (fst (discoverAllAssets (defaultConfig "http://aem") smallTree 10 emptyCrawl))).
Proof.
  apply (discovered_records_are_sound (defaultConfig "http://aem") smallTree 10 emptyCrawl);
    constructor.
Defined.

(** ** Test mode *)

Section TestModeLemmas.

Variable cfg : Config.
Hypothesis test_on : testMode cfg = true.

Lemma nestedLevels_step : forall d, d < 2 -> nestedLevels (d + 1) = nestedLevels d - 1.
Proof.
  intros d Hd. unfold nestedLevels.
  destruct (Z.leb_spec 2 d); [lia|]. destruct (Z.leb_spec 2 (d + 1)); lia.
Qed.

Lemma nestedLevels_nonneg : forall d, 0 <= nestedLevels d.
Proof. intros d. unfold nestedLevels. destruct (Z.leb_spec 2 d); lia. Qed.

(** One entry: a [return] follows a recording; otherwise the count stays
    below the limit or is what the nested walk left. *)
Lemma processEntry_count : forall recurse basePath d key item c,
  (d < 2 -> forall p c0,
     totalAssets (stats c0) < testLimit cfg ->
     totalAssets (stats (snd (recurse p (d + 1) c0))) <= testLimit cfg + nestedLevels (d + 1)) ->
  let r := processEntry cfg recurse basePath d key item c in
  match fst r with
  | Return => totalAssets (stats (snd r)) <= Z.max (totalAssets (stats c)) (testLimit cfg - 1) + 1
  | _ => totalAssets (stats (snd r))
         <= Z.max (totalAssets (stats c)) (testLimit cfg - 1 + nestedLevels d)
  end.
Proof.
  intros recurse basePath d key item c Hrec. cbv zeta. unfold processEntry.
  pose proof (nestedLevels_nonneg d) as Hnn.
  destruct (isSystemKey key); [simpl; lia|].
  destruct (negb (truthy item) || negb (typeofObject item)); [simpl; lia|].
  match goal with |- context [match ?x with Normal _ => _ | Thrown _ => _ end] =>
    destruct x as [[[itemPath primaryType] extracted]|e] end; [|simpl; lia].
  set (recorded :=
         match extracted with
         | Some assetInfo =>
             if isValidAsset cfg assetInfo then
               (testLimitReached cfg
                  (setStats (incrTotalAssets (stats c))
                     (setDiscovered (mapSet itemPath assetInfo (discoveredAssets c)) c)),
                setStats (incrTotalAssets (stats c))
                  (setDiscovered (mapSet itemPath assetInfo (discoveredAssets c)) c))
             else (false, c)
         | None => (false, c)
         end).
  assert (H1 : if fst recorded
               then totalAssets (stats (snd recorded)) = totalAssets (stats c) + 1
               else totalAssets (stats (snd recorded))
                    <= Z.max (totalAssets (stats c)) (testLimit cfg - 1)).
  { subst recorded. destruct extracted as [info|]; [|simpl; lia].
    destruct (isValidAsset cfg info); [|simpl; lia].
    unfold testLimitReached. rewrite test_on. simpl.
    destruct (Z.leb_spec (testLimit cfg) (totalAssets (stats c) + 1)); simpl; lia. }
  destruct recorded as [returned c1]. simpl in H1.
  destruct returned; [simpl; lia|].
  destruct (isFolder primaryType); [|simpl; lia].
  set (c2 := if negb (has itemPath (processedPaths c1)) && (d <? maxDepth cfg)
             then if negb (testMode cfg) || (totalAssets (stats c1) <? testLimit cfg)
                  then setQueue (folderQueue c1 ++ [itemPath]) c1 else c1
             else c1).
  assert (H2 : stats c2 = stats c1).
  { subst c2. destruct (negb (has itemPath (processedPaths c1)) && (d <? maxDepth cfg));
      [destruct (negb (testMode cfg) || (totalAssets (stats c1) <? testLimit cfg))|];
      reflexivity. }
  rewrite test_on. simpl negb. rewrite orb_false_l.
  destruct (Z.ltb_spec d 2) as [Hd|Hd]; simpl andb; [|simpl; rewrite H2; lia].
  destruct (Z.ltb_spec (totalAssets (stats c2)) (testLimit cfg)) as [Hl|Hl];
    [|simpl; rewrite H2; lia].
  specialize (Hrec Hd itemPath c2 Hl). rewrite (nestedLevels_step d Hd) in Hrec.
  destruct (recurse itemPath (d + 1) c2) as [[u|e] c3]; simpl in *; lia.
Qed.

Lemma processDAMData_count : forall data basePath d c,
  totalAssets (stats (snd (processDAMData cfg data basePath d c)))
  <= Z.max (totalAssets (stats c)) (testLimit cfg - 1 + nestedLevels d) + 1.
Proof.
  intros data. induction data as [| | | | |items IH|props IH] using Val_nested_ind;
    intros basePath d c; try (simpl; lia).
  - simpl. generalize 0%nat as i. revert c.
    induction IH as [|item rest Hitem _ IHrest]; intros c i; [simpl; lia|].
    pose proof (processEntry_count (processDAMData cfg item) basePath d (indexKey i) item c) as H.
    cbv zeta in H.
    destruct (processEntry cfg (processDAMData cfg item) basePath d (indexKey i) item c)
      as [[| |e] c']; simpl in H.
    + specialize (IHrest c' (S i)).
      assert (totalAssets (stats c')
              <= Z.max (totalAssets (stats c)) (testLimit cfg - 1 + nestedLevels d)).
      { apply H. intros Hd p c0 Hc0. specialize (Hitem p (d + 1) c0).
        pose proof (nestedLevels_nonneg (d + 1)). lia. }
      lia.
    + simpl. pose proof (nestedLevels_nonneg d).
      assert (totalAssets (stats c') <= Z.max (totalAssets (stats c)) (testLimit cfg - 1) + 1).
      { apply H. intros Hd p c0 Hc0. specialize (Hitem p (d + 1) c0).
        pose proof (nestedLevels_nonneg (d + 1)). lia. }
      lia.
    + simpl.
      assert (totalAssets (stats c')
              <= Z.max (totalAssets (stats c)) (testLimit cfg - 1 + nestedLevels d)).
      { apply H. intros Hd p c0 Hc0. specialize (Hitem p (d + 1) c0).
        pose proof (nestedLevels_nonneg (d + 1)). lia. }
      lia.
  - simpl. revert c.
    induction IH as [|[key item] rest Hitem _ IHrest]; intros c; [simpl; lia|].
    simpl in Hitem.
    pose proof (processEntry_count (processDAMData cfg item) basePath d key item c) as H.
    cbv zeta in H.
    destruct (processEntry cfg (processDAMData cfg item) basePath d key item c)
      as [[| |e] c']; simpl in H.
    + specialize (IHrest c').
      assert (totalAssets (stats c')
              <= Z.max (totalAssets (stats c)) (testLimit cfg - 1 + nestedLevels d)).
      { apply H. intros Hd p c0 Hc0. specialize (Hitem p (d + 1) c0).
        pose proof (nestedLevels_nonneg (d + 1)). lia. }
      lia.
    + simpl. pose proof (nestedLevels_nonneg d).
      assert (totalAssets (stats c') <= Z.max (totalAssets (stats c)) (testLimit cfg - 1) + 1).
      { apply H. intros Hd p c0 Hc0. specialize (Hitem p (d + 1) c0).
        pose proof (nestedLevels_nonneg (d + 1)). lia. }
      lia.
    + simpl.
      assert (totalAssets (stats c')
              <= Z.max (totalAssets (stats c)) (testLimit cfg - 1 + nestedLevels d)).
      { apply H. intros Hd p c0 Hc0. specialize (Hitem p (d + 1) c0).
        pose proof (nestedLevels_nonneg (d + 1)). lia. }
      lia.
Qed.

Lemma scanFolder_count : forall net folderPath c,
  totalAssets (stats (snd (scanFolder cfg net folderPath 0 c)))
  <= Z.max (totalAssets (stats c)) (testLimit cfg + 1) + 1.
Proof.
  intros net folderPath c. unfold scanFolder.
  destruct (maxDepth cfg <? 0); [simpl; lia|].
  destruct (probeDepths cfg net folderPath (scanDepths cfg) (None, None, 0))
    as [[[bestData bestDepth] maxItems] asked].
  match goal with |- context [emitRequests cfg folderPath asked ?c0] =>
    destruct (emitRequests_same cfg folderPath asked c0) as (_ & Hs & _);
    set (c1 := emitRequests cfg folderPath asked c0) in * end.
  simpl in Hs.
  destruct bestData as [data|]; [|simpl; rewrite Hs; simpl; lia].
  pose proof (processDAMData_count data folderPath 0 c1) as H.
  rewrite Hs in H. simpl in H. unfold nestedLevels in H. simpl in H. lia.
Qed.

Lemma discoverLoop_count : forall net fuel c,
  totalAssets (stats c) < testLimit cfg ->
  totalAssets (stats (snd (discoverLoop cfg net fuel c))) <= testLimit cfg + 2.
Proof.
  intros net fuel. induction fuel as [|fuel IH]; intros c Hc; simpl; [lia|].
  destruct (folderQueue c) as [|currentPath rest]; [simpl; lia|].
  destruct (has currentPath (processedPaths c)); [apply IH; exact Hc|].
  match goal with |- context [scanFolder cfg net currentPath 0 ?c0] =>
    pose proof (scanFolder_count net currentPath c0) as Hs;
    destruct (scanFolder cfg net currentPath 0 c0) as [[u|e] c']
  end; simpl in Hs; [|simpl; lia].
  unfold testLimitReached. rewrite test_on. simpl andb.
  destruct (Z.leb_spec (testLimit cfg) (totalAssets (stats c'))) as [Hl|Hl]; [simpl; lia|].
  apply IH. destruct (discoveryDelayDue cfg c'); simpl; lia.
Qed.

End TestModeLemmas.

Lemma slice0_length : forall (A : Type) n (l : list A),
  0 <= n -> Z.of_nat (List.length (slice0 n l)) <= n.
Proof.
  intros A n l Hn. unfold slice0.
  destruct (Z.ltb_spec n 0); [lia|]. rewrite length_firstn. lia.
Qed.

(** X8. In test mode the discovery stops at the limit only roughly: the
    walk of a listing returns at the limit, but the walks of the two
    enclosing levels of nested data go on and each can record one more
    asset, so [totalAssets] ends at most 2 above [testLimit].  The list
    handed to the caller is cut to [testLimit]. *)
Theorem test_mode_overshoots_by_two_at_most : forall cfg net fuel c,
  testMode cfg = true ->
  0 <= totalAssets (stats c) < testLimit cfg ->
  let result := discoverAllAssets cfg net fuel c in
  totalAssets (stats (snd result)) <= testLimit cfg + 2 /\
  Z.of_nat (List.length (snd (fst result))) <= testLimit cfg.
Proof.
  intros cfg net fuel c Htest Hc result. subst result. unfold discoverAllAssets.
  pose proof (discoverLoop_count cfg Htest net fuel
                (setQueue (folderQueue c ++ [Str "/content/dam"]) c)) as H.
  destruct (discoverLoop cfg net fuel (setQueue (folderQueue c ++ [Str "/content/dam"]) c))
    as [r c'].
  simpl in *. split; [apply H; lia|].
  rewrite Htest. apply slice0_length. lia.
Qed.

Lemma test_mode_overshoots_by_two_at_most_witness :
  totalAssets (stats (snd (discoverAllAssets (inTestMode 1 (defaultConfig "http://aem"))
                             deepServer 10 emptyCrawl))) <= 1 + 2 /\
  Z.of_nat (List.length (snd (fst (discoverAllAssets (inTestMode 1 (defaultConfig "http://aem"))
                                     deepServer 10 emptyCrawl)))) <= 1.
Proof.
  apply (test_mode_overshoots_by_two_at_most (inTestMode 1 (defaultConfig "http://aem"))
           deepServer 10 emptyCrawl); [reflexivity | simpl; lia].
Defined.

(** The bound is met: with a limit of 1 the walk records three assets,
    one per level, and one is returned. *)
Example test_limit_exceeded_by_two :
  let result := discoverAllAssets (inTestMode 1 (defaultConfig "http://aem"))
                  deepServer 10 emptyCrawl in
  fst (fst result) = Finished /\
  totalAssets (stats (snd result)) = 3 /\
  map fst (discoveredAssets (snd result))
  = [Str "/content/dam/f/g/g.png"; Str "/content/dam/f/f.png"; Str "/content/dam/r.png"] /\
  map path (snd (fst result)) = ["/content/dam/f/g/g.png"].
Proof. vm_compute. repeat split; reflexivity. Qed.

(** ** Requests per folder *)

Lemma countTreeFetches_app : forall t1 t2,
  countTreeFetches (t1 ++ t2) = (countTreeFetches t1 + countTreeFetches t2)%nat.
Proof. intros. unfold countTreeFetches. now rewrite filter_app, length_app. Qed.

Lemma countCalls_app : forall t1 t2,
  countCalls (t1 ++ t2) = (countCalls t1 + countCalls t2)%nat.
Proof. intros. unfold countCalls. now rewrite filter_app, length_app. Qed.

(** A fetch makes one call for each hint probed, and none when the path
    of the folder has no conversion to a string. *)
Lemma counts_of_fetchEvents : forall cfg folderPath asked,
  countTreeFetches (fetchEvents cfg folderPath asked) = 1%nat /\
  countCalls (fetchEvents cfg folderPath asked)
  = if printable folderPath then List.length asked else 0%nat.
Proof.
  intros cfg folderPath asked. unfold fetchEvents, requestEvents.
  change (EvFetchTree folderPath :: ?l) with ([EvFetchTree folderPath] ++ l)%list.
  rewrite countTreeFetches_app, countCalls_app.
  unfold probeUrl, printable.
  destruct (toString folderPath) as [p|e]; simpl;
    (induction asked as [|h rest [IH1 IH2]]; simpl; [auto|]); split; auto.
  unfold countCalls in *. simpl in *. now rewrite IH2.
Qed.

Lemma withinBudget_refl : forall k c, withinBudget k c c.
Proof.
  intros k c. exists []. rewrite app_nil_r. unfold countTreeFetches, countCalls. simpl.
  repeat split; lia.
Qed.

Lemma withinBudget_trans : forall k a b c,
  withinBudget k a b -> withinBudget k b c -> withinBudget k a c.
Proof.
  intros k a b c (n1 & T1 & F1 & U1) (n2 & T2 & F2 & U2).
  exists (n1 ++ n2)%list. rewrite T2, T1, F2, F1, countTreeFetches_app, countCalls_app.
  repeat split; [now rewrite app_assoc | lia | nia].
Qed.

(** A step that adds no fetch: the queue, the processed set, a pause. *)
Lemma withinBudget_idle : forall k c c' pause,
  trace c' = (trace c ++ pause)%list ->
  foldersScanned (stats c') = foldersScanned (stats c) ->
  countTreeFetches pause = 0%nat -> countCalls pause = 0%nat ->
  withinBudget k c c'.
Proof.
  intros k c c' pause Ht Hf H1 H2. exists pause. rewrite H1, H2, Hf. repeat split; auto; lia.
Qed.

(** One fetch: the folder event, then a call for each hint at most. *)
Lemma withinBudget_fetch : forall k cfg c c' folderPath asked,
  trace c' = (trace c ++ fetchEvents cfg folderPath asked)%list ->
  foldersScanned (stats c') = foldersScanned (stats c) + 1 ->
  (1 <= List.length asked <= k)%nat ->
  withinBudget k c c'.
Proof.
  intros k cfg c c' folderPath asked Ht Hf Hlen.
  exists (fetchEvents cfg folderPath asked).
  destruct (counts_of_fetchEvents cfg folderPath asked) as [-> ->].
  repeat split; auto. destruct (printable folderPath); lia.
Qed.

Lemma probeDepths_asks : forall cfg net folderPath jsonDepths best,
  jsonDepths <> [] ->
  (1 <= List.length (snd (probeDepths cfg net folderPath jsonDepths best))
   <= List.length jsonDepths)%nat.
Proof.
  intros cfg net folderPath jsonDepths.
  induction jsonDepths as [|h rest IH]; intros [[bd bdep] mx] Hne; [congruence|].
  simpl.
  assert (Hrest : forall best',
            (List.length (snd (probeDepths cfg net folderPath rest best'))
             <= List.length rest)%nat).
  { intros best'. destruct rest as [|h' rest']; [destruct best' as [[? ?] ?]; simpl; lia|].
    apply IH. discriminate. }
  destruct (probe cfg net folderPath h) as [e|d].
  - specialize (Hrest (bd, bdep, mx)).
    destruct (probeDepths cfg net folderPath rest (bd, bdep, mx)) as [final asked].
    simpl in *. lia.
  - destruct (isStructured d).
    + destruct (mx <? itemCount d).
      * destruct (50 <? itemCount d); [simpl; lia|].
        specialize (Hrest (Some d, Some h, itemCount d)).
        destruct (probeDepths cfg net folderPath rest (Some d, Some h, itemCount d))
          as [final asked].
        simpl in *. lia.
      * specialize (Hrest (bd, bdep, mx)).
        destruct (probeDepths cfg net folderPath rest (bd, bdep, mx)) as [final asked].
        simpl in *. lia.
    + specialize (Hrest (bd, bdep, mx)).
      destruct (probeDepths cfg net folderPath rest (bd, bdep, mx)) as [final asked].
      simpl in *. lia.
Qed.

Lemma probeFirst_asks : forall cfg net folderPath jsonDepths,
  jsonDepths <> [] ->
  (1 <= List.length (snd (probeFirst cfg net folderPath jsonDepths))
   <= List.length jsonDepths)%nat.
Proof.
  intros cfg net folderPath jsonDepths.
  induction jsonDepths as [|h rest IH]; intros Hne; [congruence|].
  simpl.
  assert (Hrest : (List.length (snd (probeFirst cfg net folderPath rest))
                   <= List.length rest)%nat).
  { destruct rest as [|h' rest']; [simpl; lia|]. apply IH. discriminate. }
  destruct (probe cfg net folderPath h) as [e|d].
  - destruct (probeFirst cfg net folderPath rest) as [r asked]. simpl in *. lia.
  - destruct (isStructured d); [simpl; lia|].
    destruct (probeFirst cfg net folderPath rest) as [r asked]. simpl in *. lia.
Qed.

Lemma scanDepths_length : forall cfg, (1 <= List.length (scanDepths cfg) <= 6)%nat.
Proof. intros cfg. unfold scanDepths. destruct (smartDepthDetection cfg); simpl; lia. Qed.

Lemma scanFolder_budget : forall cfg net folderPath d c,
  withinBudget (List.length (scanDepths cfg)) c (snd (scanFolder cfg net folderPath d c)).
Proof.
  intros cfg net folderPath d c. unfold scanFolder.
  destruct (maxDepth cfg <? d); [apply withinBudget_refl|].
  pose proof (probeDepths_asks cfg net folderPath (scanDepths cfg) (None, None, 0)) as Hlen.
  destruct (probeDepths cfg net folderPath (scanDepths cfg) (None, None, 0))
    as [[[bestData bestDepth] maxItems] asked].
  simpl in Hlen.
  set (c1 := emitRequests cfg folderPath asked
               (emit (EvFetchTree folderPath) (setStats (incrFoldersScanned (stats c)) c))).
  assert (Ht : trace c1 = (trace c ++ fetchEvents cfg folderPath asked)%list).
  { subst c1. rewrite emitRequests_trace. simpl. now rewrite <- app_assoc. }
  destruct (emitRequests_same cfg folderPath asked
              (emit (EvFetchTree folderPath) (setStats (incrFoldersScanned (stats c)) c)))
    as (_ & Hs & _).
  fold c1 in Hs. simpl in Hs.
  assert (Hne : scanDepths cfg <> []).
  { pose proof (scanDepths_length cfg). destruct (scanDepths cfg); [simpl in *; lia | discriminate]. }
  destruct bestData as [data|]; simpl.
  - destruct (processDAMData_quiet cfg data folderPath d c1) as (_ & Hq2 & Hq3).
    apply (withinBudget_fetch _ cfg c _ folderPath asked);
      [now rewrite Hq2 | rewrite Hq3, Hs; reflexivity | auto].
  - apply (withinBudget_fetch _ cfg c _ folderPath asked);
      [exact Ht | rewrite Hs; reflexivity | auto].
Qed.

Lemma discoverLoop_budget : forall cfg net fuel c,
  withinBudget (List.length (scanDepths cfg)) c (snd (discoverLoop cfg net fuel c)).
Proof.
  intros cfg net fuel. induction fuel as [|fuel IH]; intros c; simpl;
    [apply withinBudget_refl|].
  destruct (folderQueue c) as [|currentPath rest]; [apply withinBudget_refl|].
  destruct (has currentPath (processedPaths c)).
  - eapply withinBudget_trans; [|apply IH].
    apply (withinBudget_idle _ c _ []); simpl; auto using app_nil_r.
  - match goal with |- context [scanFolder cfg net currentPath 0 ?c0] =>
      pose proof (scanFolder_budget cfg net currentPath 0 c0) as Hs;
      destruct (scanFolder cfg net currentPath 0 c0) as [[u|e] c']
    end; simpl in Hs; [|exact Hs].
    destruct (testLimitReached cfg c'); [exact Hs|].
    eapply withinBudget_trans; [exact Hs|].
    eapply withinBudget_trans; [|apply IH].
    destruct (discoveryDelayDue cfg c').
    + apply (withinBudget_idle _ c' _ [EvSleep (sleepTime cfg)]); reflexivity.
    + apply withinBudget_refl.
Qed.

Lemma searchFolder_budget : forall cfg net matcher folderPath c,
  withinBudget 4 c (snd (searchFolder cfg net matcher folderPath c)).
Proof.
  intros cfg net matcher folderPath c. unfold searchFolder.
  pose proof (probeFirst_asks cfg net folderPath searchDepths) as Hlen.
  destruct (probeFirst cfg net folderPath searchDepths) as [bestData asked].
  simpl in Hlen.
  set (c1 := emitRequests cfg folderPath asked
               (emit (EvFetchTree folderPath) (setStats (incrFoldersScanned (stats c)) c))).
  assert (Ht : trace c1 = (trace c ++ fetchEvents cfg folderPath asked)%list).
  { subst c1. rewrite emitRequests_trace. simpl. now rewrite <- app_assoc. }
  destruct (emitRequests_same cfg folderPath asked
              (emit (EvFetchTree folderPath) (setStats (incrFoldersScanned (stats c)) c)))
    as (_ & Hs & _).
  fold c1 in Hs. simpl in Hs.
  assert (Hne : searchDepths <> []) by discriminate.
  destruct bestData as [data|]; simpl.
  - destruct (searchData_ok matcher (fun _ => True) (fun _ _ _ _ => I) data folderPath c1)
      as ((_ & Hq2 & Hq3) & _).
    apply (withinBudget_fetch _ cfg c _ folderPath asked);
      [now rewrite Hq2 | rewrite Hq3, Hs; reflexivity | auto].
  - apply (withinBudget_fetch _ cfg c _ folderPath asked);
      [exact Ht | rewrite Hs; reflexivity | auto].
Qed.

Lemma findLoop_budget : forall cfg net matcher fuel found c,
  withinBudget 4 c (snd (findLoop cfg net matcher fuel found c)).
Proof.
  intros cfg net matcher fuel. induction fuel as [|fuel IH]; intros found c; simpl;
    [apply withinBudget_refl|].
  destruct (folderQueue c) as [|currentPath rest]; [apply withinBudget_refl|].
  destruct (has currentPath (processedPaths c)).
  - eapply withinBudget_trans; [|apply IH].
    apply (withinBudget_idle _ c _ []); simpl; auto using app_nil_r.
  - match goal with |- context [searchFolder cfg net matcher currentPath ?c0] =>
      pose proof (searchFolder_budget cfg net matcher currentPath c0) as Hs;
      destruct (searchFolder cfg net matcher currentPath c0) as [[matches|e] c']
    end; simpl in Hs; [|exact Hs].
    eapply withinBudget_trans; [exact Hs|].
    eapply withinBudget_trans; [|apply IH].
    destruct (searchDelayDue c').
    + apply (withinBudget_idle _ c' _ [EvSleep (sleepTime cfg)]); reflexivity.
    + apply withinBudget_refl.
Qed.

(** One call sends [retryAttempts] requests at most. *)
Lemma sentCount_call : forall rs request url,
  (1 <= sentCount (snd (makeRequestWithRetry rs request url 1)) <= triesPerCall rs)%nat.
Proof.
  intros rs request url. unfold makeRequestWithRetry, triesPerCall.
  destruct (retryLoop_shape rs request (Z.to_nat (retryAttempts rs - 1)) url 1)
    as (tries & Hrange & Hwire & _).
  rewrite Hwire, sentCount_wireOf. lia.
Qed.

Lemma requestsSent_app : forall rs request t1 t2,
  requestsSent rs request (t1 ++ t2)
  = (requestsSent rs request t1 + requestsSent rs request t2)%nat.
Proof. intros. unfold requestsSent. now rewrite map_app, list_sum_app. Qed.

Lemma requestsSent_bound : forall rs request t,
  (countCalls t <= requestsSent rs request t <= triesPerCall rs * countCalls t)%nat.
Proof.
  intros rs request t. induction t as [|e t IH].
  - unfold countCalls, requestsSent. simpl. lia.
  - change (e :: t) with ([e] ++ t)%list. rewrite requestsSent_app, countCalls_app.
    assert (H : (countCalls [e] <= requestsSent rs request [e]
                 <= triesPerCall rs * countCalls [e])%nat).
    { unfold countCalls, requestsSent.
      destruct e as [p|url|ms]; cbn [map filter list_sum fold_right List.length];
        try lia.
      pose proof (sentCount_call rs request url). lia. }
    lia.
Qed.

(** X9. What a discovery costs the server.  [foldersScanned] grows by
    the number of folder fetches.  A fetch calls [makeRequestWithRetry]
    once per depth hint at most, that is 6 times (2 with
    [smartDepthDetection] off), and every call sends between one and
    [retryAttempts] requests: a fetch sends 6 times [retryAttempts]
    requests at most.  Walking a listing adds no event: it sends
    nothing. *)
Theorem discovery_request_budget : forall cfg rs request fuel c,
  let c' := snd (discoverAllAssets cfg (retrying rs request) fuel c) in
  let perFolder := if smartDepthDetection cfg then 6%nat else 2%nat in
  (exists new,
     trace c' = (trace c ++ new)%list /\
     foldersScanned (stats c') = foldersScanned (stats c) + Z.of_nat (countTreeFetches new) /\
     (countCalls new <= perFolder * countTreeFetches new)%nat /\
     (countCalls new <= requestsSent rs request new)%nat /\
     (requestsSent rs request new <= perFolder * triesPerCall rs * countTreeFetches new)%nat) /\
  (forall data basePath d c0,
     trace (snd (processDAMData cfg data basePath d c0)) = trace c0).
Proof.
  intros cfg rs request fuel c. cbv zeta. split.
  - unfold discoverAllAssets.
    pose proof (discoverLoop_budget cfg (retrying rs request) fuel
                  (setQueue (folderQueue c ++ [Str "/content/dam"]) c)) as H.
    destruct (discoverLoop cfg (retrying rs request) fuel
                (setQueue (folderQueue c ++ [Str "/content/dam"]) c)) as [r c'].
    simpl in *. destruct H as (new & Ht & Hf & Hu). exists new.
    pose proof (requestsSent_bound rs request new) as Hsent.
    assert (Hcalls : (countCalls new
                      <= (if smartDepthDetection cfg then 6 else 2) * countTreeFetches new)%nat).
    { unfold scanDepths in Hu. destruct (smartDepthDetection cfg); exact Hu. }
    repeat split; auto; try lia. nia.
  - intros data basePath d c0.
    destruct (processDAMData_quiet cfg data basePath d c0) as (_ & Ht & _). exact Ht.
Qed.

(** X10. What a search costs the server.  [foldersScanned] grows by the
    number of folder fetches.  A fetch calls [makeRequestWithRetry] 4
    times at most, whatever the matching block is, and so sends 4 times
    [retryAttempts] requests at most. *)
Theorem search_request_budget : forall cfg rs request matcher fuel c,
  let c' := snd (findWith cfg (retrying rs request) matcher fuel c) in
  exists new,
    trace c' = (trace c ++ new)%list /\
    foldersScanned (stats c') = foldersScanned (stats c) + Z.of_nat (countTreeFetches new) /\
    (countCalls new <= 4 * countTreeFetches new)%nat /\
    (countCalls new <= requestsSent rs request new)%nat /\
    (requestsSent rs request new <= 4 * triesPerCall rs * countTreeFetches new)%nat.
Proof.
  intros cfg rs request matcher fuel c. cbv zeta. unfold findWith.
  destruct (findLoop_budget cfg (retrying rs request) matcher fuel []
              (setQueue (folderQueue c ++ [Str "/content/dam"]) c)) as (new & Ht & Hf & Hu).
  exists new. pose proof (requestsSent_bound rs request new) as Hsent.
  repeat split; auto; try lia. nia.
Qed.

(** With the shipped settings a folder that cannot be listed costs 18
    requests in a discovery and 12 in a search; a folder whose path has
    no conversion to a string is counted as scanned and costs none. *)
Example cost_of_a_missing_folder :
  requestsSent defaultRetry alwaysMissing
    (trace (snd (discoverAllAssets (defaultConfig "http://aem")
                   (retrying defaultRetry alwaysMissing) 5 emptyCrawl))) = 18%nat /\
  requestsSent defaultRetry alwaysMissing
    (trace (snd (findAssets (defaultConfig "http://aem")
                   (retrying defaultRetry alwaysMissing) "logo" 5 emptyCrawl))) = 12%nat /\
  (let c := snd (scanFolder (defaultConfig "http://aem") (retrying defaultRetry alwaysMissing)
                   unprintablePath 0 emptyCrawl) in
   foldersScanned (stats c) = 1 /\ countCalls (trace c) = 0%nat).
Proof. vm_compute. repeat split. Qed.

(** ** Matcher *)

Lemma prefix_trans : forall a b c,
  String.prefix a b = true -> String.prefix b c = true -> String.prefix a c = true.
Proof.
  induction a as [|x a IH]; intros b c Hab Hbc; [destruct c; reflexivity|].
  destruct b as [|y b]; [discriminate|]. destruct c as [|z c]; [discriminate|].
  simpl in *.
  destruct (Ascii.ascii_dec x y) as [->|]; [|discriminate].
  destruct (Ascii.ascii_dec y z) as [->|]; [|discriminate].
  eauto.
Qed.

Lemma prefix_empty : forall s, String.prefix "" s = true.
Proof. destruct s; reflexivity. Qed.

Lemma prefix_cons : forall c a b,
  String.prefix a b = true -> String.prefix (String c a) (String c b) = true.
Proof.
  intros c a b H. simpl. destruct (Ascii.ascii_dec c c); [exact H | congruence].
Qed.

(** The first piece of a split is a prefix of the string. *)
Lemma split_head_prefix : forall sep s,
  match split sep s with
  | seg :: _ => String.prefix seg s = true
  | [] => False
  end.
Proof.
  intros sep s. induction s as [|c rest IH]; simpl; [reflexivity|].
  destruct (Ascii.eqb c sep); [reflexivity|].
  destruct (split sep rest) as [|seg segs]; [contradiction|].
  apply prefix_cons. exact IH.
Qed.

Lemma includes_empty : forall s, includes s "" = true.
Proof. intros s. destruct s; reflexivity. Qed.

Lemma includes_tail : forall c s p, includes s p = true -> includes (String c s) p = true.
Proof. intros c s p H. simpl. rewrite H. apply orb_true_r. Qed.

(** What a piece of a path contains, the path contains. *)
Lemma includes_segment : forall sep s p seg,
  In seg (split sep s) -> includes seg p = true -> includes s p = true.
Proof.
  intros sep s p. induction s as [|c rest IH]; intros seg Hin Hp.
  - simpl in Hin. destruct Hin as [<-|[]]. exact Hp.
  - simpl in Hin. destruct (Ascii.eqb c sep).
    + destruct Hin as [<-|Hin].
      * simpl in Hp. rewrite orb_false_r in Hp. destruct p; [|discriminate].
        apply includes_empty.
      * apply includes_tail. eauto.
    + pose proof (split_head_prefix sep rest) as Hhead.
      destruct (split sep rest) as [|seg0 segs]; [contradiction|].
      destruct Hin as [<-|Hin].
      * change (includes (String c seg0) p)
          with (String.prefix p (String c seg0) || includes seg0 p) in Hp.
        apply orb_true_iff in Hp. destruct Hp as [Hp|Hp].
        -- change (includes (String c rest) p)
             with (String.prefix p (String c rest) || includes rest p).
           apply orb_true_iff. left.
           eapply prefix_trans; [exact Hp | apply prefix_cons; exact Hhead].
        -- apply includes_tail. apply (IH seg0); [now left | exact Hp].
      * apply includes_tail. apply (IH seg); [now right | exact Hp].
Qed.

Lemma checkPatternMatch_reason : forall a p reason,
  checkPatternMatch a p = Normal (Some reason) ->
  In reason ["Full path match"; "Filename match"; "Filename without extension match";
             "Title match"; "Description match"; "Keywords match"].
Proof.
  intros a p reason H. unfold checkPatternMatch in H.
  apply bind_Normal in H. destruct H as (titleCheck & Ht & H).
  apply bind_Normal in H. destruct H as (descriptionCheck & Hd & H).
  apply bind_Normal in H. destruct H as (keywordsCheck & Hk & H). cbv beta zeta in H.
  assert (Htitle : forall check, In check titleCheck -> snd check = "Title match").
  { destruct (truthy (title a)).
    - apply bind_Normal in Ht. destruct Ht as (v & _ & Ht). injection Ht as <-.
      intros check [<-|[]]. reflexivity.
    - injection Ht as <-. intros check []. }
  assert (Hdesc : forall check, In check descriptionCheck -> snd check = "Description match").
  { destruct (truthy (description a)).
    - apply bind_Normal in Hd. destruct Hd as (v & _ & Hd). injection Hd as <-.
      intros check [<-|[]]. reflexivity.
    - injection Hd as <-. intros check []. }
  assert (Hkey : forall check, In check keywordsCheck -> snd check = "Keywords match").
  { destruct (truthy (keywords a)).
    - apply bind_Normal in Hk. destruct Hk as (v & _ & Hk). injection Hk as <-.
      intros check [<-|[]]. reflexivity.
    - injection Hk as <-. intros check []. }
  match type of H with context [find ?f ?l] => destruct (find f l) as [check|] eqn:Hfind end.
  - apply find_some in Hfind. destruct Hfind as [Hin _].
    injection H as <-.
    destruct Hin as [<-|[<-|[<-|Hin]]]; simpl; auto.
    change (In check (titleCheck ++ descriptionCheck ++ keywordsCheck)%list) in Hin.
    apply in_app_or in Hin. destruct Hin as [Hin|Hin];
      [rewrite (Htitle _ Hin); simpl; auto|].
    apply in_app_or in Hin. destruct Hin as [Hin|Hin];
      [rewrite (Hdesc _ Hin); simpl; auto 6|].
    rewrite (Hkey _ Hin). simpl. auto 7.
  - exfalso. simpl in Hfind.
    destruct (includes (toLowerCase (path a)) p) eqn:Hfull; [discriminate|].
    match type of H with context [existsb ?f ?l] => destruct (existsb f l) eqn:Hseg end;
      [|discriminate].
    apply existsb_exists in Hseg. destruct Hseg as (seg & Hin & Hp).
    rewrite (includes_segment _ _ _ _ Hin Hp) in Hfull. discriminate.
Qed.

(** X11. The reason of a match is one of six: the path, the file name,
    the file name without its extension, the title, the description or
    the keywords.  The seventh the code provides for, [Path segment
    match], is never given: a pattern found in a piece of the path is
    found in the whole path, which is tested first. *)
Theorem match_reason_is_one_of_six : forall assetInfo pattern,
  match checkPatternMatch assetInfo pattern with
  | Normal (Some reason) =>
      In reason ["Full path match"; "Filename match"; "Filename without extension match";
                 "Title match"; "Description match"; "Keywords match"]
  | _ => True
  end.
Proof.
  intros a p. destruct (checkPatternMatch a p) as [[reason|]|e] eqn:H; [|exact I|exact I].
  exact (checkPatternMatch_reason a p reason H).
Qed.

(** The check of a field that is lower-cased raises exactly on a truthy
    value that is no string. *)
Lemma lowerCased_check : forall v reason,
  match (if truthy v
         then x <- callToLowerCase v ;; Normal [(x, reason)]
         else Normal []) : Completion (list (string * string)) with
  | Normal _ => notLowerCasable v = false
  | Thrown _ => notLowerCasable v = true
  end.
Proof.
  intros [| |b|n|s|items|props] reason; unfold notLowerCasable; simpl; try reflexivity;
    [destruct b | destruct (n =? 0) | destruct (s =? "")%string]; reflexivity.
Qed.

(** The check of the keywords raises exactly on a truthy value without
    a conversion to a string. *)
Lemma printed_check : forall v reason,
  match (if truthy v
         then x <- toString v ;; Normal [(toLowerCase x, reason)]
         else Normal []) : Completion (list (string * string)) with
  | Normal _ => notPrintable v = false
  | Thrown _ => notPrintable v = true
  end.
Proof.
  intros v reason. unfold notPrintable, printable.
  destruct (truthy v); [|reflexivity].
  destruct (toString v); reflexivity.
Qed.

(** X12. [checkPatternMatch] raises exactly when the title or the
    description of the record is a truthy value that is not a string,
    or its keywords are a truthy value without a conversion to a string,
    whatever the pattern is and whether the path matches it or not. *)
Theorem checkPatternMatch_raises_iff : forall assetInfo pattern,
  (exists e, checkPatternMatch assetInfo pattern = Thrown e) <->
  notLowerCasable (title assetInfo) || notLowerCasable (description assetInfo)
  || notPrintable (keywords assetInfo) = true.
Proof.
  intros a p. unfold checkPatternMatch.
  pose proof (lowerCased_check (title a) "Title match") as Ht.
  pose proof (lowerCased_check (description a) "Description match") as Hd.
  pose proof (printed_check (keywords a) "Keywords match") as Hk.
  destruct (if truthy (title a)
            then v <- callToLowerCase (title a) ;; Normal [(v, "Title match")]
            else Normal []) as [titleCheck|e1]; cbn [JS.bind].
  - destruct (if truthy (description a)
              then v <- callToLowerCase (description a) ;; Normal [(v, "Description match")]
              else Normal []) as [descriptionCheck|e2]; cbn [JS.bind].
    + destruct (if truthy (keywords a)
                then v <- toString (keywords a) ;; Normal [(toLowerCase v, "Keywords match")]
                else Normal []) as [keywordsCheck|e3]; cbn [JS.bind].
      * rewrite Ht, Hd, Hk. split; [|discriminate]. intros [e He].
        match type of He with context [find ?f ?l] => destruct (find f l) end;
          [discriminate|].
        match type of He with context [existsb ?f ?l] => destruct (existsb f l) end;
          discriminate.
      * rewrite Ht, Hd, Hk. split; [reflexivity | intros _; eauto].
    + rewrite Ht, Hd. split; [reflexivity | intros _; eauto].
  - rewrite Ht. split; [reflexivity | intros _; eauto].
Qed.

Lemma matchSingle_matchOf : forall pattern a tested a',
  matchSingle pattern a = Normal (tested, Some a') -> matchOf pattern a'.
Proof.
  intros pattern a tested a' H. unfold matchSingle in H.
  apply bind_Normal in H. destruct H as (r & Hr & H).
  destruct r as [reason|]; [|discriminate].
  injection H as _ <-. exists a, reason. auto.
Qed.

(** X13. Every record [findAssets] returns matched the lower-cased
    pattern and carries the reason [checkPatternMatch] gave for it, and
    no two records have the same path.  The search is not filtered by
    [isValidAsset]. *)
Theorem findAssets_returns_matches_once : forall cfg net pattern fuel c,
  let found := snd (fst (findAssets cfg net pattern fuel c)) in
  NoDup (map path found) /\
  Forall (matchOf (toLowerCase pattern)) found.
Proof.
  intros cfg net pattern fuel c. cbv zeta. unfold findAssets, findWith.
  apply (findLoop_keeps cfg net (matchSingle (toLowerCase pattern))
           (matchOf (toLowerCase pattern))).
  - apply matchSingle_matchOf.
  - split; constructor.
Qed.

(** A multi-valued title stops a search with an exception, while the
    discovery records the asset. *)
Example search_raises_where_discovery_records :
  fst (fst (findAssets (defaultConfig "http://aem") titledServer "logo" 10 emptyCrawl))
  = Raised "TypeError: toLowerCase is not a function" /\
  fst (fst (discoverAllAssets (defaultConfig "http://aem") titledServer 10 emptyCrawl))
  = Finished /\
  map path (snd (fst (discoverAllAssets (defaultConfig "http://aem") titledServer 10 emptyCrawl)))
  = ["/content/dam/logo.png"].
Proof. vm_compute. repeat split; reflexivity. Qed.

(** ** Download engine: which candidate is used, and the next run *)

Section CandidateLemmas.

Variable fetch : string -> Attempt.

(** The candidate loop ends at the first URL that delivers a non-empty
    payload, or goes through the whole list. *)
Lemma tryUrls_outcome : forall urls file lastError,
  let '(done, f, e, asked) := tryUrls fetch urls file lastError in
  match done with
  | Some (n, url) =>
      exists before after,
        urls = (before ++ url :: after)%list /\ asked = (before ++ [url])%list /\
        Forall (fun u => unsuccessful (fetch u)) before /\
        fetch url = StreamEnds n /\ (0 < n)%N /\ f = Some n
  | None => asked = urls /\ Forall (fun u => unsuccessful (fetch u)) urls
  end.
Proof.
  induction urls as [|u urls IH]; intros file lastError; simpl; [auto|].
  destruct (fetch u) as [err | n err | n] eqn:Hu.
  - specialize (IH (unlinkIfEmpty (afterWrite file (RequestFails err))) (Some err)).
    destruct (tryUrls fetch urls _ _) as [[[done f] e] asked].
    destruct done as [[n url]|].
    + destruct IH as (before & after & -> & -> & Hb & Hd & Hn & Hf).
      exists (u :: before), after. repeat split; auto.
      constructor; [rewrite Hu; exact I | exact Hb].
    + destruct IH as [-> Hall]. split; [reflexivity|].
      constructor; [rewrite Hu; exact I | exact Hall].
  - specialize (IH (unlinkIfEmpty (afterWrite file (StreamFails n err))) (Some err)).
    destruct (tryUrls fetch urls _ _) as [[[done f] e] asked].
    destruct done as [[n' url]|].
    + destruct IH as (before & after & -> & -> & Hb & Hd & Hn & Hf).
      exists (u :: before), after. repeat split; auto.
      constructor; [rewrite Hu; exact I | exact Hb].
    + destruct IH as [-> Hall]. split; [reflexivity|].
      constructor; [rewrite Hu; exact I | exact Hall].
  - destruct (N.ltb_spec 0 n) as [Hn|Hn].
    + exists [], urls. repeat split; auto.
    + specialize (IH (afterWrite file (StreamEnds n)) lastError).
      destruct (tryUrls fetch urls _ _) as [[[done f] e] asked].
      assert (Hz : unsuccessful (fetch u)) by (rewrite Hu; simpl; lia).
      destruct done as [[n' url]|].
      * destruct IH as (before & after & -> & -> & Hb & Hd & Hn' & Hf).
        exists (u :: before), after. repeat split; auto.
      * destruct IH as [-> Hall]. split; [reflexivity|]. constructor; assumption.
Qed.

(** What is on disk before the loop does not change which candidate is
    used, the error kept, or the URLs requested. *)
Lemma tryUrls_whatever_the_file : forall urls file1 file2 lastError,
  fst (fst (fst (tryUrls fetch urls file1 lastError)))
  = fst (fst (fst (tryUrls fetch urls file2 lastError))) /\
  snd (fst (tryUrls fetch urls file1 lastError))
  = snd (fst (tryUrls fetch urls file2 lastError)) /\
  snd (tryUrls fetch urls file1 lastError) = snd (tryUrls fetch urls file2 lastError).
Proof.
  induction urls as [|u urls IH]; intros file1 file2 lastError; simpl; [auto|].
  destruct (fetch u) as [err | n err | n].
  - specialize (IH (unlinkIfEmpty (afterWrite file1 (RequestFails err)))
                  (unlinkIfEmpty (afterWrite file2 (RequestFails err))) (Some err)).
    destruct (tryUrls fetch urls (unlinkIfEmpty (afterWrite file1 _)) _) as [[[r1 f1] e1] a1].
    destruct (tryUrls fetch urls (unlinkIfEmpty (afterWrite file2 _)) _) as [[[r2 f2] e2] a2].
    simpl in *. destruct IH as (-> & -> & ->). auto.
  - specialize (IH (unlinkIfEmpty (afterWrite file1 (StreamFails n err)))
                  (unlinkIfEmpty (afterWrite file2 (StreamFails n err))) (Some err)).
    destruct (tryUrls fetch urls (unlinkIfEmpty (afterWrite file1 _)) _) as [[[r1 f1] e1] a1].
    destruct (tryUrls fetch urls (unlinkIfEmpty (afterWrite file2 _)) _) as [[[r2 f2] e2] a2].
    simpl in *. destruct IH as (-> & -> & ->). auto.
  - destruct (0 <? n)%N; [simpl; auto|].
    specialize (IH (afterWrite file1 (StreamEnds n)) (afterWrite file2 (StreamEnds n)) lastError).
    destruct (tryUrls fetch urls (afterWrite file1 _) _) as [[[r1 f1] e1] a1].
    destruct (tryUrls fetch urls (afterWrite file2 _) _) as [[[r2 f2] e2] a2].
    simpl in *. destruct IH as (-> & -> & ->). auto.
Qed.

End CandidateLemmas.

Lemma downloadAsset_skips : forall cfg fetch disk a s existingSize,
  mkdirError disk = None ->
  existing disk = Some existingSize ->
  resumeSkip a existingSize = true ->
  downloadAsset cfg fetch disk a s
  = {| returned := true; statsAfter := incrSkipped s; fileAfter := Some existingSize;
       requested := []; metadataSaved := false |}.
Proof.
  intros cfg fetch disk a s existingSize Hmk Hex Hskip.
  unfold downloadAsset. rewrite Hmk, Hex, Hskip. reflexivity.
Qed.

(** The two courses of a download that is attempted. *)
Lemma downloadAsset_course : forall cfg fetch disk a s,
  mkdirError disk = None ->
  match existing disk with
  | Some existingSize => resumeSkip a existingSize
  | None => false
  end = false ->
  let d := downloadAsset cfg fetch disk a s in
  (exists before url after n,
     urlPatterns cfg a = (before ++ url :: after)%list /\
     Forall (fun u => unsuccessful (fetch u)) before /\
     fetch url = StreamEnds n /\ (0 < n)%N /\
     requested d = (before ++ [url])%list /\
     fileAfter d = Some n /\
     downloadedAssets (statsAfter d) = downloadedAssets s + 1 /\
     totalSize (statsAfter d) = totalSize s + Z.of_N n /\
     returned d = match metadataWriteError disk with
                  | Some _ => negb (downloadMetadata cfg)
                  | None => true
                  end) \/
  (Forall (fun u => unsuccessful (fetch u)) (urlPatterns cfg a) /\
   requested d = urlPatterns cfg a /\
   returned d = false /\
   downloadedAssets (statsAfter d) = downloadedAssets s /\
   failedAssets (statsAfter d) = failedAssets s + 1).
Proof.
  intros cfg fetch disk a s Hmk Hskip. cbv zeta. unfold downloadAsset. rewrite Hmk, Hskip.
  pose proof (tryUrls_outcome fetch (urlPatterns cfg a) (existing disk) None) as H.
  destruct (tryUrls fetch (urlPatterns cfg a) (existing disk) None)
    as [[[done file] lastError] asked].
  destruct done as [[n url]|].
  - destruct H as (before & after & Hurls & -> & Hb & Hd & Hn & ->).
    left. exists before, url, after, n.
    destruct (downloadMetadata cfg); [destruct (metadataWriteError disk)|];
      cbn [requested fileAfter statsAfter returned recordDownloaded recordFailed
           downloadedAssets totalSize negb];
      repeat split; auto.
    destruct (metadataWriteError disk); reflexivity.
  - destruct H as [-> Hall]. right.
    cbn [requested fileAfter statsAfter returned recordFailed downloadedAssets failedAssets].
    repeat split; auto.
Qed.

(** The first candidate that delivers is determined by the server. *)
Lemma first_delivering_unique :
  forall (fetch : string -> Attempt) before1 url1 after1 n1 before2 url2 after2 n2,
  (before1 ++ url1 :: after1 = before2 ++ url2 :: after2)%list ->
  Forall (fun u => unsuccessful (fetch u)) before1 ->
  fetch url1 = StreamEnds n1 -> (0 < n1)%N ->
  Forall (fun u => unsuccessful (fetch u)) before2 ->
  fetch url2 = StreamEnds n2 -> (0 < n2)%N ->
  before1 = before2 /\ url1 = url2 /\ n1 = n2.
Proof.
  intros fetch before1. induction before1 as [|u before1 IH];
    intros url1 after1 n1 before2 url2 after2 n2 Heq Hb1 Hd1 Hn1 Hb2 Hd2 Hn2.
  - destruct before2 as [|v before2]; simpl in Heq.
    + injection Heq as -> _. rewrite Hd1 in Hd2. injection Hd2 as ->. auto.
    + injection Heq as -> _. inversion Hb2 as [|? ? Hv _]; subst.
      rewrite Hd1 in Hv. simpl in Hv. lia.
  - destruct before2 as [|v before2]; simpl in Heq.
    + injection Heq as -> _. inversion Hb1 as [|? ? Hu _]; subst.
      rewrite Hd2 in Hu. simpl in Hu. lia.
    + injection Heq as -> Heq. inversion Hb1; subst. inversion Hb2; subst.
      destruct (IH url1 after1 n1 before2 url2 after2 n2 Heq) as (-> & -> & ->); auto.
Qed.

(** X14. A download that is attempted has one of two courses.  Either
    some candidate URL delivers a non-empty payload: then the candidates
    before it were requested in order and none delivered, the ones after
    it are not requested, the target holds exactly that payload and the
    asset counts as downloaded with its size added to [totalSize].  Or
    all five candidates are requested, none delivers, and the asset
    counts as failed. *)
Theorem download_uses_first_delivering_candidate : forall cfg fetch disk a s,
  mkdirError disk = None ->
  match existing disk with
  | Some existingSize => resumeSkip a existingSize
  | None => false
  end = false ->
  let d := downloadAsset cfg fetch disk a s in
  (exists before url after n,
     urlPatterns cfg a = (before ++ url :: after)%list /\
     Forall (fun u => unsuccessful (fetch u)) before /\
     fetch url = StreamEnds n /\ (0 < n)%N /\
     requested d = (before ++ [url])%list /\
     fileAfter d = Some n /\
     downloadedAssets (statsAfter d) = downloadedAssets s + 1 /\
     totalSize (statsAfter d) = totalSize s + Z.of_N n) \/
  (Forall (fun u => unsuccessful (fetch u)) (urlPatterns cfg a) /\
   requested d = urlPatterns cfg a /\
   returned d = false /\
   downloadedAssets (statsAfter d) = downloadedAssets s /\
   failedAssets (statsAfter d) = failedAssets s + 1).
Proof.
  intros cfg fetch disk a s Hmk Hskip. cbv zeta.
  destruct (downloadAsset_course cfg fetch disk a s Hmk Hskip)
    as [(before & url & after & n & H1 & H2 & H3 & H4 & H5 & H6 & H7 & H8 & _) | H].
  - left. exists before, url, after, n. repeat split; assumption.
  - right. exact H.
Qed.

Lemma download_uses_first_delivering_candidate_witness :
  let d := downloadAsset (defaultConfig "http://aem") thirdCandidateDelivers (targetOf None)
             (record "/content/dam/a.png" 0) emptyStats in
  (exists before url after n,
     urlPatterns (defaultConfig "http://aem") (record "/content/dam/a.png" 0)
     = (before ++ url :: after)%list /\
     Forall (fun u => unsuccessful (thirdCandidateDelivers u)) before /\
     thirdCandidateDelivers url = StreamEnds n /\ (0 < n)%N /\
     requested d = (before ++ [url])%list /\
     fileAfter d = Some n /\
     downloadedAssets (statsAfter d) = downloadedAssets emptyStats + 1 /\
     totalSize (statsAfter d) = totalSize emptyStats + Z.of_N n) \/
  (Forall (fun u => unsuccessful (thirdCandidateDelivers u))
     (urlPatterns (defaultConfig "http://aem") (record "/content/dam/a.png" 0)) /\
   requested d = urlPatterns (defaultConfig "http://aem") (record "/content/dam/a.png" 0) /\
   returned d = false /\
   downloadedAssets (statsAfter d) = downloadedAssets emptyStats /\
   failedAssets (statsAfter d) = failedAssets emptyStats + 1).
Proof.
  apply (download_uses_first_delivering_candidate (defaultConfig "http://aem")
           thirdCandidateDelivers (targetOf None) (record "/content/dam/a.png" 0) emptyStats);
    reflexivity.
Defined.

(** X15. Running again after a download of [n] bytes, against a server
    that answers as before: the asset is skipped without a request when
    the resume test accepts [n] bytes, and otherwise (a file of 100 bytes
    or less whose announced size is unknown or 1000 bytes or more away)
    it is downloaded again from the same candidate, with the same
    requests. *)
Theorem rerun_after_download : forall cfg fetch disk a s s2,
  mkdirError disk = None ->
  match existing disk with
  | Some existingSize => resumeSkip a existingSize
  | None => false
  end = false ->
  let d1 := downloadAsset cfg fetch disk a s in
  downloadedAssets (statsAfter d1) = downloadedAssets s + 1 ->
  exists n,
    fileAfter d1 = Some n /\ (0 < n)%N /\
    let d2 := downloadAsset cfg fetch
                {| mkdirError := None; existing := Some n;
                   metadataWriteError := metadataWriteError disk |} a s2 in
    fileAfter d2 = Some n /\
    if resumeSkip a n
    then requested d2 = [] /\ returned d2 = true /\
         skippedAssets (statsAfter d2) = skippedAssets s2 + 1 /\
         downloadedAssets (statsAfter d2) = downloadedAssets s2
    else requested d2 = requested d1 /\ returned d2 = returned d1 /\
         downloadedAssets (statsAfter d2) = downloadedAssets s2 + 1 /\
         totalSize (statsAfter d2) = totalSize s2 + Z.of_N n.
Proof.
  intros cfg fetch disk a s s2 Hmk Hskip. cbv zeta. intros Hdown.
  destruct (downloadAsset_course cfg fetch disk a s Hmk Hskip)
    as [(before & url & after & n & Hurls & Hb & Hd & Hn & Hreq & Hfile & _ & _ & Hret)
       | (_ & _ & _ & Hsame & _)]; [|lia].
  exists n. split; [exact Hfile|]. split; [exact Hn|].
  set (disk2 := {| mkdirError := None; existing := Some n;
                   metadataWriteError := metadataWriteError disk |}).
  destruct (resumeSkip a n) eqn:Hresume.
  - rewrite (downloadAsset_skips cfg fetch disk2 a s2 n eq_refl eq_refl Hresume).
    cbn [fileAfter requested returned statsAfter incrSkipped skippedAssets downloadedAssets].
    auto.
  - assert (Hskip2 : match existing disk2 with
                     | Some existingSize => resumeSkip a existingSize
                     | None => false
                     end = false) by exact Hresume.
    destruct (downloadAsset_course cfg fetch disk2 a s2 eq_refl Hskip2)
      as [(before2 & url2 & after2 & n2 & Hurls2 & Hb2 & Hd2 & Hn2 & Hreq2 & Hfile2
           & Hcount2 & Hsize2 & Hret2)
         | (Hall & _)].
    + rewrite Hurls in Hurls2.
      destruct (first_delivering_unique fetch _ _ _ _ _ _ _ _ Hurls2 Hb Hd Hn Hb2 Hd2 Hn2)
        as (<- & <- & <-).
      rewrite Hreq, Hret. auto.
    + exfalso. rewrite Hurls in Hall. apply Forall_app in Hall. destruct Hall as [_ Hall].
      inversion Hall as [|? ? Hu _]; subst. rewrite Hd in Hu. simpl in Hu. lia.
Qed.

Lemma rerun_after_download_witness :
  exists n,
    fileAfter (downloadAsset (defaultConfig "http://aem") thirdCandidateDelivers (targetOf None)
                 (record "/content/dam/a.png" 0) emptyStats) = Some n /\ (0 < n)%N /\
    let d1 := downloadAsset (defaultConfig "http://aem") thirdCandidateDelivers (targetOf None)
                (record "/content/dam/a.png" 0) emptyStats in
    let d2 := downloadAsset (defaultConfig "http://aem") thirdCandidateDelivers
                {| mkdirError := None; existing := Some n;
                   metadataWriteError := metadataWriteError (targetOf None) |}
                (record "/content/dam/a.png" 0) emptyStats in
    fileAfter d2 = Some n /\
    if resumeSkip (record "/content/dam/a.png" 0) n
    then requested d2 = [] /\ returned d2 = true /\
         skippedAssets (statsAfter d2) = skippedAssets emptyStats + 1 /\
         downloadedAssets (statsAfter d2) = downloadedAssets emptyStats
    else requested d2 = requested d1 /\ returned d2 = returned d1 /\
         downloadedAssets (statsAfter d2) = downloadedAssets emptyStats + 1 /\
         totalSize (statsAfter d2) = totalSize emptyStats + Z.of_N n.
Proof.
  apply (rerun_after_download (defaultConfig "http://aem") thirdCandidateDelivers (targetOf None)
           (record "/content/dam/a.png" 0) emptyStats emptyStats); reflexivity.
Defined.

(** X16. A download that breaks off is taken for complete by the next
    run: when the last candidate that got a response broke off after
    more than 100 bytes and the candidates after it are rejected, the
    asset is recorded as failed and the truncated file stays; running
    again, the resume test finds a file of more than 100 bytes and the
    asset is skipped as already downloaded, without a request. *)
Theorem truncated_download_is_skipped_next_run :
  forall cfg fetch a s s2 before u after m e,
  urlPatterns cfg a = (before ++ u :: after)%list ->
  Forall (fun v => unsuccessful (fetch v)) before ->
  fetch u = StreamFails m e ->
  100 < Z.of_N m ->
  Forall (fun v => exists e', fetch v = RequestFails e') after ->
  let d1 := downloadAsset cfg fetch (targetOf None) a s in
  let d2 := downloadAsset cfg fetch (targetOf (fileAfter d1)) a s2 in
  (returned d1 = false /\ failedAssets (statsAfter d1) = failedAssets s + 1 /\
   fileAfter d1 = Some m) /\
  (returned d2 = true /\ requested d2 = [] /\
   skippedAssets (statsAfter d2) = skippedAssets s2 + 1 /\
   failedAssets (statsAfter d2) = failedAssets s2 /\
   fileAfter d2 = Some m).
Proof.
  intros cfg fetch a s s2 before u after m e Hurls Hb Hu Hm Hafter. cbv zeta.
  assert (H1 : exists lastError,
             tryUrls fetch (urlPatterns cfg a) None None
             = (None, Some m, lastError, urlPatterns cfg a)).
  { rewrite Hurls.
    destruct (tryUrls_skips_unsuccessful fetch before (u :: after) None None Hb)
      as (file' & err' & ->).
    cbn [tryUrls]. rewrite Hu. cbn [afterWrite unlinkIfEmpty].
    assert (Hkeep : match m with 0%N => None | _ => Some m end = Some m)
      by (destruct m; [simpl in Hm; lia | reflexivity]).
    rewrite Hkeep.
    destruct (tryUrls_requests_rejected fetch after m (Some e)) as [err'' ->];
      [lia | exact Hafter |]. eauto. }
  destruct H1 as [lastError H1].
  assert (Hd1 : fileAfter (downloadAsset cfg fetch (targetOf None) a s) = Some m /\
                returned (downloadAsset cfg fetch (targetOf None) a s) = false /\
                failedAssets (statsAfter (downloadAsset cfg fetch (targetOf None) a s))
                = failedAssets s + 1).
  { unfold downloadAsset. cbn [targetOf mkdirError existing]. rewrite H1.
    cbn [fileAfter returned statsAfter recordFailed failedAssets]. auto. }
  destruct Hd1 as (Hf & Hr & Hfail). rewrite Hf. split; [auto|].
  assert (Hskip : resumeSkip a m = true).
  { apply resumeSkip_spec. right. exact Hm. }
  rewrite (downloadAsset_skips cfg fetch (targetOf (Some m)) a s2 m eq_refl eq_refl Hskip).
  cbn [fileAfter requested returned statsAfter incrSkipped skippedAssets failedAssets]. auto.
Qed.

Lemma truncated_download_is_skipped_next_run_witness :
  let d1 := downloadAsset (defaultConfig "http://aem") breaksOff (targetOf None)
              (record "/content/dam/a.png" 0) emptyStats in
  let d2 := downloadAsset (defaultConfig "http://aem") breaksOff (targetOf (fileAfter d1))
              (record "/content/dam/a.png" 0) emptyStats in
  (returned d1 = false /\ failedAssets (statsAfter d1) = failedAssets emptyStats + 1 /\
   fileAfter d1 = Some 500%N) /\
  (returned d2 = true /\ requested d2 = [] /\
   skippedAssets (statsAfter d2) = skippedAssets emptyStats + 1 /\
   failedAssets (statsAfter d2) = failedAssets emptyStats /\
   fileAfter d2 = Some 500%N).
Proof.
  apply (truncated_download_is_skipped_next_run (defaultConfig "http://aem") breaksOff
           (record "/content/dam/a.png" 0) emptyStats emptyStats
           [] "http://aem/content/dam/a.png"
           (tl (urlPatterns (defaultConfig "http://aem") (record "/content/dam/a.png" 0)))
           500%N "ECONNRESET").
  - reflexivity.
  - constructor.
  - reflexivity.
  - reflexivity.
  - repeat (constructor; [exists "HTTP 404"; reflexivity|]). constructor.
Defined.

(** ** The download driver: bookkeeping and progress *)

Lemma removeFirst_incl : forall x l i, In i (removeFirst x l) -> In i l.
Proof.
  intros x l i. induction l as [|y rest IH]; simpl; [auto|].
  destruct (Nat.eqb x y); simpl; [auto|]. intros [H|H]; auto.
Qed.

Lemma removeFirst_NoDup : forall x l, NoDup l -> NoDup (removeFirst x l).
Proof.
  intros x l H. induction H as [|y rest Hnot Hnd IH]; simpl; [constructor|].
  destruct (Nat.eqb x y); [exact Hnd|].
  constructor; [|exact IH]. intros Hin. apply Hnot. eapply removeFirst_incl; eauto.
Qed.

Lemma removeFirst_Forall : forall (P : nat -> Prop) x l,
  Forall P l -> Forall P (removeFirst x l).
Proof.
  intros P x l H. apply Forall_forall. intros i Hi.
  rewrite Forall_forall in H. apply H. eapply removeFirst_incl; eauto.
Qed.

Lemma skipn_next : forall (A : Type) n (l : list A) a rest,
  skipn n l = a :: rest -> skipn (S n) l = rest /\ (n < List.length l)%nat.
Proof.
  intros A n. induction n as [|n IH]; intros l a rest H.
  - simpl in H. subst l. simpl. split; [reflexivity | lia].
  - destruct l as [|x l]; [discriminate|]. simpl in H.
    destruct (IH l a rest H) as [H1 H2]. split; [exact H1 | simpl; lia].
Qed.

Section DriverAccount.

Variable cfg : Config.
Variable initial : list AssetInfo.

Lemma poolStep_account : forall t p p',
  poolAccount initial p -> poolStep cfg t p = Some p' -> poolAccount initial p'.
Proof.
  intros t p p' (Hle & Hq & Hnd & Hlt & Hpc) Hstep. unfold poolStep in Hstep.
  destruct t as [|promise|]; destruct (pc p) as [| | |[|]| | |] eqn:Epc; try discriminate.
  - destruct (negb (isEmpty (queue p)) || negb (isEmpty (inProgress p)));
      injection Hstep as <-; unfold poolAccount; simpl; auto.
  - destruct (queue p) as [|a q] eqn:Eq.
    + injection Hstep as <-. unfold poolAccount; simpl. rewrite Eq. auto.
    + destruct (List.length (inProgress p) <? maxConcurrent cfg)%nat.
      * injection Hstep as <-. unfold poolAccount.
        cbn [nextPromise queue inProgress pc].
        symmetry in Hq. destruct (skipn_next _ _ _ _ _ Hq) as [Hq' Hn].
        split; [lia|]. split; [now rewrite Hq'|]. split; [|split; [|exact I]].
        -- apply NoDup_app; [exact Hnd | repeat constructor; intros [] |].
           intros i Hi [<-|[]]. rewrite Forall_forall in Hlt. specialize (Hlt _ Hi). lia.
        -- apply Forall_app. split; [|repeat constructor].
           eapply Forall_impl; [|exact Hlt]. intros i Hi. simpl in Hi. lia.
      * injection Hstep as <-. unfold poolAccount; simpl. rewrite Eq. auto.
  - destruct (inProgress p) as [|x l] eqn:El; simpl in Hstep; injection Hstep as <-;
      unfold poolAccount; simpl; rewrite ?El; repeat split; auto. discriminate.
  - injection Hstep as <-. unfold poolAccount; simpl. auto.
  - destruct (negb (isEmpty (queue p)) && (List.length (inProgress p) =? maxConcurrent cfg)%nat);
      injection Hstep as <-; unfold poolAccount; simpl; auto.
  - destruct (existsb (Nat.eqb promise) (inProgress p)); [|discriminate].
    injection Hstep as <-. unfold poolAccount; simpl.
    repeat split; auto using removeFirst_NoDup, removeFirst_Forall.
  - destruct (existsb (Nat.eqb promise) (inProgress p)); [|discriminate].
    injection Hstep as <-. unfold poolAccount; simpl.
    repeat split; auto using removeFirst_NoDup, removeFirst_Forall.
  - destruct (existsb (Nat.eqb promise) (inProgress p)); [|discriminate].
    injection Hstep as <-. unfold poolAccount; simpl.
    repeat split; auto using removeFirst_NoDup, removeFirst_Forall.
  - injection Hstep as <-. unfold poolAccount; simpl. auto.
Qed.

Lemma poolRun_account : forall ticks p p',
  poolAccount initial p -> poolRun cfg ticks p = Some p' -> poolAccount initial p'.
Proof.
  induction ticks as [|t ticks IH]; intros p p' Hinv Hrun; simpl in Hrun.
  - now injection Hrun as <-.
  - destruct (poolStep cfg t p) as [p1|] eqn:E; [|discriminate].
    eapply IH; [eapply poolStep_account; eauto | exact Hrun].
Qed.

End DriverAccount.

Lemma startPool_account : forall cfg assets,
  poolAccount (queue (startPool cfg assets)) (startPool cfg assets).
Proof.
  intros cfg assets. unfold startPool, poolAccount.
  destruct (isEmpty assets); simpl; repeat split; auto using NoDup_nil; lia.
Qed.

(** X17. The driver launches the assets of its queue one by one in queue
    order, each once: at any point the queue is what is left of the
    initial one after the launches made, the downloads in flight are
    distinct launches, and when the driver has exited every asset has
    been launched and every download has settled. *)
Theorem driver_launches_each_asset_once : forall cfg assets ticks p,
  poolRun cfg ticks (startPool cfg assets) = Some p ->
  let initial := queue (startPool cfg assets) in
  queue p = skipn (nextPromise p) initial /\
  (nextPromise p + List.length (queue p) = List.length initial)%nat /\
  NoDup (inProgress p) /\
  Forall (fun i => (i < nextPromise p)%nat) (inProgress p) /\
  (pc p = Exited ->
   nextPromise p = List.length initial /\ queue p = [] /\ inProgress p = []).
Proof.
  intros cfg assets ticks p Hrun initial.
  pose proof (poolRun_account cfg initial ticks _ _ (startPool_account cfg assets) Hrun)
    as (Hle & Hq & Hnd & Hlt & _).
  pose proof (poolRun_inv cfg ticks _ _ (startPool_inv cfg assets) Hrun) as [_ Hpc].
  assert (Hlen : (nextPromise p + List.length (queue p) = List.length initial)%nat).
  { rewrite Hq, length_skipn. lia. }
  split; [exact Hq|]. split; [exact Hlen|]. split; [exact Hnd|]. split; [exact Hlt|].
  intros E. rewrite E in Hpc. destruct Hpc as [Hq0 Hi0].
  rewrite Hq0 in Hlen. simpl in Hlen. split; [lia | auto].
Qed.

Lemma driver_launches_each_asset_once_witness :
  let initial := queue (startPool (defaultConfig "http://aem") fiveAssets) in
  queue afterOneCompletion = skipn (nextPromise afterOneCompletion) initial /\
  (nextPromise afterOneCompletion + List.length (queue afterOneCompletion)
   = List.length initial)%nat /\
  NoDup (inProgress afterOneCompletion) /\
  Forall (fun i => (i < nextPromise afterOneCompletion)%nat) (inProgress afterOneCompletion) /\
  (pc afterOneCompletion = Exited ->
   nextPromise afterOneCompletion = List.length initial /\
   queue afterOneCompletion = [] /\ inProgress afterOneCompletion = []).
Proof.
  apply (driver_launches_each_asset_once (defaultConfig "http://aem") fiveAssets
           [RunDriver; RunDriver; RunDriver; RunDriver; RunDriver; RunDriver; Settle 1%nat]).
  reflexivity.
Defined.

(** X18. The driver is never stuck: at every point of a run it has
    exited, or it can take its next step, or it awaits the race with a
    download in flight whose completion wakes it, or it sleeps until the
    timer fires. *)
Theorem driver_is_never_stuck : forall cfg assets ticks p,
  poolRun cfg ticks (startPool cfg assets) = Some p ->
  pc p = Exited \/
  (exists p', poolStep cfg RunDriver p = Some p') \/
  (pc p = AwaitingRace false /\
   inProgress p <> [] /\
   forall promise, In promise (inProgress p) ->
     exists p', poolStep cfg (Settle promise) p = Some p' /\ pc p' = AwaitingRace true) \/
  (pc p = Sleeping /\ exists p', poolStep cfg TimerFires p = Some p').
Proof.
  intros cfg assets ticks p Hrun.
  pose proof (poolRun_account cfg _ ticks _ _ (startPool_account cfg assets) Hrun)
    as (_ & _ & _ & _ & Hpc).
  unfold poolStep. destruct (pc p) as [| | |[|]| | |] eqn:E.
  - right. left. destruct (negb (isEmpty (queue p)) || negb (isEmpty (inProgress p))); eauto.
  - right. left. destruct (queue p); [eauto|].
    destruct (List.length (inProgress p) <? maxConcurrent cfg)%nat; eauto.
  - right. left. destruct (negb (isEmpty (inProgress p))); eauto.
  - right. left. eauto.
  - right. right. left. split; [reflexivity|]. split; [exact Hpc|].
    intros promise Hin.
    assert (Hex : existsb (Nat.eqb promise) (inProgress p) = true).
    { apply existsb_exists. exists promise. split; [exact Hin | apply Nat.eqb_refl]. }
    rewrite Hex. eauto.
  - right. left.
    destruct (negb (isEmpty (queue p)) && (List.length (inProgress p) =? maxConcurrent cfg)%nat);
      eauto.
  - right. right. right. eauto.
  - left. reflexivity.
Qed.

Lemma driver_is_never_stuck_witness :
  pc afterOneCompletion = Exited \/
  (exists p', poolStep (defaultConfig "http://aem") RunDriver afterOneCompletion = Some p') \/
  (pc afterOneCompletion = AwaitingRace false /\
   inProgress afterOneCompletion <> [] /\
   forall promise, In promise (inProgress afterOneCompletion) ->
     exists p', poolStep (defaultConfig "http://aem") (Settle promise) afterOneCompletion
                = Some p' /\ pc p' = AwaitingRace true) \/
  (pc afterOneCompletion = Sleeping /\
   exists p', poolStep (defaultConfig "http://aem") TimerFires afterOneCompletion = Some p').
Proof.
  apply (driver_is_never_stuck (defaultConfig "http://aem") fiveAssets
           [RunDriver; RunDriver; RunDriver; RunDriver; RunDriver; RunDriver; Settle 1%nat]).
  reflexivity.
Defined.

(** X19. With a pool width of 1 or more the pause between batches is
    never taken: the driver wakes from the race with a free slot, so the
    test [inProgress.length === maxConcurrent] fails and the downloads
    follow one another without the [sleepTime] delay. *)
Theorem driver_never_pauses_between_batches : forall cfg assets ticks p,
  (1 <= maxConcurrent cfg)%nat ->
  poolRun cfg ticks (startPool cfg assets) = Some p ->
  atSleep p = false.
Proof.
  intros cfg assets ticks p Hw Hrun.
  pose proof (poolRun_inv cfg ticks _ _ (startPool_inv cfg assets) Hrun) as [_ Hpc].
  unfold atSleep. destruct (pc p); try reflexivity.
  destruct Hpc as [_ H0]. lia.
Qed.

Lemma driver_never_pauses_between_batches_witness :
  atSleep afterOneCompletion = false.
Proof.
  apply (driver_never_pauses_between_batches (defaultConfig "http://aem") fiveAssets
           [RunDriver; RunDriver; RunDriver; RunDriver; RunDriver; RunDriver; Settle 1%nat]).
  - simpl. lia.
  - reflexivity.
Defined.

Section DriverTermination.

Variable cfg : Config.
Hypothesis width : (1 <= maxConcurrent cfg)%nat.

Lemma poolStep_decreases : forall t p p',
  poolInv cfg p -> poolBusy p -> poolStep cfg t p = Some p' ->
  poolBusy p' /\ (driverMeasure p' < driverMeasure p)%nat.
Proof.
  intros t p p' Hinv Hbusy Hstep.
  pose proof (poolStep_inv cfg t p p' Hinv Hstep) as [_ Hpc'].
  destruct Hinv as [Hle Hpc].
  unfold poolStep in Hstep. unfold poolBusy, driverMeasure in *.
  destruct t as [|promise|]; destruct (pc p) as [| | |[|]| | |] eqn:Epc; try discriminate.
  - destruct (queue p) as [|a q] eqn:Eq; destruct (inProgress p) as [|x l] eqn:El;
      simpl in Hstep; injection Hstep as <-; simpl; rewrite ?Eq, ?El; simpl;
      split; auto; try lia; try (left; discriminate); right; discriminate.
  - destruct (queue p) as [|a q] eqn:Eq.
    + injection Hstep as <-. simpl. rewrite Eq. simpl.
      split; [destruct Hbusy as [H|H]; [congruence | exact H] | lia].
    + destruct (List.length (inProgress p) <? maxConcurrent cfg)%nat eqn:Elt.
      * injection Hstep as <-. simpl. rewrite length_app. simpl.
        split; [right; destruct (inProgress p); discriminate | lia].
      * apply Nat.ltb_ge in Elt. injection Hstep as <-. simpl. rewrite Eq. simpl.
        split; [destruct (inProgress p); [simpl in Elt; lia | discriminate] | lia].
  - destruct (inProgress p) as [|x l] eqn:El; [congruence|].
    simpl in Hstep. injection Hstep as <-. simpl. rewrite El. simpl. split; [exact I | lia].
  - injection Hstep as <-. simpl. split; [exact I | lia].
  - destruct (negb (isEmpty (queue p)) && (List.length (inProgress p) =? maxConcurrent cfg)%nat);
      injection Hstep as <-; simpl in *; [lia | split; [exact I | lia]].
  - destruct (existsb (Nat.eqb promise) (inProgress p)) eqn:Ein; [|discriminate].
    injection Hstep as <-. pose proof (removeFirst_length _ _ Ein) as Hlen.
    simpl. split; [exact I | lia].
  - destruct (existsb (Nat.eqb promise) (inProgress p)) eqn:Ein; [|discriminate].
    injection Hstep as <-. pose proof (removeFirst_length _ _ Ein) as Hlen.
    simpl. split; [exact I | lia].
  - lia.
  - lia.
Qed.

Lemma poolRun_decreases : forall ticks p p',
  poolInv cfg p -> poolBusy p -> poolRun cfg ticks p = Some p' ->
  (List.length ticks + driverMeasure p' <= driverMeasure p)%nat.
Proof.
  induction ticks as [|t ticks IH]; intros p p' Hinv Hbusy Hrun; simpl in Hrun.
  - injection Hrun as <-. simpl. lia.
  - destruct (poolStep cfg t p) as [p1|] eqn:E; [|discriminate].
    destruct (poolStep_decreases t p p1 Hinv Hbusy E) as [Hbusy1 Hlt].
    pose proof (IH p1 p' (poolStep_inv cfg t p p1 Hinv E) Hbusy1 Hrun). simpl. lia.
Qed.

End DriverTermination.

(** X20. With a pool width of 1 or more the driver terminates: every
    step of a run, of the driver or of a download that settles, brings
    it closer to the exit, so no run on [n] assets has more than
    [16 n + 5] steps.  (A run that cannot be continued has exited, as
    the driver is never stuck.) *)
Theorem driver_terminates : forall cfg assets ticks p,
  (1 <= maxConcurrent cfg)%nat ->
  poolRun cfg ticks (startPool cfg assets) = Some p ->
  (List.length ticks + driverMeasure p
   <= 16 * List.length (queue (startPool cfg assets)) + 5)%nat.
Proof.
  intros cfg assets ticks p Hw Hrun.
  pose proof (poolRun_decreases cfg Hw ticks (startPool cfg assets) p
                (startPool_inv cfg assets)) as H.
  assert (Hbusy : poolBusy (startPool cfg assets)).
  { unfold startPool, poolBusy. destruct (isEmpty assets); exact I. }
  specialize (H Hbusy Hrun).
  assert (Hstart : (driverMeasure (startPool cfg assets)
                    <= 16 * List.length (queue (startPool cfg assets)) + 5)%nat).
  { unfold startPool, driverMeasure. destruct (isEmpty assets); simpl; lia. }
  lia.
Qed.

Lemma driver_terminates_witness :
  (List.length [RunDriver; RunDriver; RunDriver; RunDriver; RunDriver; RunDriver; Settle 1%nat]
   + driverMeasure afterOneCompletion
   <= 16 * List.length (queue (startPool (defaultConfig "http://aem") fiveAssets)) + 5)%nat.
Proof.
  apply (driver_terminates (defaultConfig "http://aem") fiveAssets
           [RunDriver; RunDriver; RunDriver; RunDriver; RunDriver; RunDriver; Settle 1%nat]).
  - simpl. lia.
  - reflexivity.
Defined.

(** ** Discovery: which folders are covered *)

Lemma scanFolder_appends : forall cfg net folderPath d c,
  exists more,
    folderQueue (snd (scanFolder cfg net folderPath d c)) = (folderQueue c ++ more)%list.
Proof.
  intros cfg net folderPath d c.
  apply (scanFolder_keeps cfg
           (fun c c' => exists more, folderQueue c' = (folderQueue c ++ more)%list)).
  - intros c0. exists []. now rewrite app_nil_r.
  - intros a b c0 [m1 H1] [m2 H2]. exists (m1 ++ m2)%list. now rewrite H2, H1, app_assoc.
  - intros p c0. exists [p]. reflexivity.
  - intros item itemPath info c0 _ _. exists []. simpl. now rewrite app_nil_r.
  - intros e c0. exists []. simpl. now rewrite app_nil_r.
  - intros c0. exists []. simpl. now rewrite app_nil_r.
Qed.

Section Coverage.

Variable cfg : Config.
Variable net : string -> Response.
Hypothesis test_off : testMode cfg = false.

(** When the loop ends, all that was queued has been processed. *)
Lemma discoverLoop_empties_queue : forall fuel c,
  fst (discoverLoop cfg net fuel c) = Finished ->
  forall s,
    In (Str s) (folderQueue c) \/ has (Str s) (processedPaths c) = true ->
    has (Str s) (processedPaths (snd (discoverLoop cfg net fuel c))) = true.
Proof.
  induction fuel as [|fuel IH]; intros c Hfin s Hs; simpl in *; [discriminate|].
  destruct (folderQueue c) as [|currentPath rest] eqn:Eq.
  - simpl. destruct Hs as [[]|Hs]. exact Hs.
  - destruct (has currentPath (processedPaths c)) eqn:Eh.
    + apply IH; [exact Hfin|]. simpl.
      destruct Hs as [[->|Hin]|Hs]; auto.
    + match type of Hfin with context [scanFolder cfg net currentPath 0 ?c0] =>
        destruct (scanFolder_appends cfg net currentPath 0 c0) as [more Hq];
        destruct (scanFolder_effect cfg net currentPath 0 c0) as [Hp _];
        destruct (scanFolder cfg net currentPath 0 c0) as [[u|e] c'] eqn:Es
      end; [|discriminate].
      simpl in Hq, Hp.
      unfold testLimitReached in *. rewrite test_off in *. simpl andb in *. cbv iota in *.
      assert (Hnext : forall c'',
                folderQueue c'' = folderQueue c' -> processedPaths c'' = processedPaths c' ->
                In (Str s) (folderQueue c'') \/ has (Str s) (processedPaths c'') = true).
      { intros c'' Hq'' Hp''. rewrite Hq'', Hp'', Hq, Hp. simpl.
        destruct Hs as [[->|Hin]|Hs].
        - right. apply has_add_same. simpl. apply String.eqb_refl.
        - left. apply in_or_app. now left.
        - right. apply has_add_keeps. exact Hs. }
      destruct (discoveryDelayDue cfg c'); apply IH; auto.
Qed.

(** A path enters the processed set only by being fetched. *)
Lemma discoverLoop_fetches_what_it_processes : forall fuel c,
  0 <= maxDepth cfg ->
  exists new,
    trace (snd (discoverLoop cfg net fuel c)) = (trace c ++ new)%list /\
    forall p, has p (processedPaths (snd (discoverLoop cfg net fuel c))) = true ->
              has p (processedPaths c) = true \/ (1 <= countFetch p new)%nat.
Proof.
  intros fuel c Hdepth. revert c. induction fuel as [|fuel IH]; intros c; simpl.
  - exists []. rewrite app_nil_r. auto.
  - destruct (folderQueue c) as [|currentPath rest] eqn:Eq.
    + exists []. rewrite app_nil_r. auto.
    + destruct (has currentPath (processedPaths c)) eqn:Eh.
      * destruct (IH (setQueue rest c)) as (new & Ht & Hp). exists new. auto.
      * match goal with |- context [scanFolder cfg net currentPath 0 ?c0] =>
          destruct (scanFolder_effect cfg net currentPath 0 c0) as [Hp Heff];
          destruct (scanFolder cfg net currentPath 0 c0) as [r c'] eqn:Es
        end.
        simpl in Hp, Heff.
        replace (maxDepth cfg <? 0) with false in Heff by (symmetry; apply Z.ltb_ge; lia).
        destruct Heff as [[asked Ht] _].
        assert (Hcur : forall p, has p (processedPaths c') = true ->
                  has p (processedPaths c) = true \/
                  (1 <= countFetch p (fetchEvents cfg currentPath asked))%nat).
        { intros p Hin. rewrite Hp in Hin. simpl in Hin. unfold add in Hin.
          rewrite Eh in Hin. rewrite has_app in Hin. apply orb_true_iff in Hin.
          destruct Hin as [Hin|Hin]; [now left|]. right.
          rewrite countFetch_fetchEvents. unfold has in Hin. simpl in Hin.
          rewrite orb_false_r in Hin.
          replace (sameValueZero currentPath p) with true; [lia|].
          symmetry. pose proof (sameValueZero_eq _ _ Hin) as Heq. subst p. exact Hin. }
        destruct r as [u|e]; [|exists (fetchEvents cfg currentPath asked); auto].
        unfold testLimitReached. rewrite test_off. simpl andb. cbv iota.
        destruct (discoveryDelayDue cfg c').
        -- destruct (IH (emit (EvSleep (sleepTime cfg)) c')) as (new & Ht' & Hp').
           exists ((fetchEvents cfg currentPath asked ++ [EvSleep (sleepTime cfg)]) ++ new)%list.
           split; [rewrite Ht'; simpl; rewrite Ht; simpl; now rewrite <- !app_assoc|].
           intros p Hin. destruct (Hp' p Hin) as [Hprev|Hnew].
           ++ destruct (Hcur p Hprev) as [H0|H1]; [now left|].
              right. rewrite !countFetch_app. lia.
           ++ right. rewrite !countFetch_app. lia.
        -- destruct (IH c') as (new & Ht' & Hp').
           exists (fetchEvents cfg currentPath asked ++ new)%list.
           split; [rewrite Ht', Ht; simpl; now rewrite <- !app_assoc|].
           intros p Hin. destruct (Hp' p Hin) as [Hprev|Hnew].
           ++ destruct (Hcur p Hprev) as [H0|H1]; [now left|].
              right. rewrite !countFetch_app. lia.
           ++ right. rewrite !countFetch_app. lia.
Qed.

End Coverage.

(** X21. A discovery that runs to its end covers the root of the DAM
    whatever it was started with: every path that was in the queue (the
    folder given with [--folder]) has been processed, and so has
    [/content/dam], which is fetched exactly once unless it was marked as
    processed before.  Starting from a folder does not restrict the crawl
    to it. *)
Theorem discovery_always_covers_the_root : forall cfg net fuel c,
  testMode cfg = false ->
  0 <= maxDepth cfg ->
  fst (fst (discoverAllAssets cfg net fuel c)) = Finished ->
  let c' := snd (discoverAllAssets cfg net fuel c) in
  (forall s, In (Str s) (folderQueue c) -> has (Str s) (processedPaths c') = true) /\
  has (Str "/content/dam") (processedPaths c') = true /\
  (has (Str "/content/dam") (processedPaths c) = false ->
   exists new, trace c' = (trace c ++ new)%list /\
               countFetch (Str "/content/dam") new = 1%nat).
Proof.
  intros cfg net fuel c Htest Hdepth Hfin. cbv zeta. unfold discoverAllAssets in *.
  set (c0 := setQueue (folderQueue c ++ [Str "/content/dam"]) c) in *.
  pose proof (discoverLoop_empties_queue cfg net Htest fuel c0) as Hall.
  destruct (discoverLoop_fetches_what_it_processes cfg net Htest fuel c0 Hdepth)
    as (new & Ht & Hfetch).
  destruct (discoverLoop_fetchedOnce cfg net fuel c0) as (new' & Ht' & _ & Honce).
  destruct (discoverLoop cfg net fuel c0) as [r c'] eqn:E.
  simpl in *. subst r. specialize (Hall eq_refl).
  assert (Hroot : has (Str "/content/dam") (processedPaths c') = true).
  { apply Hall. left. apply in_or_app. right. now left. }
  split; [|split].
  - intros s Hin. apply Hall. left. apply in_or_app. now left.
  - exact Hroot.
  - intros Hnot. exists new. split; [exact Ht|].
    rewrite Ht in Ht'. apply app_inv_head in Ht'. subst new'.
    destruct (Honce (Str "/content/dam")) as (Hle & _).
    destruct (Hfetch _ Hroot) as [Hprev|Hge]; [congruence | lia].
Qed.

Lemma discovery_always_covers_the_root_witness :
  let c' := snd (discoverAllAssets (defaultConfig "http://aem") smallTree 10
                   (startingAt "/content/dam/b")) in
  (forall s, In (Str s) (folderQueue (startingAt "/content/dam/b")) ->
             has (Str s) (processedPaths c') = true) /\
  has (Str "/content/dam") (processedPaths c') = true /\
  (has (Str "/content/dam") (processedPaths (startingAt "/content/dam/b")) = false ->
   exists new, trace c' = (trace (startingAt "/content/dam/b") ++ new)%list /\
               countFetch (Str "/content/dam") new = 1%nat).
Proof.
  apply (discovery_always_covers_the_root (defaultConfig "http://aem") smallTree 10
           (startingAt "/content/dam/b")).
  - reflexivity.
  - simpl. lia.
  - vm_compute. reflexivity.
Defined.

(** Started at the folder [b], the crawl goes on to the root and finds
    the assets of the folder [a] as well. *)
Example folder_option_does_not_restrict :
  map path (snd (fst (discoverAllAssets (defaultConfig "http://aem") smallTree 10
                        (startingAt "/content/dam/b"))))
  = ["/content/dam/b/c/z.pdf"; "/content/dam/a/x.png"; "/content/dam/a/y.jpg"].
Proof. vm_compute. reflexivity. Qed.

(** ** Records: extension and merged metadata *)

Lemma lowerChar_idempotent : forall c, lowerChar (lowerChar c) = lowerChar c.
Proof. intros [[] [] [] [] [] [] [] []]; reflexivity. Qed.

Lemma toLowerCase_idempotent : forall s, toLowerCase (toLowerCase s) = toLowerCase s.
Proof.
  induction s as [|c s IH]; simpl; [reflexivity|]. now rewrite lowerChar_idempotent, IH.
Qed.

Lemma toLowerCase_slice1 : forall s, toLowerCase (slice1 s) = slice1 (toLowerCase s).
Proof. destruct s; reflexivity. Qed.

(** The extension of a record is in lower case. *)
Lemma extension_is_lower_case : forall fileName,
  let ext := slice1 (toLowerCase (Path.extname fileName)) in
  toLowerCase (if (ext =? "")%string then "unknown" else ext)
  = (if (ext =? "")%string then "unknown" else ext).
Proof.
  intros fileName ext. destruct (ext =? "")%string; [reflexivity|].
  subst ext. now rewrite toLowerCase_slice1, toLowerCase_idempotent.
Qed.

(** X22. The file type filter compares the entries of [fileTypes] as
    they are with the lower-cased extension of the record: an asset
    passes a non-empty filter only by an entry that is equal to its
    extension, and so only by an entry in lower case.  An entry written
    in upper case or with a dot matches nothing. *)
Theorem file_type_filter_is_case_sensitive : forall cfg a,
  (exists assetNode assetPath, extractAssetInfo assetNode assetPath = Normal (Some a)) \/
  (exists assetPath, a = createAssetInfoFromPath assetPath) ->
  fileTypes cfg <> [] ->
  isValidAsset cfg a = true ->
  In (extension a) (fileTypes cfg) /\ toLowerCase (extension a) = extension a.
Proof.
  intros cfg a Hfrom Htypes Hvalid. split.
  - unfold isValidAsset in Hvalid.
    destruct ((0 <? minFileSize cfg) && (size a <? minFileSize cfg)); [discriminate|].
    destruct ((0 <? maxFileSize cfg) && (maxFileSize cfg <? size a)); [discriminate|].
    destruct (fileTypes cfg) as [|t types] eqn:Et; [congruence|].
    simpl negb in Hvalid. rewrite andb_true_l in Hvalid.
    change ((extension a =? t)%string || existsb (String.eqb (extension a)) types)
      with (existsb (String.eqb (extension a)) (t :: types)) in Hvalid.
    destruct (existsb (String.eqb (extension a)) (t :: types)) eqn:Ex;
      [|simpl in Hvalid; discriminate].
    apply existsb_exists in Ex. destruct Ex as (x & Hin & Heq).
    apply String.eqb_eq in Heq. now subst x.
  - destruct Hfrom as [(assetNode & assetPath & Hex) | (assetPath & ->)].
    + destruct (extractAssetInfo_shape assetNode assetPath a Hex)
        as (s & _ & _ & _ & -> & _).
      apply extension_is_lower_case.
    + unfold createAssetInfoFromPath. cbn [extension].
      apply extension_is_lower_case.
Qed.

Lemma file_type_filter_is_case_sensitive_witness :
  In (extension (createAssetInfoFromPath "/content/dam/a/Logo.PNG"))
     (fileTypes (onlyTypes ["png"] (defaultConfig "http://aem"))) /\
  toLowerCase (extension (createAssetInfoFromPath "/content/dam/a/Logo.PNG"))
  = extension (createAssetInfoFromPath "/content/dam/a/Logo.PNG").
Proof.
  apply (file_type_filter_is_case_sensitive (onlyTypes ["png"] (defaultConfig "http://aem"))
           (createAssetInfoFromPath "/content/dam/a/Logo.PNG")).
  - right. exists "/content/dam/a/Logo.PNG". reflexivity.
  - discriminate.
  - reflexivity.
Defined.

(** With [--types PNG] no asset passes, whatever its extension. *)
Example upper_case_type_matches_nothing :
  isValidAsset (onlyTypes ["PNG"] (defaultConfig "http://aem"))
    (createAssetInfoFromPath "/content/dam/a/Logo.PNG") = false /\
  isValidAsset (onlyTypes ["PNG"] (defaultConfig "http://aem"))
    (createAssetInfoFromPath "/content/dam/a/logo.png") = false.
Proof. vm_compute. split; reflexivity. Qed.

Lemma lookup_setProp_same : forall k v props, lookup k (setProp k v props) = v.
Proof.
  intros k v props. induction props as [|[k' v'] rest IH]; simpl.
  - now rewrite String.eqb_refl.
  - destruct (k' =? k)%string eqn:E; simpl; rewrite E; [reflexivity | exact IH].
Qed.

Lemma lookup_setProp_other : forall k k' v props,
  k' <> k -> lookup k (setProp k' v props) = lookup k props.
Proof.
  intros k k' v props Hne. induction props as [|[k2 v2] rest IH]; simpl.
  - apply String.eqb_neq in Hne. now rewrite Hne.
  - destruct (k2 =? k')%string eqn:E; simpl.
    + apply String.eqb_eq in E. subst k2. apply String.eqb_neq in Hne. now rewrite Hne.
    + destruct (k2 =? k)%string; [reflexivity | exact IH].
Qed.

Lemma lookup_assign_same : forall k v o,
  k <> "__proto__" -> lookup k (own (assign k v o)) = v.
Proof.
  intros k v o Hk. unfold assign. apply String.eqb_neq in Hk. rewrite Hk.
  cbn [andb own]. apply lookup_setProp_same.
Qed.

Lemma lookup_assign_other : forall k k' v o,
  k' <> k -> lookup k (own (assign k' v o)) = lookup k (own o).
Proof.
  intros k k' v o Hne. unfold assign.
  destruct ((k' =? "__proto__")%string && protoSetterReached o).
  - destruct v; reflexivity.
  - cbn [own]. now apply lookup_setProp_other.
Qed.

(** Copying every property of [props] over [acc]: the copied keys hold
    the values of [props], the others keep theirs. *)
Lemma lookup_after_copy : forall props keys acc k,
  k <> "__proto__" ->
  lookup k (own (fold_left (fun acc key => assign key (lookup key props) acc) keys acc))
  = if existsb (String.eqb k) keys then lookup k props else lookup k (own acc).
Proof.
  intros props keys. induction keys as [|key rest IH]; intros acc k Hk; simpl; [reflexivity|].
  rewrite (IH _ _ Hk). destruct (existsb (String.eqb k) rest); [now rewrite orb_true_r|].
  rewrite orb_false_r. destruct (k =? key)%string eqn:E.
  - apply String.eqb_eq in E. subst key. now apply lookup_assign_same.
  - apply lookup_assign_other. apply String.eqb_neq in E. congruence.
Qed.

Lemma hasOwn_setProp : forall k k' v props,
  hasOwn k (setProp k' v props) = (k' =? k)%string || hasOwn k props.
Proof.
  intros k k' v props. unfold hasOwn. induction props as [|[k2 v2] rest IH]; simpl.
  - reflexivity.
  - destruct (k2 =? k')%string eqn:E; simpl.
    + apply String.eqb_eq in E. subst k2.
      destruct (k' =? k)%string; reflexivity.
    + rewrite IH. destruct (k2 =? k)%string; simpl; [now rewrite orb_true_r | reflexivity].
Qed.

(** Assigning a value that is no object keeps it so: on the key
    [__proto__] the setter ignores the value. *)
Lemma assign_primitive : forall k v o,
  typeofObject v = false -> untouched o -> untouched (assign k v o).
Proof.
  intros k v o Hv [Hp Ho]. unfold assign, protoSetterReached. rewrite Hp, Ho.
  destruct (k =? "__proto__")%string eqn:E; cbn [andb negb].
  - destruct v; try discriminate; split; assumption.
  - split; [reflexivity|]. cbn [own]. rewrite hasOwn_setProp, E, Ho. reflexivity.
Qed.

Lemma mergeProps_primitives : forall source keep acc merged,
  (forall k v, keep k v = true -> typeofObject v = false) ->
  mergeProps source keep acc = Normal merged ->
  untouched acc -> untouched merged.
Proof.
  intros source keep acc merged Hkeep. unfold mergeProps.
  destruct (ownEntries source) as [props|]; [|discriminate].
  intros E. injection E as <-. generalize (map fst props) as keys. intros keys. revert acc.
  induction keys as [|key rest IH]; intros acc Hacc; simpl; [exact Hacc|].
  apply IH. destruct (keep key (lookup key props)) eqn:Ek; [|exact Hacc].
  apply assign_primitive; [exact (Hkeep _ _ Ek) | exact Hacc].
Qed.

(** Copying keys that are distinct never makes an own [__proto__]: the
    one assignment to that key meets the setter. *)
Lemma copy_makes_no_proto_key : forall props keys acc,
  NoDup keys ->
  hasOwn "__proto__" (own acc) = false ->
  (In "__proto__" keys -> proto acc = None) ->
  hasOwn "__proto__"
    (own (fold_left (fun acc key => assign key (lookup key props) acc) keys acc)) = false.
Proof.
  intros props keys. induction keys as [|key rest IH]; intros acc Hnd Ho Hp; simpl;
    [exact Ho|].
  inversion Hnd as [|? ? Hnot Hnd']; subst.
  apply IH; [exact Hnd' | |].
  - unfold assign, protoSetterReached. rewrite Ho.
    destruct (key =? "__proto__")%string eqn:E; cbn [andb negb].
    + apply String.eqb_eq in E. subst key. rewrite (Hp (or_introl eq_refl)).
      destruct (lookup "__proto__" props); exact Ho.
    + cbn [own]. rewrite hasOwn_setProp, E, Ho. reflexivity.
  - intros Hin. assert (Hne : key <> "__proto__") by (intros ->; contradiction).
    unfold assign. apply String.eqb_neq in Hne. rewrite Hne. cbn [andb proto].
    apply Hp. now right.
Qed.

(** X23. In the merged metadata of a record the properties of
    [jcr:content/metadata] win: whatever the asset node or its
    [jcr:content] carry under the same name, every property of the
    metadata node but [__proto__] is there with the value it has in the
    metadata node.  The key [__proto__] is never copied, from any of the
    three nodes: the assignment replaces the prototype of the merged
    object, or does nothing. *)
Theorem metadata_node_wins : forall assetNode assetPath info content props,
  extractAssetInfo assetNode assetPath = Normal (Some info) ->
  getProp assetNode "jcr:content" = Normal content ->
  truthy content = true ->
  getProp content "metadata" = Normal (Obj props) ->
  (forall k, In k (map fst props) -> k <> "__proto__" ->
             lookup k (metadata info) = lookup k props) /\
  (NoDup (map fst props) -> hasOwn "__proto__" (metadata info) = false).
Proof.
  intros assetNode assetPath info content props H Hcontent Htruthy Hmeta.
  unfold extractAssetInfo in H.
  destruct (extractAssetInfoBody assetNode assetPath) as [info'|e] eqn:Hb;
    [|destruct (toString assetPath); discriminate].
  injection H as <-. unfold extractAssetInfoBody in Hb.
  rewrite Hcontent in Hb. cbn [JS.bind] in Hb. unfold orElse in Hb at 1.
  rewrite Htruthy in Hb. rewrite Hmeta in Hb. cbn [JS.bind truthy] in Hb.
  apply bind_Normal in Hb. destruct Hb as (all1 & E1 & Hb).
  apply bind_Normal in Hb. destruct Hb as (all2 & E2 & Hb).
  apply bind_Normal in Hb. destruct Hb as (allMetadata & E3 & Hb).
  repeat (apply bind_Normal in Hb;
          let x := fresh "x" in
          let E := fresh "E" in
          destruct Hb as (x & E & Hb); cbv beta zeta in Hb).
  injection Hb as <-. cbn [metadata].
  assert (H1 : untouched all1).
  { refine (mergeProps_primitives _ _ _ _ _ E1 _); [|split; reflexivity].
    intros k v Hk. apply andb_true_iff in Hk. destruct Hk as [_ Hk].
    now apply negb_true_iff in Hk. }
  assert (H2 : untouched all2).
  { cbv iota in E2. refine (mergeProps_primitives _ _ _ _ _ E2 H1).
    intros k v Hk. apply andb_true_iff in Hk. destruct Hk as [_ Hk].
    now apply negb_true_iff in Hk. }
  unfold mergeProps in E3. cbn [ownEntries] in E3. injection E3 as <-.
  split.
  - intros k Hk Hproto.
    rewrite (lookup_after_copy props (map fst props) _ k Hproto).
    replace (existsb (String.eqb k) (map fst props)) with true; [reflexivity|].
    symmetry. apply existsb_exists. exists k. split; [exact Hk | apply String.eqb_refl].
  - intros Hnd. destruct H2 as [Hp Ho].
    apply copy_makes_no_proto_key; [exact Hnd | exact Ho | intros _; exact Hp].
Qed.

Lemma metadata_node_wins_witness :
  lookup "dc:title"
    (metadata {| path := "/content/dam/a.png"; name := "a.png"; extension := "png"; size := 7;
                 title := Str "from the metadata"; description := Undefined;
                 keywords := Undefined; renditions := [];
                 metadata := [("dc:title", Str "from the metadata"); ("dam:size", Num 7)];
                 matchReason := None; matchedPattern := None |})
  = lookup "dc:title" [("dc:title", Str "from the metadata"); ("dam:size", Num 7)] /\
  hasOwn "__proto__"
    (metadata {| path := "/content/dam/a.png"; name := "a.png"; extension := "png"; size := 7;
                 title := Str "inherited"; description := Undefined;
                 keywords := Undefined; renditions := [];
                 metadata := [("dam:size", Num 7)];
                 matchReason := None; matchedPattern := None |}) = false.
Proof.
  split.
  - apply (proj1 (metadata_node_wins retitled (Str "/content/dam/a.png") _
                    (Obj [("dc:title", Str "from the content");
                          ("metadata", Obj [("dc:title", Str "from the metadata");
                                            ("dam:size", Num 7)])])
                    [("dc:title", Str "from the metadata"); ("dam:size", Num 7)]
                    ltac:(vm_compute; reflexivity) eq_refl eq_refl eq_refl));
      [simpl; auto | discriminate].
  - apply (proj2 (metadata_node_wins protoNode (Str "/content/dam/a.png") _
                    (Obj [("metadata", Obj [("__proto__", Obj [("dc:title", Str "inherited")]);
                                            ("dam:size", Num 7)])])
                    [("__proto__", Obj [("dc:title", Str "inherited")]); ("dam:size", Num 7)]
                    ltac:(vm_compute; reflexivity) eq_refl eq_refl eq_refl)).
    repeat constructor; simpl; intuition discriminate.
Defined.

(** A metadata node with a [__proto__] key: the key is not copied, and
    the title the record reads is the one the merged object inherits
    from the value of the key. *)
Example proto_key_replaces_the_prototype :
  match extractAssetInfo protoNode (Str "/content/dam/a.png") with
  | Normal (Some info) =>
      metadata info = [("dam:size", Num 7)] /\ title info = Str "inherited"
  | _ => False
  end.
Proof. vm_compute. split; reflexivity. Qed.

(** ** Query file *)

Example splitOn_coreimg :
  splitOn ".coreimg." "/content/dam/a/b.png.coreimg.85.1600.jpeg/1683/b.jpeg"
  = ["/content/dam/a/b.png"; "85.1600.jpeg/1683/b.jpeg"] /\
  cleanPath "/content/dam" "  /a/b.png.coreimg.85.1600.jpeg/1683/b.jpeg?x=1 "
  = "/content/dam/a/b.png/b.jpeg" /\
  trim "  a b  " = "a b" /\
  removeDuplicates ["a"; "b"; "a"; "c"; "b"] = ["a"; "b"; "c"].
Proof. vm_compute. repeat split; reflexivity. Qed.

(** The index of the first occurrence: inside [before] when [x] is
    there, right after it otherwise. *)
Lemma indexOf_app : forall x before rest,
  if existsb (String.eqb x) before
  then indexOf x (before ++ x :: rest) < Z.of_nat (List.length before)
  else indexOf x (before ++ x :: rest) = Z.of_nat (List.length before).
Proof.
  intros x before rest. induction before as [|y before IH].
  - simpl. now rewrite String.eqb_refl.
  - cbn [existsb app indexOf List.length]. destruct (x =? y)%string; [simpl; lia|].
    rewrite orb_false_l.
    destruct (existsb (String.eqb x) before).
    + destruct (Z.ltb_spec (indexOf x (before ++ x :: rest)) 0); lia.
    + rewrite IH. destruct (Z.ltb_spec (Z.of_nat (List.length before)) 0); lia.
Qed.

Lemma removeDuplicates_from : forall after before seen,
  (forall x, existsb (String.eqb x) seen = existsb (String.eqb x) before) ->
  filterFrom (fun index path => indexOf path (before ++ after) =? index)
    (Z.of_nat (List.length before)) after
  = firstOccurrences seen after.
Proof.
  induction after as [|x after IH]; intros before seen Hseen; [reflexivity|].
  cbn [filterFrom firstOccurrences].
  pose proof (indexOf_app x before after) as Hi. rewrite Hseen.
  assert (Hnext : forall seen',
            (forall y, existsb (String.eqb y) seen'
                       = existsb (String.eqb y) (before ++ [x])) ->
            filterFrom (fun index path => indexOf path (before ++ x :: after) =? index)
              (Z.of_nat (List.length before) + 1) after
            = firstOccurrences seen' after).
  { intros seen' Hseen'. specialize (IH (before ++ [x])%list seen' Hseen').
    rewrite <- app_assoc in IH. simpl in IH. rewrite length_app in IH. simpl in IH.
    replace (Z.of_nat (List.length before + 1)) with (Z.of_nat (List.length before) + 1)
      in IH by lia.
    exact IH. }
  destruct (existsb (String.eqb x) before) eqn:Ex.
  - replace (indexOf x (before ++ x :: after) =? Z.of_nat (List.length before)) with false
      by (symmetry; apply Z.eqb_neq; lia).
    apply Hnext. intros y. rewrite existsb_app, Hseen. simpl. rewrite orb_false_r.
    destruct (y =? x)%string eqn:Eyx; [|now rewrite orb_false_r].
    apply String.eqb_eq in Eyx. subst y. now rewrite Ex.
  - rewrite Hi, Z.eqb_refl. f_equal.
    apply Hnext. intros y. rewrite existsb_app. simpl. rewrite Hseen, orb_false_r.
    apply orb_comm.
Qed.

Lemma removeDuplicates_firstOccurrences : forall array,
  removeDuplicates array = firstOccurrences [] array.
Proof.
  intros array. unfold removeDuplicates.
  exact (removeDuplicates_from array [] [] (fun _ => eq_refl)).
Qed.

Lemma firstOccurrences_spec : forall l seen,
  NoDup (firstOccurrences seen l) /\
  (forall x, In x (firstOccurrences seen l) <->
             In x l /\ existsb (String.eqb x) seen = false).
Proof.
  induction l as [|y l IH]; intros seen; simpl.
  - split; [constructor | intros x; tauto].
  - destruct (existsb (String.eqb y) seen) eqn:Ey.
    + destruct (IH seen) as [Hnd Hin]. split; [exact Hnd|].
      intros x. rewrite Hin. split; [tauto|].
      intros [[->|Hx] Hs]; [congruence | tauto].
    + destruct (IH (y :: seen)) as [Hnd Hin]. split.
      * constructor; [|exact Hnd]. rewrite Hin. simpl. rewrite String.eqb_refl.
        intros [_ H]. discriminate.
      * intros x. simpl. rewrite Hin. simpl. split.
        -- intros [<-|[Hx Hs]]; [auto|]. apply orb_false_iff in Hs. tauto.
        -- intros [[<-|Hx] Hs]; [auto|].
           destruct (x =? y)%string eqn:Exy.
           ++ apply String.eqb_eq in Exy. auto.
           ++ right. split; [exact Hx|]. simpl. exact Hs.
Qed.

(** A list without duplicates is returned as it is. *)
Lemma firstOccurrences_NoDup : forall l seen,
  NoDup l -> (forall x, In x l -> existsb (String.eqb x) seen = false) ->
  firstOccurrences seen l = l.
Proof.
  induction l as [|y l IH]; intros seen Hnd Hseen; simpl; [reflexivity|].
  inversion Hnd as [|? ? Hnot Hnd']; subst.
  rewrite (Hseen y (or_introl eq_refl)). f_equal. apply IH; [exact Hnd'|].
  intros x Hx. simpl. rewrite (Hseen x (or_intror Hx)), orb_false_r.
  apply String.eqb_neq. intros ->. contradiction.
Qed.

(** X24. The paths [loadQueryFile] returns all start with [/content/]
    and none of them occurs twice, whatever the file holds: JSON of any
    shape or plain lines, with a custom base path or without. *)
Theorem query_paths_are_absolute_and_distinct : forall parseJson content,
  match loadQueryFile parseJson content with
  | Normal paths =>
      Forall (fun path => startsWith path "/content/" = true) paths /\ NoDup paths
  | Thrown _ => True
  end.
Proof.
  intros parseJson content. unfold loadQueryFile.
  match goal with |- context [let '(_, _) := ?x in _] => destruct x as [base assetPaths] end.
  destruct (cleanAll base assetPaths) as [cleaned|e]; [|exact I].
  cbn [JS.bind]. rewrite removeDuplicates_firstOccurrences.
  match goal with |- context [firstOccurrences [] ?l] =>
    destruct (firstOccurrences_spec l []) as [Hnd Hin] end.
  split; [|exact Hnd].
  apply Forall_forall. intros x Hx. apply Hin in Hx. destruct Hx as [Hx _].
  apply filter_In in Hx. destruct Hx as [_ Hx]. apply andb_true_iff in Hx. tauto.
Qed.

(** A string that does not contain the separator is one piece. *)
Lemma split_without_separator : forall sep s,
  includes s (String sep "") = false -> split sep s = [s].
Proof.
  intros sep s. induction s as [|c rest IH]; intros H; [reflexivity|].
  change (includes (String c rest) (String sep ""))
    with (String.prefix (String sep "") (String c rest) || includes rest (String sep "")) in H.
  apply orb_false_iff in H. destruct H as [Hc Hrest].
  simpl in Hc. simpl.
  destruct (Ascii.eqb_spec c sep) as [->|Hne].
  - destruct (Ascii.ascii_dec sep sep); [|congruence].
    destruct rest; discriminate.
  - now rewrite (IH Hrest).
Qed.

(** No index of an array is the key [basePath], [assets] or [paths]. *)
Lemma lookup_indexed_word : forall (l : list Val) i k c rest,
  k = String c rest -> (nat_of_ascii c <? 48)%nat || (57 <? nat_of_ascii c)%nat = true ->
  lookup k (indexed i l) = Undefined.
Proof.
  induction l as [|x l IH]; intros i k c rest Hk Hc; [reflexivity|].
  simpl. rewrite (IH (S i) k c rest Hk Hc).
  replace (indexKey i =? k)%string with false; [reflexivity|].
  symmetry. apply String.eqb_neq. intros Heq. subst k. unfold indexKey in Heq.
  destruct (Nat.to_uint i) as [|u|u|u|u|u|u|u|u|u|u]; simpl in Heq;
    try discriminate; injection Heq as <- _; discriminate.
Qed.

Lemma cleanPath_plain : forall base p,
  plainPath p -> startsWith p "/content/" = true -> cleanPath base p = p.
Proof.
  intros base p (Htrim & Hq & Hh & Hcore) Hstart. unfold cleanPath.
  rewrite Htrim, (split_without_separator _ _ Hq). cbn [hd].
  rewrite (split_without_separator _ _ Hh). cbn [hd].
  rewrite Hstart. cbn [negb]. now rewrite Hcore.
Qed.

Lemma cleanAll_plain : forall base ps,
  Forall plainPath ps ->
  Forall (fun p => startsWith p "/content/" = true) ps ->
  cleanAll base (map Str ps) = Normal ps.
Proof.
  intros base ps Hplain Hstart. induction Hplain as [|p ps Hp _ IH]; [reflexivity|].
  inversion Hstart as [|? ? Hs Hrest]; subst.
  cbn [map cleanAll]. rewrite (IH Hrest). cbn [JS.bind].
  now rewrite (cleanPath_plain base p Hp Hs).
Qed.

Lemma filter_all : forall (A : Type) (f : A -> bool) l,
  Forall (fun x => f x = true) l -> filter f l = l.
Proof.
  intros A f l H. induction H as [|x l Hx _ IH]; simpl; [reflexivity|].
  now rewrite Hx, IH.
Qed.

(** X25. A query file that is a JSON array of distinct paths which are
    under [/content/] and carry no white space at their ends, no query
    string, no fragment and no [.coreimg.] part is returned as it is
    written, in the order of the file. *)
Theorem clean_query_file_is_returned_unchanged : forall parseJson content paths,
  parseJson content = Some (Arr (map Str paths)) ->
  Forall plainPath paths ->
  Forall (fun p => startsWith p "/content/" = true) paths ->
  NoDup paths ->
  loadQueryFile parseJson content = Normal paths.
Proof.
  intros parseJson content paths Hparse Hplain Hstart Hnd.
  unfold loadQueryFile. rewrite Hparse.
  assert (Hread : readJson (Arr (map Str paths)) = Normal ("/content/dam", map Str paths)).
  { unfold readJson, getProp. cbn [ownEntries JS.bind].
    rewrite (lookup_indexed_word _ 0 "basePath" "b" "asePath" eq_refl eq_refl).
    reflexivity. }
  rewrite Hread. rewrite (cleanAll_plain _ paths Hplain Hstart). cbn [JS.bind].
  rewrite filter_all.
  - rewrite removeDuplicates_firstOccurrences.
    now rewrite (firstOccurrences_NoDup paths [] Hnd (fun _ _ => eq_refl)).
  - eapply Forall_impl; [|exact Hstart]. intros p Hp. cbv beta. rewrite Hp.
    destruct p; [discriminate | reflexivity].
Qed.

Lemma clean_query_file_is_returned_unchanged_witness :
  loadQueryFile
    (parsesAs "[]" ["/content/dam/a/x.png"; "/content/dam/b/c/z.pdf"]) "[]"
  = Normal ["/content/dam/a/x.png"; "/content/dam/b/c/z.pdf"].
Proof.
  apply (clean_query_file_is_returned_unchanged
           (parsesAs "[]" ["/content/dam/a/x.png"; "/content/dam/b/c/z.pdf"]) "[]"
           ["/content/dam/a/x.png"; "/content/dam/b/c/z.pdf"]).
  - reflexivity.
  - repeat constructor.
  - repeat constructor.
  - repeat constructor; simpl; intuition discriminate.
Defined.

(** ** Search from a string *)

Lemma includes_skipSpaces : forall s p,
  includes (skipSpaces s) p = true -> includes s p = true.
Proof.
  induction s as [|c rest IH]; intros p H; [exact H|].
  cbn [skipSpaces] in H. destruct (isSpace c); [|exact H].
  apply includes_tail. apply IH. exact H.
Qed.

Lemma trimEnd_prefix : forall s, String.prefix (trimEnd s) s = true.
Proof.
  induction s as [|c rest IH]; [reflexivity|].
  cbn [trimEnd]. destruct (trimEnd rest) as [|k kept] eqn:E.
  - destruct (isSpace c); [reflexivity|]. apply prefix_cons. apply prefix_empty.
  - apply prefix_cons. exact IH.
Qed.

Lemma includes_of_prefix : forall a b p,
  String.prefix a b = true -> includes a p = true -> includes b p = true.
Proof.
  induction a as [|x a IH]; intros b p Hab Hp.
  - simpl in Hp. rewrite orb_false_r in Hp. destruct p; [|discriminate].
    apply includes_empty.
  - destruct b as [|y b]; [discriminate|]. simpl in Hab.
    destruct (Ascii.ascii_dec x y) as [->|]; [|discriminate].
    change (includes (String y a) p) with (String.prefix p (String y a) || includes a p) in Hp.
    change (includes (String y b) p) with (String.prefix p (String y b) || includes b p).
    apply orb_true_iff in Hp. apply orb_true_iff. destruct Hp as [Hp|Hp].
    + left. eapply prefix_trans; [exact Hp | apply prefix_cons; exact Hab].
    + right. eapply IH; eauto.
Qed.

(** What the trimmed string contains, the string contains. *)
Lemma includes_trim : forall s p, includes (trim s) p = true -> includes s p = true.
Proof.
  intros s p H. apply includes_skipSpaces.
  eapply includes_of_prefix; [apply trimEnd_prefix | exact H].
Qed.

Lemma includes_char : forall c x rest,
  includes (String x rest) (String c "")
  = (if Ascii.ascii_dec c x then true else false) || includes rest (String c "").
Proof.
  intros c x rest.
  change (includes (String x rest) (String c ""))
    with (String.prefix (String c "") (String x rest) || includes rest (String c "")).
  simpl. destruct (Ascii.ascii_dec c x); [now rewrite prefix_empty | reflexivity].
Qed.

(** Trimming keeps every character that is no white space. *)
Lemma trim_keeps : forall c s,
  isSpace c = false ->
  includes s (String c "") = true -> includes (trim s) (String c "") = true.
Proof.
  intros c s Hc H. unfold trim.
  assert (Hskip : includes (skipSpaces s) (String c "") = true).
  { induction s as [|x rest IH]; [exact H|].
    cbn [skipSpaces]. destruct (isSpace x) eqn:Ex; [|exact H].
    apply IH. rewrite includes_char in H.
    destruct (Ascii.ascii_dec c x) as [->|]; [congruence | exact H]. }
  clear H. induction (skipSpaces s) as [|x rest IH]; [discriminate|].
  rewrite includes_char in Hskip. cbn [trimEnd].
  destruct (Ascii.ascii_dec c x) as [<-|Hne].
  - destruct (trimEnd rest); [rewrite Hc|]; rewrite includes_char;
      destruct (Ascii.ascii_dec c c); try congruence; reflexivity.
  - simpl in Hskip. specialize (IH Hskip).
    destruct (trimEnd rest) as [|k kept]; [discriminate|].
    apply includes_tail. exact IH.
Qed.

Lemma skipSpaces_head : forall s,
  match skipSpaces s with
  | EmptyString => True
  | String c _ => isSpace c = false
  end.
Proof.
  induction s as [|c rest IH]; [exact I|].
  cbn [skipSpaces]. destruct (isSpace c) eqn:E; [exact IH | exact E].
Qed.

Lemma trimEnd_cons : forall c rest,
  trimEnd (String c rest)
  = match trimEnd rest with
    | EmptyString => if isSpace c then EmptyString else String c EmptyString
    | kept => String c kept
    end.
Proof. reflexivity. Qed.

Lemma trimEnd_idempotent : forall s, trimEnd (trimEnd s) = trimEnd s.
Proof.
  induction s as [|c rest IH]; [reflexivity|].
  rewrite (trimEnd_cons c rest). destruct (trimEnd rest) as [|k kept] eqn:E.
  - destruct (isSpace c) eqn:Ec; [reflexivity|]. cbn [trimEnd]. now rewrite Ec.
  - rewrite trimEnd_cons, IH. reflexivity.
Qed.

Lemma trim_idempotent : forall s, trim (trim s) = trim s.
Proof.
  intros s. unfold trim.
  pose proof (skipSpaces_head s) as Hhead.
  destruct (skipSpaces s) as [|c rest] eqn:E; [reflexivity|].
  assert (Hstart : skipSpaces (trimEnd (String c rest)) = trimEnd (String c rest)).
  { cbn [trimEnd]. destruct (trimEnd rest); [rewrite Hhead|]; cbn [skipSpaces];
      now rewrite Hhead. }
  rewrite Hstart. apply trimEnd_idempotent.
Qed.

Lemma split_pieces : forall sep s seg,
  In seg (split sep s) -> includes seg (String sep "") = false.
Proof.
  intros sep s. induction s as [|c rest IH]; intros seg Hin.
  - destruct Hin as [<-|[]]. reflexivity.
  - simpl in Hin. destruct (Ascii.eqb_spec c sep) as [->|Hne].
    + destruct Hin as [<-|Hin]; [reflexivity | auto].
    + destruct (split sep rest) as [|seg0 segs] eqn:E.
      * destruct Hin as [<-|[]]. rewrite includes_char.
        destruct (Ascii.ascii_dec sep c); [congruence | reflexivity].
      * destruct Hin as [<-|Hin].
        -- rewrite includes_char. destruct (Ascii.ascii_dec sep c); [congruence|].
           apply IH. now left.
        -- apply IH. now right.
Qed.

(** X26. Every pattern [findFromString] hands to a search is non-empty,
    carries no white space at its ends and holds no comma: a string of
    commas and blanks only gives no pattern, and then nothing is
    searched. *)
Theorem findFromString_patterns_are_clean : forall searchString,
  Forall (fun p => p <> "" /\ trim p = p /\ includes p "," = false) (patternsOf searchString).
Proof.
  intros s. unfold patternsOf.
  destruct (includes s "." && negb (includes s ",")) eqn:E.
  - apply andb_true_iff in E. destruct E as [Hdot Hcomma].
    apply negb_true_iff in Hcomma.
    constructor; [|constructor]. split; [|split].
    + intros Hempty. pose proof (trim_keeps "."%char s eq_refl Hdot) as H.
      rewrite Hempty in H. discriminate.
    + apply trim_idempotent.
    + destruct (includes (trim s) ",") eqn:Ec; [|reflexivity].
      apply includes_trim in Ec. congruence.
  - apply Forall_forall. intros p Hp. apply filter_In in Hp. destruct Hp as [Hin Hne].
    apply in_map_iff in Hin. destruct Hin as (seg & <- & Hseg).
    split; [|split].
    + intros Hempty. rewrite Hempty in Hne. discriminate.
    + apply trim_idempotent.
    + destruct (includes (trim seg) ",") eqn:Ec; [|reflexivity].
      apply includes_trim in Ec. rewrite (split_pieces _ _ _ Hseg) in Ec. discriminate.
Qed.

(** One pattern followed by a comma is searched as a single pattern;
    commas and blanks alone start no search. *)
Example findFromString_dispatch :
  patternsOf "burton.jpeg" = ["burton.jpeg"] /\
  patternsOf " icon2 , ,perks," = ["icon2"; "perks"] /\
  patternsOf "logo," = ["logo"] /\
  findFromString (defaultConfig "http://aem") offline " , ," 10 emptyCrawl
  = (Finished, [], emptyCrawl).
Proof. vm_compute. repeat split; reflexivity. Qed.

(** ** Invariants of the search walk, and the assets of a query file *)

Section SearchInvariant.

Variable cfg : Config.
Variable net : string -> Response.
Variable matcher : AssetInfo -> Completion (list string * option AssetInfo).
Variable R : Crawl -> Crawl -> Prop.

Hypothesis R_refl : forall c, R c c.
Hypothesis R_trans : forall a b c, R a b -> R b c -> R a c.
Hypothesis R_push : forall p c, R c (setQueue (folderQueue c ++ [p]) c).

Lemma searchEntry_keeps : forall recurse basePath key item matches c,
  (forall p c0, R c0 (snd (recurse p c0))) ->
  R c (snd (searchEntry matcher recurse basePath key item matches c)).
Proof.
  intros recurse basePath key item matches c Hrec. unfold searchEntry.
  destruct (isSystemKey key); [apply R_refl|].
  destruct (negb (truthy item) || negb (typeofObject item)); [apply R_refl|].
  match goal with |- context [match ?x with Normal _ => _ | Thrown _ => _ end] =>
    destruct x as [[[itemPath primaryType] found]|e] end; [|apply R_refl].
  destruct (isFolder primaryType); [|apply R_refl].
  set (c1 := if negb (has itemPath (processedPaths c))
             then setQueue (folderQueue c ++ [itemPath]) c else c).
  assert (H1 : R c c1).
  { subst c1. destruct (negb (has itemPath (processedPaths c))); auto. }
  specialize (Hrec itemPath c1).
  destruct (recurse itemPath c1) as [[nested|e] c2]; simpl in *; eauto.
Qed.

Lemma searchData_keeps : forall data basePath c,
  R c (snd (searchData matcher data basePath c)).
Proof.
  induction data as [| | b | n | s | items IH | props IH] using Val_nested_ind;
    intros basePath c; try apply R_refl.
  - simpl. generalize 0%nat as i. generalize (@nil AssetInfo) as acc. revert c.
    induction IH as [|item rest Hitem _ IHrest]; intros c acc i; [apply R_refl|].
    pose proof (searchEntry_keeps (searchData matcher item) basePath (indexKey i) item acc c
                  (fun p c0 => Hitem p c0)) as H.
    destruct (searchEntry matcher (searchData matcher item) basePath (indexKey i) item acc c)
      as [[ms'|e] c']; simpl in H; [|exact H].
    eapply R_trans; [exact H | apply IHrest].
  - simpl. generalize (@nil AssetInfo) as acc. revert c.
    induction IH as [|[key item] rest Hitem _ IHrest]; intros c acc; [apply R_refl|].
    simpl in Hitem.
    pose proof (searchEntry_keeps (searchData matcher item) basePath key item acc c
                  (fun p c0 => Hitem p c0)) as H.
    destruct (searchEntry matcher (searchData matcher item) basePath key item acc c)
      as [[ms'|e] c']; simpl in H; [|exact H].
    eapply R_trans; [exact H | apply IHrest].
Qed.

Hypothesis R_emit : forall e c, R c (emit e c).
Hypothesis R_scanned : forall c, R c (setStats (incrFoldersScanned (stats c)) c).
Hypothesis R_processed : forall p c, R c (setProcessed p c).
Hypothesis R_shift : forall q c, R c (setQueue q c).

Lemma searchFolder_keeps : forall folderPath c,
  R c (snd (searchFolder cfg net matcher folderPath c)).
Proof.
  intros folderPath c. unfold searchFolder.
  destruct (probeFirst cfg net folderPath searchDepths) as [bestData asked].
  assert (H : R c (emitRequests cfg folderPath asked
                     (emit (EvFetchTree folderPath)
                        (setStats (incrFoldersScanned (stats c)) c)))).
  { eapply R_trans; [apply R_scanned|].
    eapply R_trans; [apply R_emit|].
    apply (emitRequests_keeps cfg R R_refl R_trans R_emit). }
  destruct bestData as [data|]; [|exact H].
  eapply R_trans; [exact H | apply searchData_keeps].
Qed.

Lemma findLoop_invariant : forall fuel found c,
  R c (snd (findLoop cfg net matcher fuel found c)).
Proof.
  induction fuel as [|fuel IH]; intros found c; simpl; [apply R_refl|].
  destruct (folderQueue c) as [|currentPath rest]; [apply R_refl|].
  destruct (has currentPath (processedPaths c)).
  - eapply R_trans; [apply (R_shift rest) | apply IH].
  - match goal with |- context [searchFolder cfg net matcher currentPath ?c0] =>
      assert (H : R c c0) by (eapply R_trans; [apply (R_shift rest) | apply R_processed]);
      pose proof (searchFolder_keeps currentPath c0) as Hs;
      destruct (searchFolder cfg net matcher currentPath c0) as [[matches|e] c']
    end; simpl in Hs; [|eauto].
    destruct (searchDelayDue c'); (eapply R_trans; [|apply IH]); eauto.
Qed.

End SearchInvariant.

Lemma sameTally_refl : forall c, sameTally c c.
Proof. intros c. repeat split. Qed.

Lemma sameTally_trans : forall a b c, sameTally a b -> sameTally b c -> sameTally a c.
Proof. intros a b c (H1 & H2 & H3) (H4 & H5 & H6). repeat split; congruence. Qed.

Section QueryLemmas.

Variable cfg : Config.
Variable net : string -> Response.

Lemma searchByName_tally : forall assetPath fuel c,
  sameTally c (snd (searchByName cfg net assetPath fuel c)) /\
  Forall (fun a => True) (snd (fst (searchByName cfg net assetPath fuel c))).
Proof.
  intros assetPath fuel c. split; [|apply Forall_forall; auto].
  unfold searchByName, findAssets, findWith.
  eapply sameTally_trans;
    [|apply (findLoop_invariant cfg net _ sameTally sameTally_refl sameTally_trans)];
    try (intros; repeat split; reflexivity).
Qed.

Lemma resolveAsset_tally : forall assetPath fuel c,
  sameTally c (snd (resolveAsset cfg net assetPath fuel c)).
Proof.
  intros assetPath fuel c. unfold resolveAsset.
  destruct (isSimpleFilename assetPath).
  - destruct (searchByName_tally assetPath fuel c) as [H _].
    destruct (searchByName cfg net assetPath fuel c) as [[r found] c'].
    destruct r; exact H.
  - destruct (net (baseUrl cfg ++ assetPath ++ ".json")) as [e|assetData].
    + destruct (searchByName_tally assetPath fuel
                  (emit (EvRequest (baseUrl cfg ++ assetPath ++ ".json")) c)) as [H _].
      destruct (searchByName cfg net assetPath fuel _) as [[r found] c'].
      destruct r; exact H.
    + destruct (truthy assetData && typeofObject assetData); [|repeat split].
      destruct (extractAssetInfo assetData (Str assetPath)); repeat split.
Qed.

(** The loop of [processQueryAssets], from any list built so far. *)
Lemma processQueryAssets_tally : forall assetPaths fuel assets c,
  let result := processQueryAssets cfg net assetPaths fuel assets c in
  let c' := snd result in
  exists new,
    snd (fst result) = (assets ++ new)%list /\
    Forall (fun a => isValidAsset cfg a = true) new /\
    totalAssets (stats c') = totalAssets (stats c) + Z.of_nat (List.length new) /\
    skippedAssets (stats c) <= skippedAssets (stats c') /\
    (exists caught, errors (stats c') = (errors (stats c) ++ caught)%list /\
       Z.of_nat (List.length new) + (skippedAssets (stats c') - skippedAssets (stats c))
       + Z.of_nat (List.length caught) <= Z.of_nat (List.length assetPaths) /\
       (fst (fst result) = Finished ->
        Z.of_nat (List.length new) + (skippedAssets (stats c') - skippedAssets (stats c))
        + Z.of_nat (List.length caught) = Z.of_nat (List.length assetPaths))) /\
    (fst (fst result) = Finished \/ fst (fst result) = OutOfFuel).
Proof.
  assert (Hlen : forall (A : Type) (x : A) l,
            Z.of_nat (List.length (x :: l)) = Z.of_nat (List.length l) + 1)
    by (intros; cbn [List.length]; lia).
  induction assetPaths as [|assetPath rest IH]; intros fuel assets c; cbv zeta.
  - exists []. simpl. rewrite app_nil_r. repeat split; auto; try lia.
    exists []. rewrite app_nil_r. simpl. repeat split; auto; lia.
  - cbn [processQueryAssets]. rewrite (Hlen _ assetPath rest).
    pose proof (resolveAsset_tally assetPath fuel c) as (Ht & Hs & He).
    destruct (resolveAsset cfg net assetPath fuel c) as [[r assetInfo] c1].
    simpl in Ht, Hs, He.
    destruct r as [|e|].
    + set (accepted := match assetInfo with
                       | Some info => isValidAsset cfg info
                       | None => false
                       end).
      destruct accepted eqn:Ea; subst accepted.
      * destruct assetInfo as [info|]; [|discriminate].
        match goal with |- context [processQueryAssets cfg net rest fuel ?a ?c2] =>
          destruct (IH fuel a c2)
            as (new & Hnew & Hvalid & Htot & Hskip & (caught & Herr & Hle & Hfin) & Hrun)
        end.
        cbv zeta in *. simpl in Htot, Hskip, Herr, Hle, Hfin.
        exists (info :: new). rewrite Hnew, <- app_assoc, (Hlen _ info new).
        split; [reflexivity|]. split; [constructor; assumption|].
        rewrite Ht in Htot. rewrite Hs in Hskip, Hle, Hfin. rewrite He in Herr.
        split; [lia|]. split; [lia|]. split; [|exact Hrun].
        exists caught. split; [exact Herr|]. split; [lia|]. intros Hf. specialize (Hfin Hf). lia.
      * assert (Hsame : match assetInfo with
                        | Some info => if false then (assets ++ [info])%list else assets
                        | None => assets
                        end = assets) by (destruct assetInfo; reflexivity).
        rewrite Hsame.
        match goal with |- context [processQueryAssets cfg net rest fuel ?a ?c2] =>
          destruct (IH fuel a c2)
            as (new & Hnew & Hvalid & Htot & Hskip & (caught & Herr & Hle & Hfin) & Hrun)
        end.
        cbv zeta in *. simpl in Htot, Hskip, Herr, Hle, Hfin.
        exists new.
        split; [exact Hnew|]. split; [exact Hvalid|].
        rewrite Ht in Htot. rewrite Hs in Hskip, Hle, Hfin. rewrite He in Herr.
        split; [lia|]. split; [lia|]. split; [|exact Hrun].
        exists caught. split; [exact Herr|]. split; [lia|]. intros Hf. specialize (Hfin Hf). lia.
    + match goal with |- context [processQueryAssets cfg net rest fuel ?a ?c2] =>
        destruct (IH fuel a c2)
          as (new & Hnew & Hvalid & Htot & Hskip & (caught & Herr & Hle & Hfin) & Hrun)
      end.
      cbv zeta in *. simpl in Htot, Hskip, Herr, Hle, Hfin.
      exists new. split; [exact Hnew|]. split; [exact Hvalid|].
      rewrite Ht in Htot. rewrite Hs in Hskip, Hle, Hfin. rewrite He in Herr.
      split; [lia|]. split; [lia|]. split; [|exact Hrun].
      exists ((assetPath, e) :: caught). rewrite Herr, <- app_assoc, (Hlen _ (assetPath, e) caught).
      split; [reflexivity|]. split; [lia|]. intros Hf. specialize (Hfin Hf). lia.
    + exists []. cbn [fst snd List.length]. rewrite app_nil_r. rewrite Ht, Hs, He.
      split; [reflexivity|]. split; [constructor|]. split; [lia|]. split; [lia|].
      split; [|now right].
      exists []. rewrite app_nil_r. cbn [List.length].
      split; [reflexivity|]. split; [lia | discriminate].
Qed.

End QueryLemmas.

(** X27. [processQueryAssets] accounts for every path of the query
    exactly once: the path gives an asset of the result and adds one to
    [totalAssets], or it adds one to [skippedAssets], or the error it
    raised is caught and added to [errors]; the three add up to the
    number of paths.  Every asset returned passes [isValidAsset], and no
    exception leaves the function. *)
Theorem query_paths_are_accounted_for : forall cfg net assetPaths fuel c,
  let result := processQueryAssets cfg net assetPaths fuel [] c in
  let assets := snd (fst result) in
  let c' := snd result in
  Forall (fun a => isValidAsset cfg a = true) assets /\
  totalAssets (stats c') = totalAssets (stats c) + Z.of_nat (List.length assets) /\
  (fst (fst result) = Finished \/ fst (fst result) = OutOfFuel) /\
  exists caught,
    errors (stats c') = (errors (stats c) ++ caught)%list /\
    (fst (fst result) = Finished ->
     Z.of_nat (List.length assets) + (skippedAssets (stats c') - skippedAssets (stats c))
     + Z.of_nat (List.length caught) = Z.of_nat (List.length assetPaths)).
Proof.
  intros cfg net assetPaths fuel c. cbv zeta.
  destruct (processQueryAssets_tally cfg net assetPaths fuel [] c)
    as (new & Hnew & Hvalid & Htot & _ & (caught & Herr & _ & Hfin) & Hrun).
  cbv zeta in *. simpl in Hnew. rewrite Hnew.
  split; [exact Hvalid|]. split; [exact Htot|]. split; [exact Hrun|].
  exists caught. split; [exact Herr | exact Hfin].
Qed.

(** A path right under [/content/dam] is looked for by its name in the
    whole DAM, and the first match is taken: the asset downloaded for
    [/content/dam/x.png] is the one found at [/content/dam/a/x.png]. *)
Example query_for_top_level_file_takes_first_match :
  let result := processQueryAssets (defaultConfig "http://aem") smallTree
                  ["/content/dam/x.png"] 10 [] emptyCrawl in
  fst (fst result) = Finished /\
  map path (snd (fst result)) = ["/content/dam/a/x.png"] /\
  foldersScanned (stats (snd result)) = 4.
Proof. vm_compute. repeat split; reflexivity. Qed.

(** ** The crawl of a search does not depend on what is searched for *)

Section SameCourse.

Variable cfg : Config.
Variable net : string -> Response.
Variables matcher1 matcher2 : AssetInfo -> Completion (list string * option AssetInfo).
Hypothesis matchers_alike : forall a, endAlike (matcher1 a) (matcher2 a).

Lemma searchEntry_sameCourse : forall recurse1 recurse2 basePath key item matches1 matches2 c,
  (forall p c0, sameCourse (recurse1 p c0) (recurse2 p c0)) ->
  sameCourse (searchEntry matcher1 recurse1 basePath key item matches1 c)
             (searchEntry matcher2 recurse2 basePath key item matches2 c).
Proof.
  intros recurse1 recurse2 basePath key item matches1 matches2 c Hrec.
  unfold searchEntry, sameCourse.
  destruct (isSystemKey key); [simpl; auto|].
  destruct (negb (truthy item) || negb (typeofObject item)); [simpl; auto|].
  destruct (itemPathOf item basePath key) as [itemPath|e]; cbn [JS.bind]; [|simpl; auto].
  destruct (getProp item "jcr:primaryType") as [pt|e]; cbn [JS.bind]; [|simpl; auto].
  destruct (isAsset item pt) as [asset|e]; cbn [JS.bind]; [|simpl; auto].
  assert (Hfolder : forall found1 found2 : option AssetInfo,
            sameCourse
              (let matches1' := match found1 with
                                | Some assetInfo => (matches1 ++ [assetInfo])%list
                                | None => matches1
                                end in
               if isFolder pt then
                 match recurse1 itemPath
                         (if negb (has itemPath (processedPaths c))
                          then setQueue (folderQueue c ++ [itemPath]) c else c) with
                 | (Thrown e, c2) => (Thrown e, c2)
                 | (Normal nestedMatches, c2) => (Normal (matches1' ++ nestedMatches)%list, c2)
                 end
               else (Normal matches1', c))
              (let matches2' := match found2 with
                                | Some assetInfo => (matches2 ++ [assetInfo])%list
                                | None => matches2
                                end in
               if isFolder pt then
                 match recurse2 itemPath
                         (if negb (has itemPath (processedPaths c))
                          then setQueue (folderQueue c ++ [itemPath]) c else c) with
                 | (Thrown e, c2) => (Thrown e, c2)
                 | (Normal nestedMatches, c2) => (Normal (matches2' ++ nestedMatches)%list, c2)
                 end
               else (Normal matches2', c))).
  { intros found1 found2. cbv zeta. destruct (isFolder pt); [|split; simpl; auto].
    set (c1 := if negb (has itemPath (processedPaths c))
               then setQueue (folderQueue c ++ [itemPath]) c else c).
    destruct (Hrec itemPath c1) as [Hc Hend].
    destruct (recurse1 itemPath c1) as [[n1|e1] c2];
      destruct (recurse2 itemPath c1) as [[n2|e2] c2']; simpl in *;
      try contradiction; split; auto. }
  destruct asset; cbn [JS.bind].
  - destruct (extractAssetInfo item itemPath) as [[info|]|e]; cbn [JS.bind].
    + pose proof (matchers_alike info) as Hm.
      destruct (matcher1 info) as [[t1 f1]|e1]; destruct (matcher2 info) as [[t2 f2]|e2];
        simpl in Hm; try contradiction; cbn [JS.bind snd].
      * apply (Hfolder f1 f2).
      * split; simpl; auto.
    + apply (Hfolder None None).
    + split; simpl; auto.
  - apply (Hfolder None None).
Qed.

Lemma searchData_sameCourse : forall data basePath c,
  sameCourse (searchData matcher1 data basePath c) (searchData matcher2 data basePath c).
Proof.
  induction data as [| | b | n | s | items IH | props IH] using Val_nested_ind;
    intros basePath c; try solve [split; simpl; auto].
  - simpl. generalize 0%nat as i.
    generalize (@nil AssetInfo) at 1 as acc1. generalize (@nil AssetInfo) as acc2. revert c.
    induction IH as [|item rest Hitem _ IHrest]; intros c acc2 acc1 i; [split; simpl; auto|].
    destruct (searchEntry_sameCourse (searchData matcher1 item) (searchData matcher2 item)
                basePath (indexKey i) item acc1 acc2 c (fun p c0 => Hitem p c0)) as [Hc Hend].
    destruct (searchEntry matcher1 (searchData matcher1 item) basePath (indexKey i) item acc1 c)
      as [[ms1|e1] c1];
      destruct (searchEntry matcher2 (searchData matcher2 item) basePath (indexKey i) item acc2 c)
        as [[ms2|e2] c2]; simpl in Hc, Hend; try contradiction; subst.
    + apply IHrest.
    + split; simpl; auto.
  - simpl.
    generalize (@nil AssetInfo) at 1 as acc1. generalize (@nil AssetInfo) as acc2. revert c.
    induction IH as [|[key item] rest Hitem _ IHrest]; intros c acc2 acc1; [split; simpl; auto|].
    simpl in Hitem.
    destruct (searchEntry_sameCourse (searchData matcher1 item) (searchData matcher2 item)
                basePath key item acc1 acc2 c (fun p c0 => Hitem p c0)) as [Hc Hend].
    destruct (searchEntry matcher1 (searchData matcher1 item) basePath key item acc1 c)
      as [[ms1|e1] c1];
      destruct (searchEntry matcher2 (searchData matcher2 item) basePath key item acc2 c)
        as [[ms2|e2] c2]; simpl in Hc, Hend; try contradiction; subst.
    + apply IHrest.
    + split; simpl; auto.
Qed.

Lemma searchFolder_sameCourse : forall folderPath c,
  sameCourse (searchFolder cfg net matcher1 folderPath c)
             (searchFolder cfg net matcher2 folderPath c).
Proof.
  intros folderPath c. unfold searchFolder.
  destruct (probeFirst cfg net folderPath searchDepths) as [bestData asked].
  destruct bestData as [data|]; [apply searchData_sameCourse | split; simpl; auto].
Qed.

Lemma findLoop_sameCourse : forall fuel found1 found2 c,
  snd (findLoop cfg net matcher1 fuel found1 c) = snd (findLoop cfg net matcher2 fuel found2 c) /\
  fst (fst (findLoop cfg net matcher1 fuel found1 c))
  = fst (fst (findLoop cfg net matcher2 fuel found2 c)).
Proof.
  induction fuel as [|fuel IH]; intros found1 found2 c; simpl; [auto|].
  destruct (folderQueue c) as [|currentPath rest]; [auto|].
  destruct (has currentPath (processedPaths c)); [apply IH|].
  match goal with |- context [searchFolder cfg net matcher1 currentPath ?c0] =>
    destruct (searchFolder_sameCourse currentPath c0) as [Hc Hend];
    destruct (searchFolder cfg net matcher1 currentPath c0) as [[ms1|e1] c1];
    destruct (searchFolder cfg net matcher2 currentPath c0) as [[ms2|e2] c2]
  end; simpl in Hc, Hend; try contradiction; subst.
  - apply IH.
  - simpl. auto.
Qed.

End SameCourse.

(** Whether [checkPatternMatch] raises, and with what, is decided by the
    record alone. *)
Lemma checkPatternMatch_endAlike : forall a p q,
  endAlike (checkPatternMatch a p) (checkPatternMatch a q).
Proof.
  intros a p q. unfold checkPatternMatch, endAlike.
  match goal with |- context [JS.bind ?x _] => destruct x as [titleCheck|e] end;
    cbn [JS.bind]; [|reflexivity].
  match goal with |- context [JS.bind ?x _] => destruct x as [descriptionCheck|e] end;
    cbn [JS.bind]; [|reflexivity].
  match goal with |- context [JS.bind ?x _] => destruct x as [keywordsCheck|e] end;
    cbn [JS.bind]; [|reflexivity].
  repeat match goal with
         | |- context [find ?f ?l] => destruct (find f l)
         | |- context [existsb ?f ?l] => destruct (existsb f l)
         end; exact I.
Qed.

Lemma matchSingle_endAlike : forall p q a, endAlike (matchSingle p a) (matchSingle q a).
Proof.
  intros p q a. unfold matchSingle. pose proof (checkPatternMatch_endAlike a p q) as H.
  destruct (checkPatternMatch a p) as [[r1|]|e1]; destruct (checkPatternMatch a q) as [[r2|]|e2];
    simpl in *; auto.
Qed.

Lemma matchPatterns_raises_as_check : forall p ps a,
  ps <> [] -> endAlike (checkPatternMatch a p) (matchPatterns ps a).
Proof.
  intros p ps a. induction ps as [|q rest IH]; intros Hne; [congruence|].
  pose proof (checkPatternMatch_endAlike a p q) as H. cbn [matchPatterns].
  destruct (checkPatternMatch a q) as [[reason|]|e2]; cbn [JS.bind].
  - destruct (checkPatternMatch a p); simpl in *; auto.
  - destruct rest as [|q' rest'].
    + simpl. destruct (checkPatternMatch a p); simpl in *; auto.
    + assert (IH' : endAlike (checkPatternMatch a p) (matchPatterns (q' :: rest') a))
        by (apply IH; discriminate).
      destruct (checkPatternMatch a p); [|contradiction].
      destruct (matchPatterns (q' :: rest') a); simpl in *; [exact I | contradiction].
  - exact H.
Qed.

Lemma matchPatterns_endAlike : forall p ps a,
  ps <> [] -> endAlike (matchSingle p a) (matchPatterns ps a).
Proof.
  intros p ps a Hne. pose proof (matchPatterns_raises_as_check p ps a Hne) as H.
  unfold matchSingle. destruct (checkPatternMatch a p) as [[r|]|e]; simpl in *; exact H.
Qed.

(** X28. The crawl a search performs does not depend on what is
    searched for: for any two patterns, and for a pattern and any
    non-empty list of patterns, the searches fetch the same folders with
    the same requests and pauses, end the same way (an exception
    included) and leave the same crawl state; they differ in the assets
    they return only.  A search reads the whole DAM, whatever the
    pattern. *)
Theorem search_crawl_does_not_depend_on_pattern : forall cfg net fuel c p,
  (forall q,
     snd (findAssets cfg net q fuel c) = snd (findAssets cfg net p fuel c) /\
     fst (fst (findAssets cfg net q fuel c)) = fst (fst (findAssets cfg net p fuel c))) /\
  (forall patterns, patterns <> [] ->
     snd (findMultipleAssets cfg net patterns fuel c) = snd (findAssets cfg net p fuel c) /\
     fst (fst (findMultipleAssets cfg net patterns fuel c))
     = fst (fst (findAssets cfg net p fuel c))).
Proof.
  intros cfg net fuel c p. split.
  - intros q. unfold findAssets, findWith.
    apply findLoop_sameCourse. intros a. apply matchSingle_endAlike.
  - intros patterns Hne. unfold findMultipleAssets, findAssets, findWith.
    destruct (findLoop_sameCourse cfg net (matchSingle (toLowerCase p))
                (matchPatterns (map toLowerCase patterns))
                (fun a => matchPatterns_endAlike (toLowerCase p) (map toLowerCase patterns) a
                            ltac:(destruct patterns; [congruence | discriminate]))
                fuel [] [] (setQueue (folderQueue c ++ [Str "/content/dam"]) c)) as [H1 H2].
    split; [symmetry; exact H1 | symmetry; exact H2].
Qed.

(** ** Discovery: when it completes *)

Lemma probe_resolved : forall cfg net folderPath h d,
  probe cfg net folderPath h = Resolved d ->
  printable folderPath = true /\ exists url, net url = Resolved d.
Proof.
  intros cfg net folderPath h d. unfold probe, probeUrl, printable.
  destruct (toString folderPath) as [p|e]; simpl; [eauto | discriminate].
Qed.

Section CompletionLemmas.

Variable cfg : Config.

(** One entry does not raise when the path it is listed under and its
    own path convert to strings and the walk of its nested data does not
    raise. *)
Lemma processEntry_completes : forall recurse basePath d key item c,
  printable basePath = true ->
  (isSystemKey key = false -> pathPrints item = true) ->
  (isSystemKey key = false ->
   forall p d' c0, printable p = true -> fst (recurse p d' c0) = Normal tt) ->
  forall e, fst (processEntry cfg recurse basePath d key item c) <> Raise e.
Proof.
  intros recurse basePath d key item c Hbase Hitem Hrec e. unfold processEntry.
  destruct (isSystemKey key); [discriminate|].
  specialize (Hitem eq_refl). specialize (Hrec eq_refl).
  destruct (truthy item) eqn:Ti; simpl; [|discriminate].
  destruct (typeofObject item); simpl; [|discriminate].
  assert (Hpath : exists itemPath,
            itemPathOf item basePath key = Normal itemPath /\ printable itemPath = true).
  { unfold itemPathOf. unfold pathPrints in Hitem.
    destruct (getProp_truthy item "jcr:path" Ti) as [p Hp]. rewrite Hp in *. simpl.
    destruct (truthy p); simpl in Hitem; [eauto|].
    destruct (printable_toString basePath Hbase) as [b ->]. simpl. eauto. }
  destruct Hpath as (itemPath & -> & Hprint). simpl.
  destruct (getProp_truthy item "jcr:primaryType" Ti) as [pt ->]. simpl.
  destruct (isAsset_total item pt Ti) as [asset ->]. simpl.
  assert (Hex : exists extracted,
            (if asset then extractAssetInfo item itemPath else Normal None)
            = Normal extracted).
  { destruct asset; [apply extractAssetInfo_total; exact Hprint | eauto]. }
  destruct Hex as [extracted ->]. simpl.
  destruct (match extracted with
            | Some assetInfo =>
                if isValidAsset cfg assetInfo
                then (testLimitReached cfg
                        (setStats (incrTotalAssets (stats c))
                           (setDiscovered (mapSet itemPath assetInfo (discoveredAssets c)) c)),
                      setStats (incrTotalAssets (stats c))
                        (setDiscovered (mapSet itemPath assetInfo (discoveredAssets c)) c))
                else (false, c)
            | None => (false, c)
            end) as [returned c1].
  destruct returned; [discriminate|].
  destruct (isFolder pt); [|discriminate].
  match goal with |- context [recurse itemPath (d + 1) ?c2] =>
    pose proof (Hrec itemPath (d + 1) c2 Hprint) as Hn;
    destruct (recurse itemPath (d + 1) c2) as [r c3]
  end.
  simpl in Hn. subst r.
  destruct ((d <? 2) && _); discriminate.
Qed.

Lemma processDAMData_completes : forall data basePath d c,
  pathsPrint data = true -> printable basePath = true ->
  fst (processDAMData cfg data basePath d c) = Normal tt.
Proof.
  induction data as [| | b | n | s | items IH | props IH] using Val_nested_ind;
    intros basePath d c Hdata Hbase; try reflexivity.
  - (* arrays *)
    simpl in *. generalize 0%nat as i. revert c.
    induction IH as [|item rest Hitem _ IHrest]; intros c i; [reflexivity|].
    simpl in Hdata. apply andb_true_iff in Hdata. destruct Hdata as [Hhead Hrest].
    apply andb_true_iff in Hhead. destruct Hhead as [Hp Hnested].
    pose proof (processEntry_completes (processDAMData cfg item) basePath d (indexKey i) item c
                  Hbase (fun _ => Hp)
                  (fun _ p d' c0 Hprint => Hitem p d' c0 Hnested Hprint)) as Hnr.
    destruct (processEntry cfg (processDAMData cfg item) basePath d (indexKey i) item c)
      as [[| |e] c']; simpl in *.
    + apply IHrest. exact Hrest.
    + reflexivity.
    + exfalso. now apply (Hnr e).
  - (* objects *)
    simpl in *. revert c.
    induction IH as [|[key item] rest Hitem _ IHrest]; intros c; [reflexivity|].
    simpl in Hdata, Hitem. apply andb_true_iff in Hdata. destruct Hdata as [Hhead Hrest].
    assert (Hnr : forall e,
              fst (processEntry cfg (processDAMData cfg item) basePath d key item c)
              <> Raise e).
    { apply processEntry_completes; [exact Hbase | |].
      - intros Hk. rewrite Hk in Hhead. simpl in Hhead.
        apply andb_true_iff in Hhead. tauto.
      - intros Hk p d' c0 Hprint. rewrite Hk in Hhead. simpl in Hhead.
        apply andb_true_iff in Hhead. apply Hitem; tauto. }
    destruct (processEntry cfg (processDAMData cfg item) basePath d key item c)
      as [[| |e] c']; simpl in *.
    + apply IHrest. exact Hrest.
    + reflexivity.
    + exfalso. now apply (Hnr e).
Qed.

Variable net : string -> Response.
Hypothesis net_prints : forall url data, net url = Resolved data -> pathsPrint data = true.

(** A folder whose path has no conversion is fetched without a request
    and without a listing: the fetch returns. *)
Lemma scanFolder_completes : forall folderPath d c,
  fst (scanFolder cfg net folderPath d c) = Normal tt.
Proof.
  intros folderPath d c. unfold scanFolder.
  destruct (maxDepth cfg <? d); [reflexivity|].
  pose proof (probeDepths_spec cfg net folderPath (scanDepths cfg) (None, None, 0)) as Hspec.
  destruct (probeDepths cfg net folderPath (scanDepths cfg) (None, None, 0))
    as [[[bestData bestDepth] maxItems] asked].
  unfold probeSpec in Hspec. simpl in Hspec.
  destruct Hspec as (_ & _ & _ & Hbest).
  destruct bestData as [data|]; [|reflexivity].
  destruct Hbest as [Heq | (h & d0 & _ & Hr & _ & Hd & _)]; [discriminate|].
  injection Hd as <-.
  destruct (probe_resolved cfg net folderPath h data Hr) as (Hprint & url & Hnet).
  apply processDAMData_completes; [exact (net_prints url data Hnet) | exact Hprint].
Qed.

Lemma discoverLoop_never_raised : forall fuel c e,
  fst (discoverLoop cfg net fuel c) <> Raised e.
Proof.
  intros fuel. induction fuel as [|fuel IH]; intros c e; simpl; [discriminate|].
  destruct (folderQueue c) as [|currentPath rest]; [discriminate|].
  destruct (has currentPath _); [apply IH|].
  match goal with |- context [scanFolder cfg net currentPath 0 ?c0] =>
    pose proof (scanFolder_completes currentPath 0 c0) as Hs;
    destruct (scanFolder cfg net currentPath 0 c0) as [r c']
  end.
  simpl in Hs. subst r.
  destruct (testLimitReached cfg c'); [discriminate | apply IH].
Qed.

End CompletionLemmas.

(** A node that carries neither signal is passed over. *)
Lemma processEntry_ignores :
  forall cfg recurse basePath d key item c itemPath primaryType,
  itemPathOf item basePath key = Normal itemPath ->
  getProp item "jcr:primaryType" = Normal primaryType ->
  isAsset item primaryType = Normal false ->
  isFolder primaryType = false ->
  processEntry cfg recurse basePath d key item c = (Continue, c).
Proof.
  intros cfg recurse basePath d key item c itemPath pt Hp Hpt Ha Hf. unfold processEntry.
  destruct (isSystemKey key); [reflexivity|].
  destruct (negb (truthy item) || negb (typeofObject item)); [reflexivity|].
  rewrite Hp, Hpt. simpl. rewrite Ha. simpl. rewrite Hf. reflexivity.
Qed.

(** A node whose extraction raises is not recorded when the [catch]
    block can log its path; when it is no folder either, the walk moves
    on with nothing changed. *)
Lemma processEntry_skips_malformed :
  forall cfg recurse basePath d key item c itemPath primaryType e,
  itemPathOf item basePath key = Normal itemPath ->
  getProp item "jcr:primaryType" = Normal primaryType ->
  extractAssetInfoBody item itemPath = Thrown e ->
  printable itemPath = true ->
  isFolder primaryType = false ->
  extractAssetInfo item itemPath = Normal None /\
  processEntry cfg recurse basePath d key item c = (Continue, c).
Proof.
  intros cfg recurse basePath d key item c itemPath pt e Hp Hpt Hx Hprint Hf.
  assert (Hnone : extractAssetInfo item itemPath = Normal None).
  { unfold extractAssetInfo. rewrite Hx.
    destruct (printable_toString itemPath Hprint) as [s ->]. reflexivity. }
  split; [exact Hnone|]. unfold processEntry.
  destruct (isSystemKey key); [reflexivity|].
  destruct (truthy item) eqn:Ti; simpl; [|reflexivity].
  destruct (typeofObject item); simpl; [|reflexivity].
  rewrite Hp, Hpt. simpl.
  destruct (isAsset_total item pt Ti) as [asset Ha]. rewrite Ha. simpl.
  destruct asset; simpl; [rewrite Hnone; simpl|]; rewrite Hf; reflexivity.
Qed.

(** X29. Discovery raises through paths without a conversion to a
    string only.  When every node of every listing the server returns
    has a path that converts (its [jcr:path] is absent, falsy, a string,
    or any value that prints), [processDAMData], [scanFolder] and
    [discoverAllAssets] never end with an exception, whatever the state
    and the queue they start from.  A node without asset and folder
    signal is then ignored (the walk continues, nothing changes), and a
    node whose extraction raises makes [extractAssetInfo] return nothing
    and is skipped. *)
Theorem discovery_raises_only_through_paths : forall cfg net,
  (forall url data, net url = Resolved data -> pathsPrint data = true) ->
  (forall data basePath d c,
     pathsPrint data = true -> printable basePath = true ->
     fst (processDAMData cfg data basePath d c) = Normal tt) /\
  (forall folderPath d c, fst (scanFolder cfg net folderPath d c) = Normal tt) /\
  (forall fuel c,
     fst (fst (discoverAllAssets cfg net fuel c)) = Finished \/
     fst (fst (discoverAllAssets cfg net fuel c)) = OutOfFuel) /\
  (forall recurse basePath d key item c itemPath primaryType,
     itemPathOf item basePath key = Normal itemPath ->
     getProp item "jcr:primaryType" = Normal primaryType ->
     isAsset item primaryType = Normal false ->
     isFolder primaryType = false ->
     processEntry cfg recurse basePath d key item c = (Continue, c)) /\
  (forall recurse basePath d key item c itemPath primaryType e,
     itemPathOf item basePath key = Normal itemPath ->
     getProp item "jcr:primaryType" = Normal primaryType ->
     extractAssetInfoBody item itemPath = Thrown e ->
     printable itemPath = true ->
     isFolder primaryType = false ->
     extractAssetInfo item itemPath = Normal None /\
     processEntry cfg recurse basePath d key item c = (Continue, c)).
Proof.
  intros cfg net Hnet. split; [|split; [|split; [|split]]].
  - intros. now apply processDAMData_completes.
  - intros. now apply scanFolder_completes.
  - intros fuel c. unfold discoverAllAssets.
    pose proof (discoverLoop_never_raised cfg net Hnet fuel
                  (setQueue (folderQueue c ++ [Str "/content/dam"]) c)) as H.
    destruct (discoverLoop cfg net fuel (setQueue (folderQueue c ++ [Str "/content/dam"]) c))
      as [[|e|] c']; simpl in *; auto.
    exfalso. now apply (H e).
  - intros. eapply processEntry_ignores; eauto.
  - intros. eapply processEntry_skips_malformed; eauto.
Qed.

Lemma discovery_raises_only_through_paths_witness :
  fst (fst (discoverAllAssets (defaultConfig "http://aem") smallTree 10 emptyCrawl)) = Finished /\
  processEntry (defaultConfig "http://aem") (fun _ _ c => (Normal tt, c))
    (Str "/content/dam") 0 "notes" plainNode emptyCrawl = (Continue, emptyCrawl) /\
  extractAssetInfo malformedNode (Num 5) = Normal None /\
  processEntry (defaultConfig "http://aem") (fun _ _ c => (Normal tt, c))
    (Str "/content/dam") 0 "broken.png" malformedNode emptyCrawl = (Continue, emptyCrawl).
Proof.
  assert (Hnet : forall url data, smallTree url = Resolved data -> pathsPrint data = true).
  { intros url data. unfold smallTree.
    repeat match goal with |- context [if ?b then _ else _] => destruct b end;
      intros E; try discriminate; injection E as <-; reflexivity. }
  destruct (discovery_raises_only_through_paths (defaultConfig "http://aem") smallTree Hnet)
    as (_ & _ & Hrun & Hignore & Hskip).
  split; [|split].
  - destruct (Hrun 10%nat emptyCrawl) as [H|H]; [exact H|].
    vm_compute in H. discriminate.
  - apply (Hignore _ _ _ _ _ _ (Str "/content/dam/notes") (Str "nt:unstructured"));
      reflexivity.
  - apply (Hskip (fun _ _ c => (Normal tt, c)) (Str "/content/dam") 0 "broken.png" malformedNode
             emptyCrawl (Num 5) (Str "dam:Asset")
             "TypeError [ERR_INVALID_ARG_TYPE]: The path argument must be of type string");
      reflexivity.
Defined.
